(** * Git-Aura generative engine: a shallow embedding of
      [src/generative_engine.py] and the properties of its specification.

    Numeric model.  The engine computes on binary64 floating-point numbers
    (Python [float], [numpy.float64]).  They are idealised here as the real
    numbers of the Standard Library: [np.sqrt], [np.cos], [np.sin] and [np.pi]
    are [sqrt], [cos], [sin] and [PI]; rounding error, NaN and infinities are
    outside that model.  Python [int] values are [Z]; an [int] that meets a
    [float] in an expression is injected with [IZR].  Where rounding decides
    a property (the velocity clamp of [Particle.update]), the code is embedded
    a second time on IEEE 754 binary64 numbers, bit for bit (module
    [Binary64]).

    External libraries.  The OpenSimplex noise function and numpy's global
    pseudo-random generator are not part of the repository; they are taken
    as interfaces ([OpenSimplexLib], [Numpy]) whose members the engine calls.
    numpy's generator is process-wide mutable state: it is threaded
    explicitly through the code that reads or writes it. *)

From Stdlib Require Import Reals Lra Lia ZArith List Zfloor.
Import ListNotations.
From Stdlib Require Strings.String Strings.Ascii.
From Stdlib Require Floats.PrimFloat.
From Stdlib Require Import Sorting.Sorted Sorting.Permutation.
Open Scope R_scope.

(** Beyond the engine, the file embeds the pure parts of its callers and
    collaborators: the statistics normalizer of [main.py], the streak and
    language aggregation helpers of [src/data_loader.py], and the colour
    mathematics of [src/renderer.py].  Network access, file output and the
    SVG library are not modelled. *)

(** ** Python runtime: exceptions, [int()], true division, [range] *)

Inductive exception : Type :=
| ZeroDivisionError.

Definition result (A : Type) : Type := (exception + A)%type.

Definition ok {A : Type} (a : A) : result A := inr a.
Definition raise {A : Type} (e : exception) : result A := inl e.

Definition bind {A B : Type} (c : result A) (k : A -> result B) : result B :=
  match c with
  | inl e => inl e
  | inr a => k a
  end.

Notation "x <- c ;; k" := (bind c (fun x => k))
  (at level 61, c at next level, right associativity).


Fixpoint mapM {A B : Type} (f : A -> result B) (xs : list A) : result (list B) :=
  match xs with
  | [] => ok []
  | x :: xs' =>
      y <- f x ;;
      ys <- mapM f xs' ;;
      ok (y :: ys)
  end.

(** [int(r)] on a float: truncation toward zero. *)
Definition py_int (r : R) : Z :=
  if Rlt_dec r 0 then Zceil r else Zfloor r.

(** [a / b] on Python floats (and on ints, which divide as floats). *)
Definition py_truediv (a b : R) : result R :=
  if Req_dec_T b 0 then raise ZeroDivisionError else ok (a / b).

(** [range(n)]: [0, 1, ..., n-1], empty when [n <= 0]. *)
Definition range (n : Z) : list Z := map Z.of_nat (seq 0 (Z.to_nat n)).

(** ** External libraries *)

(** [opensimplex.OpenSimplex(seed).noise2(x, y)]. *)
Class OpenSimplexLib : Type := {
  noise2 : Z -> R -> R -> R
}.

(** [numpy.random]: the state of the global generator, [np.random.seed] and
    [np.random.uniform(low, high)], which returns a sample and advances the
    state. *)
Class Numpy : Type := {
  RandomState : Type;
  random_seed : Z -> RandomState;
  random_uniform : R -> R -> RandomState -> R * RandomState
}.

(** Code that may raise and that reads or writes numpy's global generator. *)
Definition np_state `{Numpy} (A : Type) : Type :=
  RandomState -> result A * RandomState.

Definition np_ret `{Numpy} {A : Type} (a : A) : np_state A :=
  fun g => (ok a, g).

Definition np_bind `{Numpy} {A B : Type} (c : np_state A) (k : A -> np_state B)
  : np_state B :=
  fun g =>
    match c g with
    | (inl e, g') => (inl e, g')
    | (inr a, g') => k a g'
    end.

Definition np_lift `{Numpy} {A : Type} (c : result A) : np_state A :=
  fun g => (c, g).

Definition np_uniform `{Numpy} (low high : R) : np_state R :=
  fun g => let (v, g') := random_uniform low high g in (ok v, g').

Definition np_seed `{Numpy} (s : Z) : np_state unit :=
  fun _ => (ok tt, random_seed s).

Notation "x <~ c ;; k" := (np_bind c (fun x => k))
  (at level 61, c at next level, right associativity).

(** [for x in xs: s = body(x, s)] *)
Fixpoint np_for `{Numpy} {A S : Type} (xs : list A) (body : A -> S -> np_state S)
  (s : S) : np_state S :=
  match xs with
  | [] => np_ret s
  | x :: xs' => s' <~ body x s ;; np_for xs' body s'
  end.

(** ** class Vector2D *)

Module Vector2D.

Record t : Type := mk { x : R; y : R }.

Definition add (self other : t) : t :=
  mk (x self + x other) (y self + y other).


Definition magnitude (self : t) : R :=
  sqrt (x self ^ 2 + y self ^ 2).

Definition normalize (self : t) : t :=
  let mag := magnitude self in
  if Req_dec_T mag 0 then mk 0 0
  else mk (x self / mag) (y self / mag).

End Vector2D.

(** ** class Particle *)

Module Particle.

Record t : Type := mk {
  position : Vector2D.t;
  velocity : Vector2D.t;
  path : list Vector2D.t;
  opacity : R
}.

(** [Particle(position=..., opacity=...)]: zero velocity, empty path. *)
Definition init (position : Vector2D.t) (opacity : R) : t :=
  mk position (Vector2D.mk 0 0) [] opacity.

Definition set_position (self : t) (p : Vector2D.t) : t :=
  mk p (velocity self) (path self) (opacity self).

Definition update (self : t) (acceleration : Vector2D.t) (max_speed : R) : t :=
  (* Update velocity with acceleration *)
  let new_vx := Vector2D.x (velocity self) + Vector2D.x acceleration in
  let new_vy := Vector2D.y (velocity self) + Vector2D.y acceleration in
  (* Clamp to max speed *)
  let speed := sqrt (new_vx ^ 2 + new_vy ^ 2) in
  let clamped :=
    if Rgt_dec speed max_speed
    then ((new_vx / speed) * max_speed, (new_vy / speed) * max_speed)
    else (new_vx, new_vy) in
  let velocity' := Vector2D.mk (fst clamped) (snd clamped) in
  (* Update position *)
  let new_pos := Vector2D.mk
    (Vector2D.x (position self) + Vector2D.x velocity')
    (Vector2D.y (position self) + Vector2D.y velocity') in
  mk new_pos velocity' (path self ++ [position self]) (opacity self).

End Particle.

(** ** class NoiseGenerator *)

Module NoiseGenerator.

Record t : Type := mk { seed : Z }.

Definition init (seed : Z) : t := mk seed.

(** The loop variables of [fractal_noise]. *)
Record fbm : Type := mk_fbm {
  total : R;
  amplitude : R;
  frequency : R;
  max_value : R
}.

Section WithNoise.
Context `{OpenSimplexLib}.

Definition noise2d (self : t) (x y scale : R) : R :=
  noise2 (seed self) (x * scale) (y * scale).

(** One iteration of [for _ in range(octaves)]. *)
Definition fbm_step (self : t) (x y persistence scale : R) (st : fbm) : fbm :=
  mk_fbm
    (total st + amplitude st * noise2d self (x * frequency st) (y * frequency st) scale)
    (amplitude st * persistence)
    (frequency st * 2)
    (max_value st + amplitude st).

Fixpoint fbm_loop (n : nat) (self : t) (x y persistence scale : R) (st : fbm)
  : fbm :=
  match n with
  | O => st
  | S k => fbm_loop k self x y persistence scale
             (fbm_step self x y persistence scale st)
  end.

(** [total / max_value] divides two Python floats: it raises
    [ZeroDivisionError] when [max_value] is zero, as it is for
    [octaves <= 0]. *)
Definition fractal_noise (self : t) (x y : R) (octaves : Z)
  (persistence scale : R) : result R :=
  let st := fbm_loop (Z.to_nat octaves) self x y persistence scale
              (mk_fbm 0 1 1 0) in
  py_truediv (total st) (max_value st).

End WithNoise.

End NoiseGenerator.

(** ** class VectorFlowField *)

Module VectorFlowField.

Record t : Type := mk {
  width : Z;
  height : Z;
  noise_gen : NoiseGenerator.t;
  chaos_factor : R;
  noise_scale : R;
  resolution : Z;
  cols : Z;
  rows : Z
}.

Definition init (width height seed : Z) (chaos_factor noise_scale : R) : t :=
  let resolution := 10%Z in
  mk width height (NoiseGenerator.init seed) chaos_factor noise_scale
     resolution (width / resolution)%Z (height / resolution)%Z.

(** Distance of [(x, y)] from the canvas centre, and of a corner from it. *)
Definition dist_from_center (self : t) (x y : R) : R :=
  let cx := IZR (width self) / 2 in
  let cy := IZR (height self) / 2 in
  sqrt ((x - cx) ^ 2 + (y - cy) ^ 2).

Definition max_dist (self : t) : R :=
  let cx := IZR (width self) / 2 in
  let cy := IZR (height self) / 2 in
  sqrt (cx ^ 2 + cy ^ 2).

Definition radial_factor (self : t) (x y : R) : R :=
  1 - (dist_from_center self x y / max_dist self) * 0.5.

Section WithNoise.
Context `{OpenSimplexLib}.

(** The angle of the force at [(x, y)], given the fractal noise value. *)
Definition base_angle (self : t) (x y noise_val : R) : R :=
  (* Map noise to angle (0 to 2*PI) *)
  let base_angle := noise_val * PI * 2 in
  (* Add secondary turbulence based on chaos factor *)
  if Rgt_dec (chaos_factor self) 0.3 then
    let turbulence :=
      NoiseGenerator.noise2d (noise_gen self) (x * 2) (y * 2)
        (noise_scale self * 3) in
    base_angle + turbulence * chaos_factor self * PI
  else base_angle.

Definition get_force (self : t) (x y : R) : result Vector2D.t :=
  (* Base angle from noise *)
  noise_val <- NoiseGenerator.fractal_noise (noise_gen self) x y 3 0.6
                 (noise_scale self) ;;
  let base_angle := base_angle self x y noise_val in
  (* Convert angle to vector *)
  let force_x := cos base_angle in
  let force_y := sin base_angle in
  (* Scale force based on distance from center *)
  let radial_factor := radial_factor self x y in
  ok (Vector2D.mk (force_x * radial_factor) (force_y * radial_factor)).

End WithNoise.

End VectorFlowField.

(** ** class ParticleSystem *)

Module ParticleSystem.

Record t : Type := mk {
  flow_field : VectorFlowField.t;
  num_particles : Z;
  particles : list Particle.t;
  width : Z;
  height : Z
}.

Definition set_particles (self : t) (ps : list Particle.t) : t :=
  mk (flow_field self) (num_particles self) ps (width self) (height self).

Definition golden_angle : R := PI * (3 - sqrt 5).

Definition margin : Z := 10.

(** The [if]/[elif] on [particle.position.x] in [simulate]. *)
Definition wrap_x (self : t) (particle : Particle.t) : Particle.t :=
  let pos := Particle.position particle in
  if Rlt_dec (Vector2D.x pos) (IZR (- margin)) then
    Particle.set_position particle
      (Vector2D.mk (IZR (width self + margin)) (Vector2D.y pos))
  else if Rgt_dec (Vector2D.x pos) (IZR (width self + margin)) then
    Particle.set_position particle
      (Vector2D.mk (IZR (- margin)) (Vector2D.y pos))
  else particle.

(** The [if]/[elif] on [particle.position.y] in [simulate]. *)
Definition wrap_y (self : t) (particle : Particle.t) : Particle.t :=
  let pos := Particle.position particle in
  if Rlt_dec (Vector2D.y pos) (IZR (- margin)) then
    Particle.set_position particle
      (Vector2D.mk (Vector2D.x pos) (IZR (height self + margin)))
  else if Rgt_dec (Vector2D.y pos) (IZR (height self + margin)) then
    Particle.set_position particle
      (Vector2D.mk (Vector2D.x pos) (IZR (- margin)))
  else particle.

(** Wrap around edges with slight margin: first x, then y. *)
Definition wrap (self : t) (particle : Particle.t) : Particle.t :=
  wrap_y self (wrap_x self particle).

Definition get_paths_with_opacity (self : t) : list (list (R * R) * R) :=
  map (fun particle =>
         (map (fun p => (Vector2D.x p, Vector2D.y p)) (Particle.path particle),
          Particle.opacity particle))
      (filter (fun particle => (2 <? length (Particle.path particle))%nat)
              (particles self)).

Definition get_paths (self : t) : list (list (R * R)) :=
  map (fun particle =>
         map (fun p => (Vector2D.x p, Vector2D.y p)) (Particle.path particle))
      (filter (fun particle => (2 <? length (Particle.path particle))%nat)
              (particles self)).

Section WithNoise.
Context `{OpenSimplexLib}.

(** The body of [for particle in self.particles] in [simulate]. *)
Definition step_particle (self : t) (force_scale : R) (particle : Particle.t)
  : result Particle.t :=
  (* Get force from flow field *)
  force <- VectorFlowField.get_force (flow_field self)
             (Vector2D.x (Particle.position particle))
             (Vector2D.y (Particle.position particle)) ;;
  (* Scale force *)
  let scaled_force :=
    Vector2D.mk (Vector2D.x force * force_scale)
                (Vector2D.y force * force_scale) in
  (* Update particle *)
  let particle := Particle.update particle scaled_force 3.0 in
  ok (wrap self particle).

(** One iteration of [for step in range(steps)]. *)
Definition step (self : t) (force_scale : R) : result t :=
  ps <- mapM (step_particle self force_scale) (particles self) ;;
  ok (set_particles self ps).

Fixpoint simulate_loop (n : nat) (self : t) (force_scale : R) : result t :=
  match n with
  | O => ok self
  | S k => self' <- step self force_scale ;; simulate_loop k self' force_scale
  end.

(** [simulate] mutates the particles in place and returns
    [self.particles]; the embedding returns the updated system. *)
Definition simulate (self : t) (steps : Z) (force_scale : R) : result t :=
  simulate_loop (Z.to_nat steps) self force_scale.

End WithNoise.

Section WithNumpy.
Context `{Numpy}.

(** The body of [for i in range(self.num_particles)]; [ps] is
    [self.particles] so far. *)
Definition place_particle (self : t) (i : Z) (ps : list Particle.t)
  : np_state (list Particle.t) :=
  let cx := IZR (width self) / 2 in
  let cy := IZR (height self) / 2 in
  (* Fibonacci spiral distribution *)
  let theta := IZR i * golden_angle in
  (* Radius grows with sqrt for uniform density *)
  q <~ np_lift (py_truediv (IZR i) (IZR (num_particles self))) ;;
  let r := sqrt q * IZR (Z.min (width self) (height self)) * 0.35 in
  let x := cx + r * cos theta in
  let y := cy + r * sin theta in
  (* Add slight randomness *)
  jx <~ np_uniform (-5) 5 ;;
  let x := x + jx in
  jy <~ np_uniform (-5) 5 ;;
  let y := y + jy in
  (* Opacity based on distance from center *)
  let max_r := IZR (Z.min (width self) (height self)) * 0.35 in
  let opacity := 0.3 + 0.7 * (1 - r / max_r) in
  np_ret (ps ++ [Particle.init (Vector2D.mk x y) opacity]).

Definition _initialize_particles (self : t) : np_state t :=
  ps <~ np_for (range (num_particles self)) (place_particle self)
          (particles self) ;;
  np_ret (set_particles self ps).

Definition init (flow_field : VectorFlowField.t) (num_particles : Z)
  (particle_density : R) : np_state t :=
  let self :=
    mk flow_field (py_int (IZR num_particles * particle_density)) []
       (VectorFlowField.width flow_field)
       (VectorFlowField.height flow_field) in
  _initialize_particles self.

End WithNumpy.

End ParticleSystem.

(** ** class AuraGenerator *)

Module AuraGenerator.

Record t : Type := mk {
  width : Z;
  height : Z;
  seed : Z
}.

(** Map density to particle count. *)
Definition base_particles (density : R) : Z := py_int (50 + density * 250).

(** Map chaos to noise parameters. *)
Definition noise_scale (chaos_factor : R) : R := 0.005 + chaos_factor * 0.015.

Definition particle_density (density : R) : R := 0.8 + density * 0.4.

Definition force_scale (chaos_factor : R) : R := 0.3 + chaos_factor * 0.4.

Section WithLibraries.
Context `{OpenSimplexLib} `{Numpy}.

Definition init (width height seed : Z) : np_state t :=
  _ <~ np_seed (seed mod 2 ^ 31)%Z ;;
  np_ret (mk width height seed).

Definition generate (self : t) (density chaos_factor : R)
  (simulation_steps : Z) : np_state (list (list (R * R) * R)) :=
  (* Create flow field *)
  let flow_field :=
    VectorFlowField.init (width self) (height self) (seed self)
      chaos_factor (noise_scale chaos_factor) in
  (* Create and run particle system *)
  particle_system <~ ParticleSystem.init flow_field (base_particles density)
                       (particle_density density) ;;
  particle_system <~ np_lift (ParticleSystem.simulate particle_system
                                simulation_steps (force_scale chaos_factor)) ;;
  np_ret (ParticleSystem.get_paths_with_opacity particle_system).

(** One run: construct an [AuraGenerator], then call [generate] on it. *)
Definition run (width height seed : Z) (density chaos_factor : R)
  (simulation_steps : Z) : np_state (list (list (R * R) * R)) :=
  self <~ init width height seed ;;
  generate self density chaos_factor simulation_steps.

End WithLibraries.

End AuraGenerator.

(** ** Exceptions of the wider program

    Outside the particle engine the program can also fail with
    [ValueError]; an exception of the engine is carried along unchanged. *)

Inductive py_error : Type :=
| Raised (e : exception)
| ValueError.

(** ** VectorFlowField.get_force_grid *)

Module VectorFlowFieldGrid.

Section WithNoise.
Context `{OpenSimplexLib}.

(** [np.zeros((rows, cols, 2))] raises [ValueError] on a negative
    dimension; the two loops then fill every cell, row by row.  The grid is
    a list of rows, each a list of force vectors. *)
Definition get_force_grid (self : VectorFlowField.t)
  : py_error + list (list Vector2D.t) :=
  let rows := VectorFlowField.rows self in
  let cols := VectorFlowField.cols self in
  if orb (rows <? 0)%Z (cols <? 0)%Z then inl ValueError
  else
    match
      mapM (fun row =>
              mapM (fun col =>
                      let x := (col * VectorFlowField.resolution self)%Z in
                      let y := (row * VectorFlowField.resolution self)%Z in
                      VectorFlowField.get_force self (IZR x) (IZR y))
                   (range cols))
           (range rows)
    with
    | inl e => inl (Raised e)
    | inr grid => inr grid
    end.

End WithNoise.

End VectorFlowFieldGrid.

(** ** Python dictionaries with string keys

    A [dict] keeps its keys unique and in insertion order: it is a list of
    (key, value) pairs.  [d.get(k, default)], [k in d], [d[k] = v] (a new key
    goes last, an old key keeps its place) and the in-place update of the
    value stored under [k]. *)

Module PyDict.

Definition t (V : Type) : Type := list (String.string * V).

Fixpoint get {V : Type} (d : t V) (k : String.string) (default : V) : V :=
  match d with
  | [] => default
  | (k', v) :: d' => if String.eqb k' k then v else get d' k default
  end.

Fixpoint contains {V : Type} (d : t V) (k : String.string) : bool :=
  match d with
  | [] => false
  | (k', _) :: d' => if String.eqb k' k then true else contains d' k
  end.

Fixpoint set {V : Type} (d : t V) (k : String.string) (v : V) : t V :=
  match d with
  | [] => [(k, v)]
  | (k', v') :: d' =>
      if String.eqb k' k then (k', v) :: d' else (k', v') :: set d' k v
  end.

Fixpoint update {V : Type} (d : t V) (k : String.string) (f : V -> V) : t V :=
  match d with
  | [] => []
  | (k', v') :: d' =>
      if String.eqb k' k then (k', f v') :: d' else (k', v') :: update d' k f
  end.

Definition values {V : Type} (d : t V) : list V := map snd d.

End PyDict.

(** ** data_loader.py: class GitHubDataLoader

    The parts of the GraphQL response the two pure helpers read, typed as
    the query of [fetch_user_stats] shapes them. *)

Module GitHubDataLoader.

Import Stdlib.Strings.String.

Record LanguageData : Type := mk_language {
  name : string;
  color : string;
  usage_count : Z
}.

(** [contributionDays] entry: [contributionCount], [date]. *)
Record ContributionDay : Type := mk_day {
  contributionCount : Z;
  date : string
}.

Record Week : Type := mk_week {
  contributionDays : list ContributionDay
}.

(** [edge["node"]]: [name], and [color], which GitHub leaves [null] for
    some languages. *)
Record LanguageNode : Type := mk_node {
  node_name : string;
  node_color : option string
}.

Record LanguageEdge : Type := mk_edge {
  size : Z;
  node : LanguageNode
}.

(** [repo["languages"]["edges"]]. *)
Record Repository : Type := mk_repository {
  languages_edges : list LanguageEdge
}.

Record GitHubStats : Type := mk_stats {
  username : string;
  user_id : Z;
  total_commits : Z;
  max_streak : Z;
  top_languages : list LanguageData;
  commit_time_distribution : PyDict.t Z
}.

(** The body of [for has_contribution in all_days]; the state is
    [(max_streak, current_streak)]. *)
Definition streak_step (st : Z * Z) (has_contribution : bool) : Z * Z :=
  let (max_streak, current_streak) := st in
  if has_contribution then
    let current_streak := (current_streak + 1)%Z in
    (Z.max max_streak current_streak, current_streak)
  else (max_streak, 0%Z).

Definition all_days (weeks : list Week) : list bool :=
  flat_map (fun week =>
              map (fun day => (0 <? contributionCount day)%Z)
                  (contributionDays week))
           weeks.

Definition _calculate_max_streak (weeks : list Week) : Z :=
  fst (fold_left streak_step (all_days weeks) (0%Z, 0%Z)).

(** [x or default] on an optional string: [None] and the empty string are
    false. *)
Definition or_default (x : option string) (default : string) : string :=
  match x with
  | None => default
  | Some EmptyString => default
  | Some s => s
  end.

(** The body of [for edge in repo["languages"]["edges"]]. *)
Definition add_edge (language_totals : PyDict.t LanguageData)
  (edge : LanguageEdge) : PyDict.t LanguageData :=
  let name := node_name (node edge) in
  let color := or_default (node_color (node edge)) "#858585" in
  let size := size edge in
  let language_totals :=
    if negb (PyDict.contains language_totals name)
    then PyDict.set language_totals name (mk_language name color 0)
    else language_totals in
  PyDict.update language_totals name
    (fun lang => mk_language (GitHubDataLoader.name lang) (GitHubDataLoader.color lang)
                             (usage_count lang + size)).

(** [sorted(xs, key=..., reverse=True)]: a stable sort into descending
    order of the key; elements with equal keys keep their original order. *)
Fixpoint insert_desc {A : Type} (key : A -> Z) (a : A) (sorted : list A) : list A :=
  match sorted with
  | [] => [a]
  | b :: rest =>
      if (key a <? key b)%Z then b :: insert_desc key a rest
      else a :: b :: rest
  end.

Definition sorted_reverse {A : Type} (key : A -> Z) (xs : list A) : list A :=
  fold_right (insert_desc key) [] xs.

Definition _aggregate_languages (repositories : list Repository)
  : list LanguageData :=
  let language_totals :=
    fold_left (fun totals repo => fold_left add_edge (languages_edges repo) totals)
              repositories [] in
  (* Sort by usage count descending *)
  sorted_reverse usage_count (PyDict.values language_totals).

End GitHubDataLoader.

(** ** main.py: class StatsNormalizer

    [np.exp] is [exp], [np.log1p x] is [ln (1 + x)] and [np.log2 p] is
    [ln p / ln 2]; [ln] is meant on positive arguments only. *)

Module StatsNormalizer.

Import Stdlib.Strings.String.

Definition REF_COMMITS : Z := 500.
Definition REF_STREAK : Z := 30.
Definition MAX_COMMITS : Z := 5000.
Definition MAX_STREAK : Z := 365.

Definition sigmoid (x midpoint steepness : R) : R :=
  1 / (1 + exp (- steepness * (x - midpoint))).

Definition log_scale (value reference max_val : R) : R :=
  if Rle_dec value 0 then 0.0
  else
    (* Log scale with reference point *)
    let log_val := ln (1 + value) / ln (1 + max_val) in
    Rmin 1.0 log_val.

Definition normalize_density (total_commits : Z) : R :=
  log_scale (IZR total_commits) (IZR REF_COMMITS) (IZR MAX_COMMITS).

Definition normalize_intensity (max_streak : Z) : R :=
  let raw := IZR max_streak / IZR MAX_STREAK in
  (* Apply sigmoid for smoother distribution *)
  sigmoid raw 0.15 8.0.

Definition log2 (p : R) : R := ln p / ln 2.

(** The body of [for p in proportions]. *)
Definition entropy_step (entropy p : R) : R :=
  if Rgt_dec p 0 then entropy - p * log2 p else entropy.

Definition calculate_chaos_factor (time_distribution : PyDict.t Z) : R :=
  let counts := [
    PyDict.get time_distribution "morning" 0%Z;
    PyDict.get time_distribution "afternoon" 0%Z;
    PyDict.get time_distribution "evening" 0%Z;
    PyDict.get time_distribution "night" 0%Z
  ] in
  let total := fold_right Z.add 0%Z counts in
  if (total =? 0)%Z then 0.5
  else
    (* Normalize to proportions *)
    let proportions := map (fun c => IZR c / IZR total) counts in
    (* Calculate entropy (measure of randomness) *)
    let entropy := fold_left entropy_step proportions 0.0 in
    (* Max entropy for 4 categories is log2(4) = 2 *)
    let max_entropy := 2.0 in
    let normalized_entropy := entropy / max_entropy in
    normalized_entropy.

(** The dict [normalize_stats] returns. *)
Record Normalized : Type := mk_normalized {
  density : R;
  intensity : R;
  chaos_factor : R;
  seed : Z;
  languages : list GitHubDataLoader.LanguageData
}.

Definition normalize_stats (stats : GitHubDataLoader.GitHubStats) : Normalized :=
  mk_normalized
    (normalize_density (GitHubDataLoader.total_commits stats))
    (normalize_intensity (GitHubDataLoader.max_streak stats))
    (calculate_chaos_factor (GitHubDataLoader.commit_time_distribution stats))
    (GitHubDataLoader.user_id stats)
    (GitHubDataLoader.top_languages stats).

End StatsNormalizer.

(** ** Python text

    A [str] is a [string]: its characters are the 256 of [ascii], text with
    other characters is outside the model.  [int(s, 16)] is taken as an
    interface: [None] stands for the [ValueError] it raises on text it does
    not accept. *)

Class PyText : Type := {
  int_base16 : String.string -> option Z
}.

(** ** renderer.py: class ColorRGB *)

Module ColorRGB.

Import Stdlib.Strings.String Stdlib.Strings.Ascii.

Record t : Type := mk { r : R; g : R; b : R }.

(** [s.lstrip(c)] for a single character [c]. *)
Fixpoint lstrip (c : ascii) (s : string) : string :=
  match s with
  | EmptyString => EmptyString
  | String c' s' => if Ascii.eqb c' c then lstrip c s' else s
  end.

(** [np.clip(a, a_min, a_max)]. *)
Definition clip (a a_min a_max : R) : R := Rmin (Rmax a a_min) a_max.

Definition hex_digits : list ascii :=
  ["0"; "1"; "2"; "3"; "4"; "5"; "6"; "7"; "8"; "9";
   "a"; "b"; "c"; "d"; "e"; "f"]%char.

Definition hex_digit (n : Z) : ascii := nth (Z.to_nat n) hex_digits "0"%char.

(** The hexadecimal digits of [n >= 0], most significant first, in front
    of [acc]; [fuel] bounds the number of digits. *)
Fixpoint to_hex_digits (fuel : nat) (n : Z) (acc : string) : string :=
  match fuel with
  | O => acc
  | S fuel' =>
      let acc' := String (hex_digit (n mod 16)) acc in
      if (n / 16 =? 0)%Z then acc' else to_hex_digits fuel' (n / 16) acc'
  end.

(** [f"{n:02x}"]: lower-case hexadecimal, zero-padded to width 2, the sign
    of a negative number counting for the width. *)
Definition format_02x (n : Z) : string :=
  let digits :=
    to_hex_digits (S (Z.to_nat (Z.log2 (Z.abs n)))) (Z.abs n) EmptyString in
  if (n <? 0)%Z then String "-"%char digits
  else if (String.length digits <? 2)%nat then String "0"%char digits
  else digits.

(** One channel as [to_hex] writes it: [int(np.clip(c * 255, 0, 255))]. *)
Definition channel_byte (c : R) : Z := py_int (clip (c * 255) 0 255).

Definition to_hex (self : t) : string :=
  let r := channel_byte (r self) in
  let g := channel_byte (g self) in
  let b := channel_byte (b self) in
  String "#"%char (format_02x r ++ format_02x g ++ format_02x b).

Definition blend (self other : t) (weight : R) : t :=
  mk (r self * (1 - weight) + r other * weight)
     (g self * (1 - weight) + g other * weight)
     (b self * (1 - weight) + b other * weight).

Definition lighten (self : t) (amount : R) : t :=
  let white := mk 1.0 1.0 1.0 in
  blend self white amount.

Definition darken (self : t) (amount : R) : t :=
  let black := mk 0.0 0.0 0.0 in
  blend self black amount.

Section WithText.
Context `{PyText}.

(** [int(text, 16) / 255.0], or the [ValueError] of [int]. *)
Definition parse_channel (text : string) : py_error + R :=
  match int_base16 text with
  | None => inl ValueError
  | Some v => inr (IZR v / 255.0)
  end.

Definition from_hex (hex_color : string) : py_error + t :=
  let hex_color := lstrip "#"%char hex_color in
  if negb (String.length hex_color =? 6)%nat then
    (* Default to gray if invalid *)
    inr (mk 0.5 0.5 0.5)
  else
    match parse_channel (substring 0 2 hex_color) with
    | inl e => inl e
    | inr r =>
        match parse_channel (substring 2 2 hex_color) with
        | inl e => inl e
        | inr g =>
            match parse_channel (substring 4 2 hex_color) with
            | inl e => inl e
            | inr b => inr (mk r g b)
            end
        end
    end.

End WithText.

End ColorRGB.

(** ** renderer.py: class ColorPaletteGenerator *)

Module ColorPaletteGenerator.

Import Stdlib.Strings.String.

(** A language dict as the renderer reads it: each of the keys may be
    missing. *)
Record Language : Type := mk_language {
  name : option string;
  color : option string;
  usage_count : option Z
}.

(** The dict the data loader produces has all three keys. *)
Definition of_language_data (lang : GitHubDataLoader.LanguageData) : Language :=
  mk_language (Some (GitHubDataLoader.name lang))
              (Some (GitHubDataLoader.color lang))
              (Some (GitHubDataLoader.usage_count lang)).

Definition BACKGROUND_COLOR : string := "#0d1117".

Definition DEFAULT_COLORS : list string := ["#58a6ff"%string; "#8b5cf6"%string; "#f97316"%string].

(** [lang.get("usage_count", 1)] and [lang.get("color", "#858585")]. *)
Definition get_usage_count (lang : Language) : Z :=
  match usage_count lang with Some u => u | None => 1%Z end.

Definition get_color (lang : Language) : string :=
  match color lang with Some c => c | None => "#858585" end.

(** [xs[:n]]: the first [n] elements, or all but the last [-n] for a
    negative [n]. *)
Definition slice_to {A : Type} (xs : list A) (n : Z) : list A :=
  if (n <? 0)%Z then firstn (Z.to_nat (Z.of_nat (List.length xs) + n)) xs
  else firstn (Z.to_nat n) xs.

Section WithText.
Context `{PyText}.

(** The body of [for lang in self.languages[:3]]; the state is
    [(r_sum, g_sum, b_sum)]. *)
Definition add_language (total_usage : Z) (sums : R * R * R) (lang : Language)
  : py_error + R * R * R :=
  let '(r_sum, g_sum, b_sum) := sums in
  match ColorRGB.from_hex (get_color lang) with
  | inl e => inl e
  | inr color =>
      let weight := IZR (get_usage_count lang) / IZR total_usage in
      inr (r_sum + ColorRGB.r color * weight,
           g_sum + ColorRGB.g color * weight,
           b_sum + ColorRGB.b color * weight)
  end.

Fixpoint add_languages (total_usage : Z) (sums : R * R * R)
  (langs : list Language) : py_error + R * R * R :=
  match langs with
  | [] => inr sums
  | lang :: langs' =>
      match add_language total_usage sums lang with
      | inl e => inl e
      | inr sums' => add_languages total_usage sums' langs'
      end
  end.

Definition calculate_base_color (languages : list Language)
  : py_error + ColorRGB.t :=
  match languages with
  | [] => ColorRGB.from_hex (nth 0 DEFAULT_COLORS EmptyString)
  | _ =>
      let top := firstn 3 languages in
      let total_usage := fold_right Z.add 0%Z (map get_usage_count top) in
      let total_usage := if (total_usage =? 0)%Z then 1%Z else total_usage in
      (* Weighted color averaging *)
      match add_languages total_usage (0.0, 0.0, 0.0) top with
      | inl e => inl e
      | inr (r_sum, g_sum, b_sum) => inr (ColorRGB.mk r_sum g_sum b_sum)
      end
  end.

Definition generate_palette (languages : list Language) (num_colors : Z)
  : py_error + list ColorRGB.t :=
  match calculate_base_color languages with
  | inl e => inl e
  | inr base =>
      (* Add lighter and darker variants *)
      let palette :=
        [base; ColorRGB.lighten base 0.3; ColorRGB.darken base 0.2] in
      (* Add complementary-ish colors by rotating hue *)
      let shifted :=
        ColorRGB.mk (ColorRGB.g base * 0.7 + ColorRGB.r base * 0.3)
                    (ColorRGB.b base * 0.7 + ColorRGB.g base * 0.3)
                    (ColorRGB.r base * 0.7 + ColorRGB.b base * 0.3) in
      let palette :=
        if (3 <? num_colors)%Z then palette ++ [shifted] else palette in
      let palette :=
        if (4 <? num_colors)%Z
        then palette ++ [ColorRGB.lighten shifted 0.2] else palette in
      inr (slice_to palette num_colors)
  end.

End WithText.

End ColorPaletteGenerator.

(** A reader of two-digit hexadecimal text, in the place of [int(s, 16)]:
    it accepts exactly two hexadecimal digits, in either case. *)

Module HexText.

Import Stdlib.Strings.String Stdlib.Strings.Ascii.

Definition digit_value (c : ascii) : option Z :=
  let n := Z.of_nat (nat_of_ascii c) in
  if ((48 <=? n) && (n <=? 57))%Z%bool then Some (n - 48)%Z
  else if ((97 <=? n) && (n <=? 102))%Z%bool then Some (n - 87)%Z
  else if ((65 <=? n) && (n <=? 70))%Z%bool then Some (n - 55)%Z
  else None.

Definition two_digits : PyText :=
  {| int_base16 := fun s =>
       match s with
       | String c1 (String c2 EmptyString) =>
           match digit_value c1, digit_value c2 with
           | Some v1, Some v2 => Some (16 * v1 + v2)%Z
           | _, _ => None
           end
       | _ => None
       end |}.

End HexText.

(** ** Sample inputs of the wider program *)

Module Fixtures.

Import Stdlib.Strings.String.

(** Two weeks of contribution counts; the run of the last two days of the
    first week goes on into the second. *)
Definition weeks : list GitHubDataLoader.Week :=
  [ GitHubDataLoader.mk_week
      [ GitHubDataLoader.mk_day 1 "2024-01-01";
        GitHubDataLoader.mk_day 0 "2024-01-02";
        GitHubDataLoader.mk_day 2 "2024-01-03";
        GitHubDataLoader.mk_day 4 "2024-01-04" ];
    GitHubDataLoader.mk_week
      [ GitHubDataLoader.mk_day 3 "2024-01-08";
        GitHubDataLoader.mk_day 0 "2024-01-09" ] ].

Definition python_edge : GitHubDataLoader.LanguageEdge :=
  GitHubDataLoader.mk_edge 100
    (GitHubDataLoader.mk_node "Python" (Some "#3572A5"%string)).

Definition shell_edge : GitHubDataLoader.LanguageEdge :=
  GitHubDataLoader.mk_edge 5 (GitHubDataLoader.mk_node "Shell" None).

Definition rust_edge : GitHubDataLoader.LanguageEdge :=
  GitHubDataLoader.mk_edge 200
    (GitHubDataLoader.mk_node "Rust" (Some "#dea584"%string)).

Definition python_again : GitHubDataLoader.LanguageEdge :=
  GitHubDataLoader.mk_edge 50 (GitHubDataLoader.mk_node "Python" (Some ""%string)).

Definition repositories : list GitHubDataLoader.Repository :=
  [ GitHubDataLoader.mk_repository [python_edge; shell_edge];
    GitHubDataLoader.mk_repository [rust_edge; python_again] ].

Definition times : PyDict.t Z :=
  [("morning"%string, 25%Z); ("afternoon"%string, 25%Z);
   ("evening"%string, 25%Z); ("night"%string, 25%Z)].

Definition stats : GitHubDataLoader.GitHubStats :=
  GitHubDataLoader.mk_stats "octocat" 583231 120 14
    (firstn 3 (GitHubDataLoader._aggregate_languages repositories)) times.

Definition languages : list ColorPaletteGenerator.Language :=
  [ ColorPaletteGenerator.mk_language (Some "Rust"%string) (Some "#dea584"%string) (Some 200%Z);
    ColorPaletteGenerator.mk_language (Some "Python"%string) (Some "#3572A5"%string) (Some 150%Z);
    ColorPaletteGenerator.mk_language (Some "Shell"%string) None None ].

Definition orange : ColorRGB.t := ColorRGB.mk 1.0 0.5 0.0.

End Fixtures.

(** ** The velocity clamp on binary64 numbers

    [Vector2D.magnitude], [Particle.update] and the two lines of [simulate]
    that scale the force and call [update], on IEEE 754 binary64 numbers (the
    kernel's primitive floats) instead of reals.  [+], [*], [/] and
    [np.sqrt] round to nearest, [x ** 2] is the rounded product [x * x], and
    [speed > max_speed] is the IEEE comparison, which is false on NaN. *)

Module Binary64.

Import PrimFloat.

Module Vector2D.

Record t : Type := mk { x : float; y : float }.

Definition magnitude (self : t) : float :=
  sqrt (x self * x self + y self * y self)%float.

End Vector2D.

Module Particle.

Record t : Type := mk {
  position : Vector2D.t;
  velocity : Vector2D.t;
  path : list Vector2D.t;
  opacity : float
}.

(** [Particle(position=..., opacity=...)]: zero velocity, empty path. *)
Definition init (position : Vector2D.t) (opacity : float) : t :=
  mk position (Vector2D.mk 0 0) [] opacity.

Definition update (self : t) (acceleration : Vector2D.t) (max_speed : float) : t :=
  (* Update velocity with acceleration *)
  let new_vx := (Vector2D.x (velocity self) + Vector2D.x acceleration)%float in
  let new_vy := (Vector2D.y (velocity self) + Vector2D.y acceleration)%float in
  (* Clamp to max speed *)
  let speed := sqrt (new_vx * new_vx + new_vy * new_vy)%float in
  let clamped :=
    if (max_speed <? speed)%float
    then (((new_vx / speed) * max_speed)%float,
          ((new_vy / speed) * max_speed)%float)
    else (new_vx, new_vy) in
  let velocity' := Vector2D.mk (fst clamped) (snd clamped) in
  (* Update position *)
  let new_pos := Vector2D.mk
    (Vector2D.x (position self) + Vector2D.x velocity')%float
    (Vector2D.y (position self) + Vector2D.y velocity')%float in
  mk new_pos velocity' (path self ++ [position self]) (opacity self).

End Particle.

Module ParticleSystem.

(** The lines "Scale force" and "Update particle" of the loop body of
    [simulate], for the [force] that [get_force] returned.  The wrap that
    follows them assigns positions only. *)
Definition update_particle (force : Vector2D.t) (force_scale : float)
  (particle : Particle.t) : Particle.t :=
  (* Scale force *)
  let scaled_force :=
    Vector2D.mk (Vector2D.x force * force_scale)%float
                (Vector2D.y force * force_scale)%float in
  (* Update particle *)
  Particle.update particle scaled_force 3.0%float.

End ParticleSystem.

End Binary64.

(** Binary64 sample inputs.  Every number below is a binary64 value. *)

Module Sample64.

Import PrimFloat.

Definition centre : Binary64.Vector2D.t := Binary64.Vector2D.mk 400 400.

(** The binary64 twin of the particle [(811, 400)] moving at [(3, 0)]. *)
Definition runaway : Binary64.Particle.t :=
  Binary64.Particle.mk (Binary64.Vector2D.mk 811 400) (Binary64.Vector2D.mk 3 0)
                       [Binary64.Vector2D.mk 808 400] 0.5.



(** A particle as the constructor leaves it, and a force of length about
    0.9 as [get_force] can return it. *)
Definition at_rest : Binary64.Particle.t := Binary64.Particle.init centre 1.

Definition steady_force : Binary64.Vector2D.t := Binary64.Vector2D.mk 0.5 0.75.

End Sample64.

(** ** Sample libraries

    Concrete members of the two interfaces, used to evaluate the engine on
    explicit inputs: a bounded trigonometric field in place of OpenSimplex and
    a linear congruential generator in place of numpy's. *)

Module Sample.

Definition trig_noise : OpenSimplexLib :=
  {| noise2 := fun seed x y => cos (x + IZR seed) * sin y |}.

Definition lcg_next (g : Z) : Z := ((1103515245 * g + 12345) mod 2 ^ 31)%Z.

Definition lcg : Numpy :=
  {| RandomState := Z;
     random_seed := fun s => s;
     random_uniform := fun low high g =>
       (low + (high - low) * (IZR (g mod 1024) / 1024), lcg_next g) |}.

Definition canvas : VectorFlowField.t :=
  VectorFlowField.init 800 800 42 0.2 (AuraGenerator.noise_scale 0.2).

Definition tiny_canvas : VectorFlowField.t :=
  VectorFlowField.init 1 1 42 0.2 (AuraGenerator.noise_scale 0.2).

(** A particle that has just left the canvas on the right with velocity
    [(3, 0)] after one recorded position. *)
Definition runaway : Particle.t :=
  Particle.mk (Vector2D.mk 811 400) (Vector2D.mk 3 0)
              [Vector2D.mk 808 400] 0.65.

(** A particle at rest far beyond the right edge of the canvas. *)
Definition stray : Particle.t :=
  Particle.init (Vector2D.mk 900 400) 0.65.

Definition system (ps : list Particle.t) : ParticleSystem.t :=
  ParticleSystem.mk canvas (Z.of_nat (length ps)) ps 800 800.

End Sample.

(** ** Vocabulary of the specification *)

Definition speed_bounded (m : R) (p : Particle.t) : Prop :=
  Vector2D.magnitude (Particle.velocity p) <= m.

(** The sum of the amplitudes [1 + p + ... + p^(n-1)]. *)
Fixpoint amplitude_sum (p : R) (n : nat) : R :=
  match n with
  | O => 0
  | S k => amplitude_sum p k + p ^ k
  end.

(** Loop invariant of [fractal_noise] once the samples lie in [-1, 1]:
    the amplitude is positive and [total] is within [max_value] of zero. *)
Definition fbm_inv (st : NoiseGenerator.fbm) : Prop :=
  0 < NoiseGenerator.amplitude st /\
  - NoiseGenerator.max_value st <= NoiseGenerator.total st
    <= NoiseGenerator.max_value st.

(** What one simulation step does to a particle: the speed is clamped to
    3.0, the path records the previous position, the opacity is kept. *)
Definition stepped (p p' : Particle.t) : Prop :=
  speed_bounded 3 p' /\
  Particle.path p' = Particle.path p ++ [Particle.position p] /\
  Particle.opacity p' = Particle.opacity p.

(** Two particle systems that differ at most in the state of their
    particles. *)
Definition same_system (s s' : ParticleSystem.t) : Prop :=
  ParticleSystem.flow_field s' = ParticleSystem.flow_field s /\
  ParticleSystem.num_particles s' = ParticleSystem.num_particles s /\
  ParticleSystem.width s' = ParticleSystem.width s /\
  ParticleSystem.height s' = ParticleSystem.height s /\
  length (ParticleSystem.particles s') = length (ParticleSystem.particles s).


(** A particle as the constructor leaves it: at rest, with no history. *)
Definition fresh (p : Particle.t) : Prop :=
  Particle.velocity p = Vector2D.mk 0 0 /\ Particle.path p = [].

(** [np.random.uniform(low, high)] returns a sample between its bounds. *)
Definition uniform_in_range `{Numpy} : Prop :=
  forall (low high : R) (g : RandomState),
    low <= high -> low <= fst (random_uniform low high g) <= high.

(** The radius of the spiral at index [i]. *)
Definition spiral_radius (self : ParticleSystem.t) (i : Z) : R :=
  sqrt (IZR i / IZR (ParticleSystem.num_particles self)) *
  IZR (Z.min (ParticleSystem.width self) (ParticleSystem.height self)) * 0.35.

(** Particle [p] is the one the constructor places at index [i] with the
    jitter [(jx, jy)]. *)
Definition placed_with (self : ParticleSystem.t) (i : Z) (jx jy : R)
  (p : Particle.t) : Prop :=
  let cx := IZR (ParticleSystem.width self) / 2 in
  let cy := IZR (ParticleSystem.height self) / 2 in
  let theta := IZR i * ParticleSystem.golden_angle in
  let r := spiral_radius self i in
  let max_r :=
    IZR (Z.min (ParticleSystem.width self) (ParticleSystem.height self)) * 0.35 in
  p = Particle.init (Vector2D.mk (cx + r * cos theta + jx) (cy + r * sin theta + jy))
                    (0.3 + 0.7 * (1 - r / max_r)).

(** Particle [p] is placed at index [i] with some jitter, each component
    of which satisfies [J]. *)
Definition placed (J : R -> Prop) (self : ParticleSystem.t) (i : Z)
  (p : Particle.t) : Prop :=
  exists jx jy, J jx /\ J jy /\ placed_with self i jx jy p.

(** Particle [p'] is [p] after [n] simulation steps, as far as its history
    goes: same opacity, and [n] more path entries that start with the
    position [p] was at. *)
Definition grown (n : nat) (p p' : Particle.t) : Prop :=
  Particle.opacity p' = Particle.opacity p /\
  exists tail,
    Particle.path p' = Particle.path p ++ tail /\
    length tail = n /\
    (n <> 0%nat -> hd_error tail = Some (Particle.position p)).

(** [run] is a stretch of consecutive days, all with contributions, inside
    [days]. *)
Definition streak_in (days run : list bool) : Prop :=
  (exists before after, days = before ++ run ++ after) /\
  Forall (fun d => d = true) run.

(** The language edges of all repositories, in order, and what the
    aggregation is expected to hold for a language [name]: the total size of
    its edges and the colour of its first edge. *)

Module LanguageTotals.

Import Stdlib.Strings.String.

Definition all_edges (repositories : list GitHubDataLoader.Repository)
  : list GitHubDataLoader.LanguageEdge :=
  flat_map GitHubDataLoader.languages_edges repositories.

Definition edge_name (e : GitHubDataLoader.LanguageEdge) : string :=
  GitHubDataLoader.node_name (GitHubDataLoader.node e).

Definition edge_color (e : GitHubDataLoader.LanguageEdge) : string :=
  GitHubDataLoader.or_default
    (GitHubDataLoader.node_color (GitHubDataLoader.node e)) "#858585".

Definition total_size (name : string)
  (edges : list GitHubDataLoader.LanguageEdge) : Z :=
  fold_right
    (fun e acc => if String.eqb (edge_name e) name
                  then (GitHubDataLoader.size e + acc)%Z else acc)
    0%Z edges.

Definition first_color (name : string)
  (edges : list GitHubDataLoader.LanguageEdge) : option string :=
  option_map edge_color (find (fun e => String.eqb (edge_name e) name) edges).

(** Descending order of usage. *)
Definition usage_ge (a b : GitHubDataLoader.LanguageData) : Prop :=
  (GitHubDataLoader.usage_count b <= GitHubDataLoader.usage_count a)%Z.

End LanguageTotals.

(** The entry-wise effect of an in-place update when keys are unique. *)
Definition updated_entry {V : Type} (k : String.string) (f : V -> V)
  (kv : String.string * V) : String.string * V :=
  if String.eqb (fst kv) k then (fst kv, f (snd kv)) else kv.

(** The invariant of the aggregation loop after the edges [edges]: the
    dict has one entry per language seen, keyed by its name, holding the
    total size and the first colour of that language. *)

Definition entry_ok (edges : list GitHubDataLoader.LanguageEdge)
  (kv : String.string * GitHubDataLoader.LanguageData) : Prop :=
  fst kv = GitHubDataLoader.name (snd kv) /\
  In (fst kv) (map LanguageTotals.edge_name edges) /\
  GitHubDataLoader.usage_count (snd kv) = LanguageTotals.total_size (fst kv) edges /\
  Some (GitHubDataLoader.color (snd kv)) = LanguageTotals.first_color (fst kv) edges.

Definition totals_ok (edges : list GitHubDataLoader.LanguageEdge)
  (d : PyDict.t GitHubDataLoader.LanguageData) : Prop :=
  NoDup (map fst d) /\
  Forall (entry_ok edges) d /\
  forall e, In e edges -> In (LanguageTotals.edge_name e) (map fst d).

(** A colour whose three channels lie in [0, 1]. *)
Definition in_gamut (c : ColorRGB.t) : Prop :=
  0 <= ColorRGB.r c <= 1 /\ 0 <= ColorRGB.g c <= 1 /\ 0 <= ColorRGB.b c <= 1.

(** [int(s, 16)] reads two hexadecimal digits, of either case, as the
    number they write. *)
Definition reads_hex_pairs `{PyText} : Prop :=
  forall (c1 c2 : Ascii.ascii) (v1 v2 : Z),
    HexText.digit_value c1 = Some v1 ->
    HexText.digit_value c2 = Some v2 ->
    int_base16 (String.String c1 (String.String c2 String.EmptyString)) =
      Some (16 * v1 + v2)%Z.

(** The colour a language dict stands for is readable and in gamut. *)
Definition readable_color `{PyText} (lang : ColorPaletteGenerator.Language)
  : Prop :=
  exists c,
    ColorRGB.from_hex (ColorPaletteGenerator.get_color lang) = inr c /\
    in_gamut c.


(** * Properties *)

(** ** The result monad *)

Lemma mapM_total {A B : Type} (f : A -> result B) (P : A -> B -> Prop)
  (xs : list A) :
  (forall a, exists b, f a = ok b /\ P a b) ->
  exists ys, mapM f xs = ok ys /\ Forall2 P xs ys.
Proof.
  intros Hf. induction xs as [|a xs IH]; simpl.
  - exists []. split; [reflexivity | constructor].
  - destruct (Hf a) as [b [Hb HP]]. destruct IH as [ys [Hys HF]].
    rewrite Hb. simpl. rewrite Hys. simpl.
    exists (b :: ys). split; [reflexivity | now constructor].
Qed.

Lemma Forall2_right {A B : Type} (P : A -> B -> Prop) (Q : B -> Prop)
  (xs : list A) (ys : list B) :
  (forall a b, P a b -> Q b) -> Forall2 P xs ys -> Forall Q ys.
Proof.
  intros HPQ HF. induction HF; constructor; eauto.
Qed.

(** ** Arithmetic of [int()] and of the Euclidean norm *)

Lemma py_int_nonneg (r : R) : 0 <= r -> py_int r = Zfloor r.
Proof.
  intros Hr. unfold py_int. destruct (Rlt_dec r 0); [lra | reflexivity].
Qed.

Lemma norm_nonneg (a b : R) : 0 <= a ^ 2 + b ^ 2.
Proof. nra. Qed.

Lemma norm_sq (a b : R) : sqrt (a ^ 2 + b ^ 2) ^ 2 = a ^ 2 + b ^ 2.
Proof.
  replace (sqrt (a ^ 2 + b ^ 2) ^ 2)
    with (sqrt (a ^ 2 + b ^ 2) * sqrt (a ^ 2 + b ^ 2)) by ring.
  apply sqrt_sqrt, norm_nonneg.
Qed.

Lemma norm_scaled (a b k : R) :
  sqrt ((a * k) ^ 2 + (b * k) ^ 2) = sqrt (a ^ 2 + b ^ 2) * Rabs k.
Proof.
  replace ((a * k) ^ 2 + (b * k) ^ 2) with ((a ^ 2 + b ^ 2) * k²)
    by (unfold Rsqr; ring).
  rewrite sqrt_mult_alt by apply norm_nonneg.
  now rewrite sqrt_Rsqr_abs.
Qed.

(** Rescaling a vector longer than [m] by [m / length] gives length [m]. *)
Lemma norm_clamped (a b m : R) :
  0 <= m -> sqrt (a ^ 2 + b ^ 2) > m ->
  sqrt ((a / sqrt (a ^ 2 + b ^ 2) * m) ^ 2 + (b / sqrt (a ^ 2 + b ^ 2) * m) ^ 2) = m.
Proof.
  intros Hm Hs. set (s := sqrt (a ^ 2 + b ^ 2)) in *.
  assert (Hpos : 0 < s) by lra.
  replace (a / s * m) with (a * (m / s)) by (field; lra).
  replace (b / s * m) with (b * (m / s)) by (field; lra).
  rewrite norm_scaled. fold s.
  rewrite Rabs_right.
  - field; lra.
  - apply Rle_ge. apply Rmult_le_pos; [lra|]. left. now apply Rinv_0_lt_compat.
Qed.

Lemma abs_x_le_magnitude (v : Vector2D.t) :
  Rabs (Vector2D.x v) <= Vector2D.magnitude v.
Proof.
  unfold Vector2D.magnitude. rewrite <- sqrt_Rsqr_abs.
  apply sqrt_le_1_alt. unfold Rsqr. nra.
Qed.

(** ** Particle.update *)

Ltac proj_simpl :=
  cbn [Particle.position Particle.velocity Particle.path Particle.opacity
       Vector2D.x Vector2D.y fst snd] in *.


(** Over the reals the clamp keeps the speed within [max_speed].  On
    binary64 numbers the rescaled velocity can be one rounding step longer
    than [max_speed]; see [SpeedClamp] below. *)
Lemma update_speed_bounded (self : Particle.t) (acceleration : Vector2D.t)
  (max_speed : R) :
  0 <= max_speed ->
  speed_bounded max_speed (Particle.update self acceleration max_speed).
Proof.
  intros Hm. unfold speed_bounded, Particle.update, Vector2D.magnitude. proj_simpl.
  destruct (Rgt_dec _ max_speed) as [Hgt | Hle]; proj_simpl.
  - rewrite norm_clamped; [lra | assumption | exact Hgt].
  - lra.
Qed.


(** ** ParticleSystem.simulate: edge wrapping *)

Lemma wrap_x_frame (self : ParticleSystem.t) (p : Particle.t) :
  Vector2D.y (Particle.position (ParticleSystem.wrap_x self p)) =
    Vector2D.y (Particle.position p) /\
  Particle.velocity (ParticleSystem.wrap_x self p) = Particle.velocity p /\
  Particle.path (ParticleSystem.wrap_x self p) = Particle.path p /\
  Particle.opacity (ParticleSystem.wrap_x self p) = Particle.opacity p.
Proof.
  unfold ParticleSystem.wrap_x.
  destruct (Rlt_dec _ _); [| destruct (Rgt_dec _ _)]; simpl; auto.
Qed.

Lemma wrap_y_frame (self : ParticleSystem.t) (p : Particle.t) :
  Vector2D.x (Particle.position (ParticleSystem.wrap_y self p)) =
    Vector2D.x (Particle.position p) /\
  Particle.velocity (ParticleSystem.wrap_y self p) = Particle.velocity p /\
  Particle.path (ParticleSystem.wrap_y self p) = Particle.path p /\
  Particle.opacity (ParticleSystem.wrap_y self p) = Particle.opacity p.
Proof.
  unfold ParticleSystem.wrap_y.
  destruct (Rlt_dec _ _); [| destruct (Rgt_dec _ _)]; simpl; auto.
Qed.

Lemma wrap_frame (self : ParticleSystem.t) (p : Particle.t) :
  Particle.velocity (ParticleSystem.wrap self p) = Particle.velocity p /\
  Particle.path (ParticleSystem.wrap self p) = Particle.path p /\
  Particle.opacity (ParticleSystem.wrap self p) = Particle.opacity p.
Proof.
  unfold ParticleSystem.wrap.
  destruct (wrap_x_frame self p) as (_ & Hv & Hp & Ho).
  destruct (wrap_y_frame self (ParticleSystem.wrap_x self p)) as (_ & Hv' & Hp' & Ho').
  repeat split; congruence.
Qed.

(** The two [if]/[elif] pairs on their own, on a canvas of positive width
    and height: an x beyond [width + 10] becomes [-10], an x below [-10]
    becomes [width + 10], likewise for y with [height]; the x-wrap never
    changes y, the y-wrap never changes x, a coordinate inside the margin
    stays, and velocity, path and opacity are never changed. *)
Lemma wrap_axes (self : ParticleSystem.t) (p : Particle.t) :
  (0 < ParticleSystem.width self)%Z ->
  (0 < ParticleSystem.height self)%Z ->
  let x := Vector2D.x (Particle.position p) in
  let y := Vector2D.y (Particle.position p) in
  let w := IZR (ParticleSystem.width self) in
  let h := IZR (ParticleSystem.height self) in
  let px := ParticleSystem.wrap_x self p in
  let p' := ParticleSystem.wrap self p in
  (x > w + 10 -> Particle.position px = Vector2D.mk (-10) y) /\
  (x < -10 -> Particle.position px = Vector2D.mk (w + 10) y) /\
  (-10 <= x <= w + 10 -> px = p) /\
  Particle.velocity px = Particle.velocity p /\
  Particle.path px = Particle.path p /\
  Particle.opacity px = Particle.opacity p /\
  (x > w + 10 -> Vector2D.x (Particle.position p') = -10) /\
  (x < -10 -> Vector2D.x (Particle.position p') = w + 10) /\
  (-10 <= x <= w + 10 -> Vector2D.x (Particle.position p') = x) /\
  (y > h + 10 -> Vector2D.y (Particle.position p') = -10) /\
  (y < -10 -> Vector2D.y (Particle.position p') = h + 10) /\
  (-10 <= y <= h + 10 -> Vector2D.y (Particle.position p') = y) /\
  Particle.velocity p' = Particle.velocity p /\
  Particle.path p' = Particle.path p /\
  Particle.opacity p' = Particle.opacity p.
Proof.
  intros Hw Hh x y w h px p'. subst px p'.
  apply IZR_lt in Hw, Hh. fold w in Hw. fold h in Hh.
  assert (Ew : IZR (ParticleSystem.width self + ParticleSystem.margin) = w + 10)
    by (unfold ParticleSystem.margin; rewrite plus_IZR; reflexivity).
  assert (Eh : IZR (ParticleSystem.height self + ParticleSystem.margin) = h + 10)
    by (unfold ParticleSystem.margin; rewrite plus_IZR; reflexivity).
  assert (Em : IZR (- ParticleSystem.margin) = -10)
    by (unfold ParticleSystem.margin; simpl; lra).
  destruct (wrap_x_frame self p) as (Hy & Hv & Hp & Ho).
  destruct (wrap_y_frame self (ParticleSystem.wrap_x self p)) as (Hx' & _).
  destruct (wrap_frame self p) as (Hv' & Hp' & Ho').
  assert (Hpx : (x > w + 10 ->
                   Particle.position (ParticleSystem.wrap_x self p) = Vector2D.mk (-10) y) /\
                (x < -10 ->
                   Particle.position (ParticleSystem.wrap_x self p) = Vector2D.mk (w + 10) y) /\
                (-10 <= x <= w + 10 -> ParticleSystem.wrap_x self p = p)).
  { unfold ParticleSystem.wrap_x. fold x y. rewrite Ew, Em.
    destruct (Rlt_dec x (-10)); [| destruct (Rgt_dec x (w + 10))]; simpl;
      repeat split; intros; try lra; reflexivity. }
  destruct Hpx as (Hgt & Hlt & Hin).
  assert (Hpy : (y > h + 10 ->
                   Vector2D.y (Particle.position (ParticleSystem.wrap self p)) = -10) /\
                (y < -10 ->
                   Vector2D.y (Particle.position (ParticleSystem.wrap self p)) = h + 10) /\
                (-10 <= y <= h + 10 ->
                   Vector2D.y (Particle.position (ParticleSystem.wrap self p)) = y)).
  { unfold ParticleSystem.wrap, ParticleSystem.wrap_y.
    rewrite Hy. fold y. rewrite Eh, Em.
    destruct (Rlt_dec y (-10)); [| destruct (Rgt_dec y (h + 10))]; simpl;
      repeat split; intros; try lra; exact Hy. }
  destruct Hpy as (Hygt & Hylt & Hyin).
  unfold ParticleSystem.wrap in Hx' |- *.
  repeat split; try assumption.
  - intros Hc. rewrite Hx', (Hgt Hc). reflexivity.
  - intros Hc. rewrite Hx', (Hlt Hc). reflexivity.
  - intros Hc. rewrite Hx', (Hin Hc). reflexivity.
Qed.

(** ** NoiseGenerator.fractal_noise *)

Section FractalNoise.
Context `{OpenSimplexLib}.

Hypothesis noise_range : forall seed x y, -1 <= noise2 seed x y <= 1.

Lemma fbm_step_inv (self : NoiseGenerator.t) (x y persistence scale : R)
  (st : NoiseGenerator.fbm) :
  0 < persistence -> fbm_inv st ->
  fbm_inv (NoiseGenerator.fbm_step self x y persistence scale st) /\
  0 < NoiseGenerator.max_value
        (NoiseGenerator.fbm_step self x y persistence scale st).
Proof.
  intros Hp [Ha Ht]. unfold fbm_inv, NoiseGenerator.fbm_step. simpl.
  pose proof (noise_range (NoiseGenerator.seed self)
                (x * NoiseGenerator.frequency st * scale)
                (y * NoiseGenerator.frequency st * scale)) as Hn.
  unfold NoiseGenerator.noise2d.
  set (v := noise2 _ _ _) in *.
  repeat split; nra.
Qed.

Lemma fbm_loop_inv (n : nat) (self : NoiseGenerator.t)
  (x y persistence scale : R) (st : NoiseGenerator.fbm) :
  0 < persistence -> fbm_inv st ->
  fbm_inv (NoiseGenerator.fbm_loop n self x y persistence scale st) /\
  (0 < NoiseGenerator.max_value st \/ (0 < n)%nat ->
   0 < NoiseGenerator.max_value
         (NoiseGenerator.fbm_loop n self x y persistence scale st)).
Proof.
  intros Hp. revert st. induction n as [|n IH]; intros st Hinv; simpl.
  - split; [assumption |]. intros [Hm | Hn]; [assumption | lia].
  - destruct (fbm_step_inv self x y persistence scale st Hp Hinv) as [Hinv' Hpos].
    destruct (IH _ Hinv') as [Hfin Hmax].
    split; [assumption |]. intros _. apply Hmax. now left.
Qed.

End FractalNoise.

Lemma amplitude_sum_S (p : R) (n : nat) :
  amplitude_sum p (S n) = 1 + p * amplitude_sum p n.
Proof.
  induction n as [|n IH].
  - simpl. ring.
  - change (amplitude_sum p (S (S n))) with (amplitude_sum p (S n) + p ^ S n).
    rewrite IH at 1.
    change (amplitude_sum p (S n)) with (amplitude_sum p n + p ^ n).
    rewrite <- tech_pow_Rmult. ring.
Qed.

(** The amplitudes of the loop are [1, p, p^2, ...], the frequency doubles,
    and [max_value] accumulates the amplitudes. *)
Lemma fbm_loop_amplitudes `{OpenSimplexLib} (n : nat) (self : NoiseGenerator.t)
  (x y persistence scale : R) (st : NoiseGenerator.fbm) :
  let st' := NoiseGenerator.fbm_loop n self x y persistence scale st in
  NoiseGenerator.amplitude st' = NoiseGenerator.amplitude st * persistence ^ n /\
  NoiseGenerator.frequency st' = NoiseGenerator.frequency st * 2 ^ n /\
  NoiseGenerator.max_value st' =
    NoiseGenerator.max_value st +
    NoiseGenerator.amplitude st * amplitude_sum persistence n.
Proof.
  revert st. induction n as [|n IH]; intros st.
  - simpl. repeat split; ring.
  - destruct (IH (NoiseGenerator.fbm_step self x y persistence scale st))
      as (Ha & Hf & Hm).
    cbn zeta in *.
    change (NoiseGenerator.fbm_loop (S n) self x y persistence scale st)
      with (NoiseGenerator.fbm_loop n self x y persistence scale
              (NoiseGenerator.fbm_step self x y persistence scale st)).
    rewrite Ha, Hf, Hm, amplitude_sum_S.
    unfold NoiseGenerator.fbm_step.
    cbn [NoiseGenerator.amplitude NoiseGenerator.frequency NoiseGenerator.max_value].
    rewrite <- !tech_pow_Rmult.
    repeat split; ring.
Qed.

(** C5. With every 2D noise sample in [-1, 1], at least one octave and a
    positive persistence, [fractal_noise] returns a value (it does not
    raise), the value lies in [-1, 1] whatever the octave count, and it is
    the octave sum divided by the sum of the amplitudes
    [1 + persistence + persistence^2 + ...]. *)
Theorem fractal_noise_bounded `{OpenSimplexLib} (self : NoiseGenerator.t)
  (x y : R) (octaves : Z) (persistence scale : R) :
  (forall seed u v, -1 <= noise2 seed u v <= 1) ->
  (1 <= octaves)%Z ->
  0 < persistence ->
  exists st value,
    st = NoiseGenerator.fbm_loop (Z.to_nat octaves) self x y persistence scale
           (NoiseGenerator.mk_fbm 0 1 1 0) /\
    NoiseGenerator.fractal_noise self x y octaves persistence scale = ok value /\
    -1 <= value <= 1 /\
    NoiseGenerator.max_value st = amplitude_sum persistence (Z.to_nat octaves) /\
    0 < NoiseGenerator.max_value st /\
    value = NoiseGenerator.total st / NoiseGenerator.max_value st.
Proof.
  intros Hnoise Hoct Hp.
  set (st := NoiseGenerator.fbm_loop (Z.to_nat octaves) self x y persistence scale
               (NoiseGenerator.mk_fbm 0 1 1 0)).
  assert (Hinit : fbm_inv (NoiseGenerator.mk_fbm 0 1 1 0))
    by (unfold fbm_inv; simpl; lra).
  destruct (fbm_loop_inv Hnoise (Z.to_nat octaves) self x y persistence scale
              _ Hp Hinit) as [[_ Htot] Hmax].
  fold st in Htot, Hmax.
  assert (Hpos : 0 < NoiseGenerator.max_value st) by (apply Hmax; right; lia).
  destruct (fbm_loop_amplitudes (Z.to_nat octaves) self x y persistence scale
              (NoiseGenerator.mk_fbm 0 1 1 0)) as (_ & _ & Hsum).
  fold st in Hsum. simpl in Hsum.
  exists st, (NoiseGenerator.total st / NoiseGenerator.max_value st).
  split; [reflexivity |]. split; [| split; [| split; [| split]]].
  - unfold NoiseGenerator.fractal_noise. fold st. unfold py_truediv.
    destruct (Req_dec_T _ 0); [lra | reflexivity].
  - split.
    + apply Rmult_le_reg_r with (NoiseGenerator.max_value st); [assumption |].
      unfold Rdiv. rewrite Rmult_assoc, Rinv_l by lra. lra.
    + apply Rmult_le_reg_r with (NoiseGenerator.max_value st); [assumption |].
      unfold Rdiv. rewrite Rmult_assoc, Rinv_l by lra. lra.
  - rewrite Hsum. ring.
  - assumption.
  - reflexivity.
Qed.

(** ** VectorFlowField.get_force *)

(** With the three octaves and persistence 0.6 of [get_force], the sum of
    the amplitudes is 1.96 and the division cannot fail. *)
Lemma fractal_noise_three_octaves `{OpenSimplexLib} (ng : NoiseGenerator.t)
  (x y scale : R) :
  exists noise_val,
    NoiseGenerator.fractal_noise ng x y 3 0.6 scale = ok noise_val.
Proof.
  unfold NoiseGenerator.fractal_noise.
  change (Z.to_nat 3) with 3%nat.
  destruct (fbm_loop_amplitudes 3 ng x y 0.6 scale
              (NoiseGenerator.mk_fbm 0 1 1 0)) as (_ & _ & Hm).
  cbn zeta in Hm.
  set (st := NoiseGenerator.fbm_loop 3 ng x y 0.6 scale _) in *.
  assert (Hpos : NoiseGenerator.max_value st = 1.96).
  { rewrite Hm. cbn [NoiseGenerator.max_value NoiseGenerator.amplitude amplitude_sum].
    lra. }
  unfold py_truediv. destruct (Req_dec_T _ 0) as [E | _]; [lra |].
  eexists. reflexivity.
Qed.

Lemma get_force_unfold `{OpenSimplexLib} (self : VectorFlowField.t) (x y : R) :
  exists noise_val,
    NoiseGenerator.fractal_noise (VectorFlowField.noise_gen self) x y 3 0.6
      (VectorFlowField.noise_scale self) = ok noise_val /\
    VectorFlowField.get_force self x y =
      ok (Vector2D.mk
            (cos (VectorFlowField.base_angle self x y noise_val) *
             VectorFlowField.radial_factor self x y)
            (sin (VectorFlowField.base_angle self x y noise_val) *
             VectorFlowField.radial_factor self x y)).
Proof.
  destruct (fractal_noise_three_octaves (VectorFlowField.noise_gen self) x y
              (VectorFlowField.noise_scale self)) as [v Hv].
  exists v. split; [exact Hv |].
  unfold VectorFlowField.get_force. rewrite Hv. reflexivity.
Qed.

(** C9. [get_force] takes its direction from the angle [noise * 2 * PI],
    where [noise] is the fractal sample with 3 octaves, persistence 0.6 and
    scale [noise_scale]; it adds the turbulence term (the noise sampled at
    [(2x, 2y)] with scale [noise_scale * 3], times [chaos_factor * PI]) when
    [chaos_factor > 0.3], and adds nothing when [chaos_factor <= 0.3]. *)
Theorem get_force_turbulence_gate `{OpenSimplexLib} (self : VectorFlowField.t)
  (x y : R) :
  exists noise_val angle,
    NoiseGenerator.fractal_noise (VectorFlowField.noise_gen self) x y 3 0.6
      (VectorFlowField.noise_scale self) = ok noise_val /\
    VectorFlowField.get_force self x y =
      ok (Vector2D.mk (cos angle * VectorFlowField.radial_factor self x y)
                      (sin angle * VectorFlowField.radial_factor self x y)) /\
    (VectorFlowField.chaos_factor self > 0.3 ->
       angle = noise_val * PI * 2 +
               NoiseGenerator.noise2d (VectorFlowField.noise_gen self)
                 (x * 2) (y * 2) (VectorFlowField.noise_scale self * 3) *
               VectorFlowField.chaos_factor self * PI) /\
    (VectorFlowField.chaos_factor self <= 0.3 ->
       angle = noise_val * PI * 2).
Proof.
  destruct (get_force_unfold self x y) as (v & Hv & Hf).
  exists v, (VectorFlowField.base_angle self x y v).
  split; [exact Hv |]. split; [exact Hf |].
  unfold VectorFlowField.base_angle.
  destruct (Rgt_dec (VectorFlowField.chaos_factor self) 0.3) as [Hgt | Hle].
  - split; [reflexivity | lra].
  - split; [intros Hc; contradiction | reflexivity].
Qed.

(** The force has the length of the radial factor. *)
Lemma force_magnitude (angle rf : R) :
  Vector2D.magnitude (Vector2D.mk (cos angle * rf) (sin angle * rf)) = Rabs rf.
Proof.
  unfold Vector2D.magnitude. cbn [Vector2D.x Vector2D.y].
  rewrite norm_scaled.
  replace (cos angle ^ 2 + sin angle ^ 2) with ((sin angle)² + (cos angle)²)
    by (unfold Rsqr; ring).
  rewrite sin2_cos2, sqrt_1. ring.
Qed.

Lemma max_dist_pos (self : VectorFlowField.t) :
  (0 < VectorFlowField.width self)%Z ->
  0 < VectorFlowField.max_dist self.
Proof.
  intros Hw. apply IZR_lt in Hw. unfold VectorFlowField.max_dist.
  apply sqrt_lt_R0. nra.
Qed.

Lemma dist_nonneg (self : VectorFlowField.t) (x y : R) :
  0 <= VectorFlowField.dist_from_center self x y.
Proof. apply sqrt_pos. Qed.

Lemma dist_inside_canvas (self : VectorFlowField.t) (x y : R) :
  0 <= x <= IZR (VectorFlowField.width self) ->
  0 <= y <= IZR (VectorFlowField.height self) ->
  VectorFlowField.dist_from_center self x y <= VectorFlowField.max_dist self.
Proof.
  intros Hx Hy. unfold VectorFlowField.dist_from_center, VectorFlowField.max_dist.
  apply sqrt_le_1_alt. nra.
Qed.

Lemma radial_factor_bounds (self : VectorFlowField.t) (x y : R) :
  (0 < VectorFlowField.width self)%Z ->
  VectorFlowField.radial_factor self x y <= 1 /\
  (0.5 <= VectorFlowField.radial_factor self x y <->
   VectorFlowField.dist_from_center self x y <= VectorFlowField.max_dist self).
Proof.
  intros Hw. pose proof (max_dist_pos self Hw) as Hm.
  pose proof (dist_nonneg self x y) as Hd.
  unfold VectorFlowField.radial_factor.
  set (d := VectorFlowField.dist_from_center self x y) in *.
  set (m := VectorFlowField.max_dist self) in *.
  assert (Hq : 0 <= d / m) by (apply Rle_mult_inv_pos; assumption).
  assert (Hiff : d / m <= 1 <-> d <= m).
  { split; intros Hc.
    - apply Rmult_le_reg_r with (/ m); [now apply Rinv_0_lt_compat |].
      rewrite Rinv_r by lra. exact Hc.
    - apply Rmult_le_reg_r with m; [assumption |].
      unfold Rdiv. rewrite Rmult_assoc, Rinv_l by lra. lra. }
  split; [lra |]. split; intros Hc.
  - apply Hiff. lra.
  - apply Hiff in Hc. lra.
Qed.

(** C4 (as stated) fails.  On the 800 x 800 canvas the point [(-5, -5)],
    inside the wrap margin, is farther from the centre than a corner is, and
    the radial factor there is below 0.5; on a 1 x 1 canvas the force at the
    same point is longer than 1. *)
Lemma radial_factor_below_half_in_margin :
  -10 <= -5 <= 800 + 10 /\
  VectorFlowField.radial_factor Sample.canvas (-5) (-5) < 0.5 /\
  exists force,
    @VectorFlowField.get_force Sample.trig_noise Sample.tiny_canvas (-5) (-5)
      = ok force /\
    Vector2D.magnitude force > 1.
Proof.
  split; [lra |]. split.
  - assert (Hw : (0 < VectorFlowField.width Sample.canvas)%Z) by (simpl; lia).
    destruct (radial_factor_bounds Sample.canvas (-5) (-5) Hw) as [_ Hiff].
    apply Rnot_le_lt. intros Hc. apply Hiff in Hc.
    apply Rle_not_lt in Hc. apply Hc.
    unfold VectorFlowField.max_dist, VectorFlowField.dist_from_center.
    cbn [VectorFlowField.width VectorFlowField.height Sample.canvas
         VectorFlowField.init].
    apply sqrt_lt_1; nra.
  - destruct (@get_force_unfold Sample.trig_noise Sample.tiny_canvas (-5) (-5))
      as (v & _ & Hf).
    eexists. split; [exact Hf |].
    rewrite force_magnitude.
    assert (Hw : (0 < VectorFlowField.width Sample.tiny_canvas)%Z) by (simpl; lia).
    pose proof (max_dist_pos _ Hw) as Hm.
    assert (Hd : 5 * VectorFlowField.max_dist Sample.tiny_canvas <=
                 VectorFlowField.dist_from_center Sample.tiny_canvas (-5) (-5)).
    { unfold VectorFlowField.max_dist, VectorFlowField.dist_from_center.
      cbn [VectorFlowField.width VectorFlowField.height Sample.tiny_canvas
           VectorFlowField.init].
      rewrite <- (sqrt_pow2 5) at 1 by lra.
      rewrite <- sqrt_mult_alt by nra.
      apply sqrt_le_1_alt. lra. }
    unfold VectorFlowField.radial_factor.
    set (d := VectorFlowField.dist_from_center _ _ _) in *.
    set (m := VectorFlowField.max_dist _) in *.
    assert (Hq : 5 <= d / m).
    { apply Rmult_le_reg_r with m; [assumption |].
      unfold Rdiv. rewrite Rmult_assoc, Rinv_l by lra. lra. }
    rewrite Rabs_left by lra. lra.
Qed.

(** C4 (amended).  On a canvas of positive width and height the radial factor
    never exceeds 1, and it is at least 0.5 exactly at the points no farther
    from the centre than a corner, which include every point of the canvas
    rectangle; [get_force] returns a vector whose length is the absolute
    value of the radial factor, hence at most 1 at those points. *)
Theorem radial_factor_range `{OpenSimplexLib} (self : VectorFlowField.t)
  (x y : R) :
  (0 < VectorFlowField.width self)%Z ->
  (0 < VectorFlowField.height self)%Z ->
  VectorFlowField.radial_factor self x y <= 1 /\
  (0.5 <= VectorFlowField.radial_factor self x y <->
   VectorFlowField.dist_from_center self x y <= VectorFlowField.max_dist self) /\
  (0 <= x <= IZR (VectorFlowField.width self) ->
   0 <= y <= IZR (VectorFlowField.height self) ->
   0.5 <= VectorFlowField.radial_factor self x y <= 1) /\
  exists force,
    VectorFlowField.get_force self x y = ok force /\
    Vector2D.magnitude force = Rabs (VectorFlowField.radial_factor self x y) /\
    (VectorFlowField.dist_from_center self x y <= VectorFlowField.max_dist self ->
     Vector2D.magnitude force <= 1).
Proof.
  intros Hw Hh.
  destruct (radial_factor_bounds self x y Hw) as [Hle Hiff].
  split; [exact Hle |]. split; [exact Hiff |]. split.
  - intros Hx Hy. split; [| exact Hle].
    apply Hiff. now apply dist_inside_canvas.
  - destruct (get_force_unfold self x y) as (v & _ & Hf).
    eexists. split; [exact Hf |]. rewrite force_magnitude.
    split; [reflexivity |].
    intros Hd. apply Hiff in Hd. rewrite Rabs_right; lra.
Qed.

(** ** ParticleSystem.simulate *)

Lemma step_particle_total `{OpenSimplexLib} (self : ParticleSystem.t)
  (force_scale : R) (p : Particle.t) :
  exists p', ParticleSystem.step_particle self force_scale p = ok p' /\
             stepped p p'.
Proof.
  unfold ParticleSystem.step_particle.
  destruct (get_force_unfold (ParticleSystem.flow_field self)
              (Vector2D.x (Particle.position p))
              (Vector2D.y (Particle.position p))) as (v & _ & Hf).
  rewrite Hf. cbn [bind].
  eexists. split; [reflexivity |].
  match goal with |- stepped _ (ParticleSystem.wrap _ ?q) => set (u := q) end.
  destruct (wrap_frame self u) as (Hv & Hp & Ho).
  unfold stepped, speed_bounded. rewrite Hv, Hp, Ho.
  split; [| split; reflexivity].
  assert (Hu : speed_bounded 3.0 u) by (apply update_speed_bounded; lra).
  unfold speed_bounded in Hu. lra.
Qed.

Lemma step_total `{OpenSimplexLib} (self : ParticleSystem.t) (force_scale : R) :
  exists self',
    ParticleSystem.step self force_scale = ok self' /\
    same_system self self' /\
    Forall2 stepped (ParticleSystem.particles self)
                    (ParticleSystem.particles self').
Proof.
  unfold ParticleSystem.step.
  destruct (mapM_total (ParticleSystem.step_particle self force_scale) stepped
              (ParticleSystem.particles self)
              (step_particle_total self force_scale)) as (ps & Hps & HF).
  rewrite Hps. cbn [bind].
  eexists. split; [reflexivity |]. split; [| exact HF].
  unfold same_system. cbn. repeat split.
  symmetry. eapply Forall2_length; eassumption.
Qed.

Lemma same_system_trans (a b c : ParticleSystem.t) :
  same_system a b -> same_system b c -> same_system a c.
Proof.
  unfold same_system. intros (?&?&?&?&?) (?&?&?&?&?). repeat split; congruence.
Qed.

Lemma simulate_loop_total `{OpenSimplexLib} (n : nat) (self : ParticleSystem.t)
  (force_scale : R) :
  exists self',
    ParticleSystem.simulate_loop n self force_scale = ok self' /\
    same_system self self' /\
    ((0 < n)%nat \/ Forall (speed_bounded 3) (ParticleSystem.particles self) ->
     Forall (speed_bounded 3) (ParticleSystem.particles self')).
Proof.
  revert self. induction n as [|n IH]; intros self.
  - exists self. split; [reflexivity |]. split.
    + unfold same_system. repeat split.
    + intros [Hn | Hb]; [lia | exact Hb].
  - destruct (step_total self force_scale) as (s1 & Hs1 & Hsame & HF).
    destruct (IH s1) as (s2 & Hs2 & Hsame' & Hb).
    exists s2. cbn [ParticleSystem.simulate_loop]. rewrite Hs1. cbn [bind].
    split; [exact Hs2 |]. split; [eapply same_system_trans; eassumption |].
    intros _. apply Hb. right.
    eapply Forall2_right; [| exact HF]. intros a b Hab. apply Hab.
Qed.

Lemma simulate_loop_add `{OpenSimplexLib} (a b : nat) (self : ParticleSystem.t)
  (force_scale : R) :
  ParticleSystem.simulate_loop (a + b) self force_scale =
  (mid <- ParticleSystem.simulate_loop a self force_scale ;;
   ParticleSystem.simulate_loop b mid force_scale).
Proof.
  revert self. induction a as [|a IH]; intros self; [reflexivity |].
  cbn [Nat.add ParticleSystem.simulate_loop].
  destruct (ParticleSystem.step self force_scale) as [e | s1]; cbn [bind];
    [reflexivity | apply IH].
Qed.

(** ** The velocity clamp in binary64 *)

Module SpeedClamp.

Import PrimFloat.



(** C7.  The bound fails in the code.  A particle at rest that receives the
    force [(0.5, 0.75)] with [force_scale = 0.5] at each step has velocity
    [(1.5, 2.25)] after six steps, still shorter than 3.0.  The seventh step
    clamps the candidate [(1.75, 2.625)] to
    [(1.6641005886756874, 2.4961508830135313)], whose magnitude is
    3.0000000000000004: greater than the [max_speed] of 3.0. *)
Theorem velocity_exceeds_max_speed :
  let step := Binary64.ParticleSystem.update_particle Sample64.steady_force 0.5 in
  let after_six := Nat.iter 6 step Sample64.at_rest in
  let after_seven := step after_six in
  Binary64.Particle.velocity after_six = Binary64.Vector2D.mk 1.5 2.25 /\
  (Binary64.Vector2D.magnitude (Binary64.Particle.velocity after_six) <=? 3)%float
    = true /\
  Binary64.Particle.velocity after_seven =
    Binary64.Vector2D.mk 0x1.aa027f059dce1p+0 0x1.3f81df44365a9p+1 /\
  Binary64.Vector2D.magnitude (Binary64.Particle.velocity after_seven) =
    0x1.8000000000001p+1%float /\
  (3 <? Binary64.Vector2D.magnitude (Binary64.Particle.velocity after_seven))%float
    = true /\
  (Binary64.Vector2D.magnitude (Binary64.Particle.velocity after_seven) <=? 3)%float
    = false.
Proof. cbv zeta. repeat split. Qed.

End SpeedClamp.

(** ** ParticleSystem.simulate: the wrap inside a step *)

(** C8. On a canvas of positive width and height, one iteration of the loop
    body of [simulate] on a particle gets the force, updates the particle
    and then wraps it.  With [(x, y)] the position that the update produced:
    an [x] beyond [width + 10] is relocated to [-10] and an [x] below [-10]
    to [width + 10], whatever [y] is; likewise for [y] with [height],
    whatever [x] is; a coordinate inside the margin is left alone.  The wrap
    changes nothing else: the velocity is the one the update computed, the
    path is the old path with the position before the step appended (it is
    not reset), the opacity is unchanged.  A simulation step, which is
    [simulate] for one step, does this to every particle of the system. *)
Theorem step_wraps_each_axis `{OpenSimplexLib} (self : ParticleSystem.t)
  (force_scale : R) (p : Particle.t) :
  (0 < ParticleSystem.width self)%Z ->
  (0 < ParticleSystem.height self)%Z ->
  (exists force p',
     VectorFlowField.get_force (ParticleSystem.flow_field self)
       (Vector2D.x (Particle.position p)) (Vector2D.y (Particle.position p))
       = ok force /\
     ParticleSystem.step_particle self force_scale p = ok p' /\
     let moved :=
       Particle.update p
         (Vector2D.mk (Vector2D.x force * force_scale)
                      (Vector2D.y force * force_scale)) 3.0 in
     let x := Vector2D.x (Particle.position moved) in
     let y := Vector2D.y (Particle.position moved) in
     let w := IZR (ParticleSystem.width self) in
     let h := IZR (ParticleSystem.height self) in
     (x > w + 10 -> Vector2D.x (Particle.position p') = -10) /\
     (x < -10 -> Vector2D.x (Particle.position p') = w + 10) /\
     (-10 <= x <= w + 10 -> Vector2D.x (Particle.position p') = x) /\
     (y > h + 10 -> Vector2D.y (Particle.position p') = -10) /\
     (y < -10 -> Vector2D.y (Particle.position p') = h + 10) /\
     (-10 <= y <= h + 10 -> Vector2D.y (Particle.position p') = y) /\
     Particle.velocity p' = Particle.velocity moved /\
     Particle.path p' = Particle.path p ++ [Particle.position p] /\
     Particle.opacity p' = Particle.opacity p) /\
  (exists next,
     ParticleSystem.step self force_scale = ok next /\
     ParticleSystem.simulate self 1 force_scale = ok next /\
     Forall2 (fun q q' => ParticleSystem.step_particle self force_scale q = ok q')
       (ParticleSystem.particles self) (ParticleSystem.particles next)).
Proof.
  intros Hw Hh. split.
  - destruct (get_force_unfold (ParticleSystem.flow_field self)
                (Vector2D.x (Particle.position p))
                (Vector2D.y (Particle.position p))) as (v & _ & Hf).
    eexists. eexists. split; [exact Hf |].
    split; [unfold ParticleSystem.step_particle; rewrite Hf; reflexivity |].
    match goal with |- let moved := ?u in _ => set (moved := u) end.
    destruct (wrap_axes self moved Hw Hh)
      as (_ & _ & _ & _ & _ & _ & Hxg & Hxl & Hxi & Hyg & Hyl & Hyi & Hv & Hp & Ho).
    cbv zeta in *.
    repeat split; assumption.
  - destruct (mapM_total (ParticleSystem.step_particle self force_scale)
                (fun q q' => ParticleSystem.step_particle self force_scale q = ok q')
                (ParticleSystem.particles self)) as (ps & Hps & HF).
    { intros q. destruct (step_particle_total self force_scale q) as (q' & Hq & _).
      exists q'. split; exact Hq. }
    exists (ParticleSystem.set_particles self ps).
    assert (Hstep : ParticleSystem.step self force_scale =
                    ok (ParticleSystem.set_particles self ps))
      by (unfold ParticleSystem.step; rewrite Hps; reflexivity).
    split; [exact Hstep |]. split; [| exact HF].
    unfold ParticleSystem.simulate.
    change (Z.to_nat 1) with 1%nat. cbn [ParticleSystem.simulate_loop].
    rewrite Hstep. reflexivity.
Qed.

(** ** ParticleSystem.__init__ *)

Lemma place_particle_total `{Numpy} (self : ParticleSystem.t) (i : Z)
  (ps : list Particle.t) (g : RandomState) :
  ParticleSystem.num_particles self <> 0%Z ->
  exists p g',
    ParticleSystem.place_particle self i ps g = (ok (ps ++ [p]), g') /\ fresh p.
Proof.
  intros Hn. unfold ParticleSystem.place_particle, np_bind, np_lift, py_truediv.
  destruct (Req_dec_T (IZR (ParticleSystem.num_particles self)) 0) as [E | _].
  - apply eq_IZR_R0 in E. contradiction.
  - unfold np_uniform.
    destruct (random_uniform (-5) 5 g) as [jx g1].
    destruct (random_uniform (-5) 5 g1) as [jy g2].
    unfold np_ret. eexists. exists g2. split; [reflexivity |].
    split; reflexivity.
Qed.

Lemma place_particles_total `{Numpy} (self : ParticleSystem.t) (idx : list Z) :
  ParticleSystem.num_particles self <> 0%Z ->
  forall (ps : list Particle.t) (g : RandomState),
  exists ps' g',
    np_for idx (ParticleSystem.place_particle self) ps g = (ok (ps ++ ps'), g') /\
    length ps' = length idx /\ Forall fresh ps'.
Proof.
  intros Hn. induction idx as [|i idx IH]; intros ps g.
  - exists [], g. cbn [np_for]. unfold np_ret. rewrite app_nil_r.
    repeat split. constructor.
  - destruct (place_particle_total self i ps g Hn) as (p & g1 & Hp & Hfresh).
    destruct (IH (ps ++ [p]) g1) as (ps' & g2 & Hps & Hlen & HF).
    exists (p :: ps'), g2. cbn [np_for]. unfold np_bind at 1. rewrite Hp.
    cbv beta iota delta [ok]. fold (@ok (list Particle.t)).
    rewrite Hps, <- app_assoc. split; [reflexivity |].
    split; [simpl; lia | now constructor].
Qed.

Lemma range_length (n : Z) : length (range n) = Z.to_nat n.
Proof. unfold range. now rewrite length_map, length_seq. Qed.

Lemma initialize_particles_total `{Numpy} (self : ParticleSystem.t)
  (g : RandomState) :
  exists ps' g',
    ParticleSystem._initialize_particles self g =
      (ok (ParticleSystem.set_particles self
             (ParticleSystem.particles self ++ ps')), g') /\
    length ps' = Z.to_nat (ParticleSystem.num_particles self) /\
    Forall fresh ps' /\
    ((ParticleSystem.num_particles self <= 0)%Z -> g' = g).
Proof.
  unfold ParticleSystem._initialize_particles.
  destruct (Z_le_gt_dec (ParticleSystem.num_particles self) 0) as [Hle | Hgt].
  - exists [], g. unfold range.
    replace (Z.to_nat (ParticleSystem.num_particles self)) with 0%nat by lia.
    cbn [seq map np_for]. unfold np_bind, np_ret. rewrite app_nil_r.
    repeat split. constructor.
  - assert (Hn : ParticleSystem.num_particles self <> 0%Z) by lia.
    destruct (place_particles_total self (range (ParticleSystem.num_particles self))
                Hn (ParticleSystem.particles self) g)
      as (ps' & g' & Hps & Hlen & HF).
    exists ps', g'. unfold np_bind. rewrite Hps. unfold np_ret.
    rewrite range_length in Hlen.
    repeat split; try assumption. lia.
Qed.

Lemma init_total `{Numpy} (flow_field : VectorFlowField.t) (num_particles : Z)
  (particle_density : R) (g : RandomState) :
  exists sys g',
    ParticleSystem.init flow_field num_particles particle_density g = (ok sys, g') /\
    ParticleSystem.flow_field sys = flow_field /\
    ParticleSystem.num_particles sys = py_int (IZR num_particles * particle_density) /\
    length (ParticleSystem.particles sys) =
      Z.to_nat (py_int (IZR num_particles * particle_density)) /\
    Forall fresh (ParticleSystem.particles sys) /\
    ((py_int (IZR num_particles * particle_density) <= 0)%Z -> g' = g).
Proof.
  unfold ParticleSystem.init.
  match goal with |- context [ParticleSystem._initialize_particles ?s] =>
    destruct (initialize_particles_total s g) as (ps' & g' & Hinit & Hlen & HF & Hg)
  end.
  eexists. exists g'. split; [exact Hinit |].
  cbn in *. repeat split; assumption.
Qed.

Lemma simulate_total `{OpenSimplexLib} (self : ParticleSystem.t) (steps : Z)
  (force_scale : R) :
  exists self',
    ParticleSystem.simulate self steps force_scale = ok self' /\
    same_system self self'.
Proof.
  unfold ParticleSystem.simulate.
  destruct (simulate_loop_total (Z.to_nat steps) self force_scale)
    as (s & Hs & Hsame & _).
  exists s. now split.
Qed.

(** ** AuraGenerator.generate: particle counts *)



(** ** ParticleSystem with no particles *)

(** C10. When the computed particle count is zero, constructing the
    [ParticleSystem] succeeds with an empty particle list and without
    drawing a random number (the placement loop body, with its division by
    the count, never runs); after any number of [simulate] steps the system
    is still empty and [get_paths_with_opacity] returns the empty list. *)
Theorem empty_system_is_valid `{OpenSimplexLib} `{Numpy}
  (flow_field : VectorFlowField.t) (num_particles : Z) (particle_density : R)
  (g : RandomState) :
  py_int (IZR num_particles * particle_density) = 0%Z ->
  exists sys,
    ParticleSystem.init flow_field num_particles particle_density g = (ok sys, g) /\
    ParticleSystem.num_particles sys = 0%Z /\
    ParticleSystem.particles sys = [] /\
    ParticleSystem.get_paths_with_opacity sys = [] /\
    forall (steps : Z) (force_scale : R),
    exists sys',
      ParticleSystem.simulate sys steps force_scale = ok sys' /\
      ParticleSystem.particles sys' = [] /\
      ParticleSystem.get_paths_with_opacity sys' = [].
Proof.
  intros Hzero.
  destruct (init_total flow_field num_particles particle_density g)
    as (sys & g' & Hinit & _ & Hnum & Hlen & _ & Hg).
  rewrite Hzero in *. rewrite Hg in Hinit by lia.
  assert (Hnil : ParticleSystem.particles sys = [])
    by (apply length_zero_iff_nil; exact Hlen).
  exists sys. repeat split; try assumption.
  - unfold ParticleSystem.get_paths_with_opacity. now rewrite Hnil.
  - intros steps force_scale.
    destruct (simulate_total sys steps force_scale) as (sys' & Hsim & Hsame).
    destruct Hsame as (_ & _ & _ & _ & Hl').
    rewrite Hnil in Hl'. apply length_zero_iff_nil in Hl'.
    exists sys'. repeat split; try assumption.
    unfold ParticleSystem.get_paths_with_opacity. now rewrite Hl'.
Qed.

(** ** AuraGenerator.generate: errors and determinism *)

Lemma generate_total `{OpenSimplexLib} `{Numpy} (self : AuraGenerator.t)
  (density chaos_factor : R) (simulation_steps : Z) (g : RandomState) :
  exists paths g',
    AuraGenerator.generate self density chaos_factor simulation_steps g
      = (ok paths, g').
Proof.
  unfold AuraGenerator.generate.
  match goal with |- context [ParticleSystem.init ?ff ?n ?d] =>
    destruct (init_total ff n d g) as (sys & g' & Hinit & _)
  end.
  destruct (simulate_total sys simulation_steps
              (AuraGenerator.force_scale chaos_factor)) as (sys' & Hsim & _).
  exists (ParticleSystem.get_paths_with_opacity sys'), g'.
  unfold np_bind at 1. rewrite Hinit. cbv beta iota delta [ok].
  unfold np_bind, np_lift. fold (@ok ParticleSystem.t) in Hsim. rewrite Hsim.
  reflexivity.
Qed.

Lemma run_reseeds `{OpenSimplexLib} `{Numpy} (width height seed : Z)
  (density chaos_factor : R) (simulation_steps : Z) (g : RandomState) :
  AuraGenerator.run width height seed density chaos_factor simulation_steps g =
  AuraGenerator.generate (AuraGenerator.mk width height seed) density
    chaos_factor simulation_steps (random_seed (seed mod 2 ^ 31)%Z).
Proof. reflexivity. Qed.



(** C1. Two independent runs of [generate] with the same width, height,
    seed, density, chaos_factor and simulation_steps, each constructing its
    own [AuraGenerator], return the same list of (path, opacity) pairs,
    whatever state numpy's global generator was in before each run. *)
Theorem generate_deterministic `{OpenSimplexLib} `{Numpy} (width height seed : Z)
  (density chaos_factor : R) (simulation_steps : Z) (g1 g2 : RandomState) :
  exists paths g',
    AuraGenerator.run width height seed density chaos_factor simulation_steps g1
      = (ok paths, g') /\
    AuraGenerator.run width height seed density chaos_factor simulation_steps g2
      = (ok paths, g').
Proof.
  destruct (generate_total (AuraGenerator.mk width height seed) density
              chaos_factor simulation_steps (random_seed (seed mod 2 ^ 31)%Z))
    as (paths & g' & Hgen).
  exists paths, g'. rewrite !run_reseeds. now split.
Qed.

(** * The theorems at concrete inputs *)

Lemma trig_noise_range :
  forall seed u v, -1 <= @noise2 Sample.trig_noise seed u v <= 1.
Proof.
  intros seed u v. cbn [noise2 Sample.trig_noise].
  pose proof (COS_bound (u + IZR seed)) as Hc.
  pose proof (SIN_bound v) as Hs. nra.
Qed.

(** Determinism for seed 42 on the 800 x 800 canvas, from two different
    states of the global generator. *)
Lemma generate_deterministic_witness :
  exists paths g',
    @AuraGenerator.run Sample.trig_noise Sample.lcg 800 800 42 0.5 0.2 150 7%Z
      = (ok paths, g') /\
    @AuraGenerator.run Sample.trig_noise Sample.lcg 800 800 42 0.5 0.2 150 99%Z
      = (ok paths, g').
Proof.
  exact (@generate_deterministic Sample.trig_noise Sample.lcg
           800 800 42 0.5 0.2 150 7%Z 99%Z).
Defined.



(** The centre of the 800 x 800 canvas. *)
Lemma radial_factor_range_witness :
  (0 < 800)%Z /\ 0 <= 400 <= 800 /\
  0.5 <= VectorFlowField.radial_factor Sample.canvas 400 400 <= 1.
Proof.
  assert (Hw : (0 < VectorFlowField.width Sample.canvas)%Z) by (simpl; lia).
  assert (Hh : (0 < VectorFlowField.height Sample.canvas)%Z) by (simpl; lia).
  destruct (@radial_factor_range Sample.trig_noise Sample.canvas 400 400 Hw Hh)
    as (_ & _ & Hin & _).
  split; [lia |]. split; [lra |].
  apply Hin; cbn [VectorFlowField.width VectorFlowField.height Sample.canvas
                  VectorFlowField.init]; lra.
Defined.

(** Four octaves with persistence 0.5 over the bounded sample field. *)
Lemma fractal_noise_bounded_witness :
  (1 <= 4)%Z /\ 0 < 0.5 /\
  exists value,
    @NoiseGenerator.fractal_noise Sample.trig_noise (NoiseGenerator.init 42)
      1 2 4 0.5 0.01 = ok value /\
    -1 <= value <= 1.
Proof.
  assert (Ho : (1 <= 4)%Z) by lia.
  assert (Hp : 0 < 0.5) by lra.
  destruct (@fractal_noise_bounded Sample.trig_noise (NoiseGenerator.init 42)
              1 2 4 0.5 0.01 trig_noise_range Ho Hp)
    as (st & value & _ & Hv & Hr & _).
  split; [exact Ho |]. split; [exact Hp |].
  exists value. split; [exact Hv | exact Hr].
Defined.

Module SpeedClampWitnesses.

Import PrimFloat.


End SpeedClampWitnesses.

(** The particle at rest at x = 900 on the 800 x 800 canvas: whatever the
    force, one step leaves it beyond [width + 10] and wraps it to the left
    edge. *)
Lemma step_wraps_each_axis_witness :
  (0 < 800)%Z /\
  exists p',
    @ParticleSystem.step_particle Sample.trig_noise (Sample.system [Sample.stray])
      0.38 Sample.stray = ok p' /\
    Vector2D.x (Particle.position p') = -10 /\
    Particle.path p' = [Vector2D.mk 900 400].
Proof.
  assert (Hw : (0 < ParticleSystem.width (Sample.system [Sample.stray]))%Z)
    by (simpl; lia).
  assert (Hh : (0 < ParticleSystem.height (Sample.system [Sample.stray]))%Z)
    by (simpl; lia).
  destruct (@step_wraps_each_axis Sample.trig_noise (Sample.system [Sample.stray])
              0.38 Sample.stray Hw Hh)
    as ((force & p' & _ & Hstep & Hgt & _ & _ & _ & _ & _ & _ & Hpath & _) & _).
  split; [lia |]. exists p'. split; [exact Hstep |]. split; [| exact Hpath].
  apply Hgt.
  match goal with |- Vector2D.x (Particle.position ?u) > _ => set (moved := u) end.
  assert (Hb : speed_bounded 3.0 moved) by (apply update_speed_bounded; lra).
  pose proof (abs_x_le_magnitude (Particle.velocity moved)) as Hx.
  unfold speed_bounded in Hb.
  assert (Hpos : Vector2D.x (Particle.position moved) =
                 900 + Vector2D.x (Particle.velocity moved)) by reflexivity.
  rewrite Hpos. cbn [ParticleSystem.width Sample.system].
  assert (Habs : Rabs (Vector2D.x (Particle.velocity moved)) < 4) by lra.
  apply Rabs_def2 in Habs. lra.
Defined.

(** The sample canvas has chaos 0.2, below the gate: no turbulence term. *)
Lemma get_force_turbulence_gate_witness :
  0.2 <= 0.3 /\
  exists noise_val,
    @NoiseGenerator.fractal_noise Sample.trig_noise
      (VectorFlowField.noise_gen Sample.canvas) 100 200 3 0.6
      (VectorFlowField.noise_scale Sample.canvas) = ok noise_val /\
    @VectorFlowField.get_force Sample.trig_noise Sample.canvas 100 200 =
      ok (Vector2D.mk
            (cos (noise_val * PI * 2) *
             VectorFlowField.radial_factor Sample.canvas 100 200)
            (sin (noise_val * PI * 2) *
             VectorFlowField.radial_factor Sample.canvas 100 200)).
Proof.
  assert (Hc : 0.2 <= 0.3) by lra.
  destruct (@get_force_turbulence_gate Sample.trig_noise Sample.canvas 100 200)
    as (noise_val & angle & Hn & Hf & _ & Hlow).
  split; [exact Hc |]. exists noise_val. split; [exact Hn |].
  rewrite <- (Hlow Hc). exact Hf.
Defined.

(** Fifty base particles with multiplier 0: an empty system. *)
Lemma empty_system_is_valid_witness :
  py_int (IZR 50 * 0) = 0%Z /\
  exists sys,
    @ParticleSystem.init Sample.lcg Sample.canvas 50 0 0%Z = (ok sys, 0%Z) /\
    ParticleSystem.get_paths_with_opacity sys = [].
Proof.
  assert (Hz : py_int (IZR 50 * 0) = 0%Z).
  { rewrite py_int_nonneg by lra. apply Zfloor_eq. lra. }
  destruct (@empty_system_is_valid Sample.trig_noise Sample.lcg Sample.canvas
              50 0 0%Z Hz) as (sys & Hinit & _ & _ & Hpaths & _).
  split; [exact Hz |]. exists sys. split; [exact Hinit | exact Hpaths].
Defined.

(** * Further properties of the engine *)

(** ** ParticleSystem.simulate: the recorded paths *)

Lemma Forall2_compose {A : Type} (P Q S : A -> A -> Prop) (xs ys zs : list A) :
  (forall a b c, P a b -> Q b c -> S a c) ->
  Forall2 P xs ys -> Forall2 Q ys zs -> Forall2 S xs zs.
Proof.
  intros HPQ HP. revert zs. induction HP as [|a b xs ys Hab HP IH]; intros zs HQ.
  - inversion HQ. constructor.
  - inversion HQ as [|b' c ys' zs' Hbc HQ']; subst.
    constructor; [eapply HPQ; eassumption | now apply IH].
Qed.

Lemma Forall2_same {A : Type} (P : A -> A -> Prop) (xs : list A) :
  (forall a, P a a) -> Forall2 P xs xs.
Proof. intros HP. induction xs; constructor; auto. Qed.

Lemma grown_zero (p : Particle.t) : grown 0 p p.
Proof.
  split; [reflexivity |]. exists []. rewrite app_nil_r.
  repeat split. intros Hc. contradiction.
Qed.

Lemma grown_step (n : nat) (p q r : Particle.t) :
  stepped p q -> grown n q r -> grown (S n) p r.
Proof.
  intros (_ & Hpath & Hop) (Hop' & tail & Htail & Hlen & _).
  split; [congruence |].
  exists (Particle.position p :: tail).
  rewrite Htail, Hpath, <- app_assoc. repeat split.
  simpl. now rewrite Hlen.
Qed.

Lemma simulate_loop_grown `{OpenSimplexLib} (n : nat) (self : ParticleSystem.t)
  (force_scale : R) :
  exists self',
    ParticleSystem.simulate_loop n self force_scale = ok self' /\
    same_system self self' /\
    Forall2 (grown n) (ParticleSystem.particles self)
                      (ParticleSystem.particles self').
Proof.
  revert self. induction n as [|n IH]; intros self.
  - exists self. split; [reflexivity |]. split.
    + unfold same_system. repeat split.
    + apply Forall2_same. apply grown_zero.
  - destruct (step_total self force_scale) as (s1 & Hs1 & Hsame & HF).
    destruct (IH s1) as (s2 & Hs2 & Hsame' & HG).
    exists s2. cbn [ParticleSystem.simulate_loop]. rewrite Hs1. cbn [bind].
    split; [exact Hs2 |]. split; [eapply same_system_trans; eassumption |].
    eapply Forall2_compose; [| exact HF | exact HG].
    intros a b c. apply grown_step.
Qed.

(** X3. [simulate] for [steps] steps never raises and keeps the particles
    in their order; each particle keeps its opacity, and its path is the old
    path followed by exactly [steps] new entries (none for [steps <= 0]), the
    first of which is the position the particle started the run at.  Paths
    are append-only: the old path is a prefix of the new one. *)
Theorem simulate_paths_grow `{OpenSimplexLib} (self : ParticleSystem.t)
  (steps : Z) (force_scale : R) :
  exists self',
    ParticleSystem.simulate self steps force_scale = ok self' /\
    Forall2 (grown (Z.to_nat steps)) (ParticleSystem.particles self)
                                     (ParticleSystem.particles self') /\
    Forall2 (fun p p' =>
               length (Particle.path p') =
                 (length (Particle.path p) + Z.to_nat steps)%nat /\
               firstn (length (Particle.path p)) (Particle.path p') =
                 Particle.path p)
            (ParticleSystem.particles self) (ParticleSystem.particles self').
Proof.
  unfold ParticleSystem.simulate.
  destruct (simulate_loop_grown (Z.to_nat steps) self force_scale)
    as (s & Hs & _ & HG).
  exists s. split; [exact Hs |]. split; [exact HG |].
  eapply Forall2_impl; [| exact HG].
  intros p p' (_ & tail & Htail & Hlen & _). rewrite Htail. split.
  - rewrite length_app. lia.
  - rewrite firstn_app, Nat.sub_diag, firstn_all. simpl. apply app_nil_r.
Qed.

(** ** ParticleSystem._initialize_particles: the spiral *)

Lemma place_particle_layout `{Numpy} (self : ParticleSystem.t) (i : Z)
  (ps : list Particle.t) (g : RandomState) :
  ParticleSystem.num_particles self <> 0%Z ->
  exists p g',
    ParticleSystem.place_particle self i ps g = (ok (ps ++ [p]), g') /\
    placed_with self i
      (fst (random_uniform (-5) 5 g))
      (fst (random_uniform (-5) 5 (snd (random_uniform (-5) 5 g)))) p.
Proof.
  intros Hn. unfold ParticleSystem.place_particle, np_bind, np_lift, py_truediv.
  destruct (Req_dec_T (IZR (ParticleSystem.num_particles self)) 0) as [E | _].
  - apply eq_IZR_R0 in E. contradiction.
  - unfold np_uniform.
    destruct (random_uniform (-5) 5 g) as [jx g1]. cbn [fst snd].
    destruct (random_uniform (-5) 5 g1) as [jy g2]. cbn [fst snd].
    unfold np_ret. eexists. exists g2. split; reflexivity.
Qed.

Lemma place_particles_layout `{Numpy} (J : R -> Prop) (self : ParticleSystem.t)
  (idx : list Z) :
  (forall g, J (fst (random_uniform (-5) 5 g))) ->
  ParticleSystem.num_particles self <> 0%Z ->
  forall (ps : list Particle.t) (g : RandomState),
  exists ps' g',
    np_for idx (ParticleSystem.place_particle self) ps g = (ok (ps ++ ps'), g') /\
    Forall2 (placed J self) idx ps'.
Proof.
  intros HJ Hn. induction idx as [|i idx IH]; intros ps g.
  - exists [], g. cbn [np_for]. unfold np_ret. rewrite app_nil_r.
    split; [reflexivity | constructor].
  - destruct (place_particle_layout self i ps g Hn) as (p & g1 & Hp & Hplaced).
    destruct (IH (ps ++ [p]) g1) as (ps' & g2 & Hps & HF).
    exists (p :: ps'), g2. cbn [np_for]. unfold np_bind at 1. rewrite Hp.
    cbv beta iota delta [ok]. fold (@ok (list Particle.t)).
    rewrite Hps, <- app_assoc. split; [reflexivity |].
    constructor; [| exact HF].
    eexists. eexists. split; [apply HJ |]. split; [apply HJ | exact Hplaced].
Qed.

Lemma range_bounds (n : Z) : Forall (fun i => (0 <= i < n)%Z) (range n).
Proof.
  unfold range. apply Forall_forall. intros i Hi.
  apply in_map_iff in Hi. destruct Hi as (k & Hk & Hin).
  apply in_seq in Hin. lia.
Qed.

Lemma Forall2_with_left {A B : Type} (Q : A -> Prop) (P : A -> B -> Prop)
  (xs : list A) (ys : list B) :
  Forall Q xs -> Forall2 P xs ys -> Forall2 (fun a b => Q a /\ P a b) xs ys.
Proof.
  intros HQ HP. induction HP; inversion HQ; subst; constructor; auto.
Qed.

Lemma init_layout `{Numpy} (J : R -> Prop) (flow_field : VectorFlowField.t)
  (num_particles : Z) (particle_density : R) (g : RandomState) :
  (forall g, J (fst (random_uniform (-5) 5 g))) ->
  exists sys g',
    ParticleSystem.init flow_field num_particles particle_density g = (ok sys, g') /\
    ParticleSystem.flow_field sys = flow_field /\
    ParticleSystem.num_particles sys = py_int (IZR num_particles * particle_density) /\
    ParticleSystem.width sys = VectorFlowField.width flow_field /\
    ParticleSystem.height sys = VectorFlowField.height flow_field /\
    Forall2 (fun i p => (0 <= i < ParticleSystem.num_particles sys)%Z /\
                        placed J sys i p)
            (range (ParticleSystem.num_particles sys))
            (ParticleSystem.particles sys).
Proof.
  intros HJ. unfold ParticleSystem.init, ParticleSystem._initialize_particles.
  set (n := py_int (IZR num_particles * particle_density)).
  set (self := ParticleSystem.mk flow_field n [] _ _).
  cbn [ParticleSystem.num_particles ParticleSystem.particles self].
  destruct (Z_le_gt_dec n 0) as [Hle | Hgt].
  - assert (Hr : range n = []).
    { unfold range. replace (Z.to_nat n) with 0%nat by lia. reflexivity. }
    exists (ParticleSystem.set_particles self []), g. rewrite Hr.
    cbn [np_for]. unfold np_bind, np_ret.
    split; [reflexivity |].
    cbn [ParticleSystem.set_particles ParticleSystem.flow_field
         ParticleSystem.num_particles ParticleSystem.particles
         ParticleSystem.width ParticleSystem.height self].
    rewrite Hr. repeat split. constructor.
  - assert (Hn : ParticleSystem.num_particles self <> 0%Z) by (cbn; lia).
    destruct (place_particles_layout J self (range n) HJ Hn [] g)
      as (ps' & g' & Hps & HF).
    exists (ParticleSystem.set_particles self ps'), g'.
    unfold np_bind. rewrite Hps. unfold np_ret. cbn [app].
    split; [reflexivity |].
    cbn [ParticleSystem.set_particles ParticleSystem.flow_field
         ParticleSystem.num_particles ParticleSystem.particles
         ParticleSystem.width ParticleSystem.height self].
    repeat split.
    apply Forall2_with_left; [apply range_bounds | exact HF].
Qed.

Lemma spiral_radius_bounds (self : ParticleSystem.t) (i : Z) :
  (0 < ParticleSystem.width self)%Z ->
  (0 < ParticleSystem.height self)%Z ->
  (0 <= i < ParticleSystem.num_particles self)%Z ->
  let m := IZR (Z.min (ParticleSystem.width self) (ParticleSystem.height self)) in
  0 <= sqrt (IZR i / IZR (ParticleSystem.num_particles self)) < 1 /\
  0 < m /\ m <= IZR (ParticleSystem.width self) /\
  m <= IZR (ParticleSystem.height self) /\
  0 <= spiral_radius self i < m * 0.35 /\
  spiral_radius self i / (m * 0.35) =
    sqrt (IZR i / IZR (ParticleSystem.num_particles self)).
Proof.
  intros Hw Hh [Hi Hin] m.
  assert (Hm : 0 < m) by (apply IZR_lt; lia).
  assert (Hmw : m <= IZR (ParticleSystem.width self)) by (apply IZR_le; lia).
  assert (Hmh : m <= IZR (ParticleSystem.height self)) by (apply IZR_le; lia).
  apply IZR_le in Hi. apply IZR_lt in Hin.
  set (n := IZR (ParticleSystem.num_particles self)) in *.
  assert (Hq : 0 <= IZR i / n < 1).
  { split.
    - apply Rle_mult_inv_pos; lra.
    - apply Rmult_lt_reg_r with n; [lra |].
      unfold Rdiv. rewrite Rmult_assoc, Rinv_l by lra. lra. }
  assert (Hs : 0 <= sqrt (IZR i / n) < 1).
  { split; [apply sqrt_pos |].
    rewrite <- sqrt_1. apply sqrt_lt_1; lra. }
  split; [exact Hs |]. split; [exact Hm |]. split; [exact Hmw |].
  split; [exact Hmh |].
  unfold spiral_radius. fold n m. split; [nra |]. field. lra.
Qed.

(** X4. With [np.random.uniform] returning samples between its bounds, on a
    canvas of positive width and height the constructor places particle [i]
    of [n] at rest, with an empty path, with opacity
    [0.3 + 0.7 * (1 - sqrt (i / n))], which lies in (0.3, 1], and at a
    position within [0.35 * min(width, height) + 5] of the centre on each
    axis, hence inside the wrap margin of the canvas. *)
Theorem initial_particles_layout `{Numpy} (flow_field : VectorFlowField.t)
  (num_particles : Z) (particle_density : R) (g : RandomState) :
  uniform_in_range ->
  (0 < VectorFlowField.width flow_field)%Z ->
  (0 < VectorFlowField.height flow_field)%Z ->
  let n := py_int (IZR num_particles * particle_density) in
  let w := IZR (VectorFlowField.width flow_field) in
  let h := IZR (VectorFlowField.height flow_field) in
  let reach :=
    0.35 * IZR (Z.min (VectorFlowField.width flow_field)
                      (VectorFlowField.height flow_field)) + 5 in
  exists sys g',
    ParticleSystem.init flow_field num_particles particle_density g = (ok sys, g') /\
    Forall2
      (fun i p =>
         fresh p /\
         Particle.opacity p = 0.3 + 0.7 * (1 - sqrt (IZR i / IZR n)) /\
         0.3 < Particle.opacity p <= 1 /\
         Rabs (Vector2D.x (Particle.position p) - w / 2) <= reach /\
         Rabs (Vector2D.y (Particle.position p) - h / 2) <= reach /\
         -10 <= Vector2D.x (Particle.position p) <= w + 10 /\
         -10 <= Vector2D.y (Particle.position p) <= h + 10)
      (range n) (ParticleSystem.particles sys).
Proof.
  intros Huni Hw Hh n w h reach.
  assert (HJ : forall g0, (fun j => -5 <= j <= 5) (fst (random_uniform (-5) 5 g0)))
    by (intros g0; apply Huni; lra).
  destruct (init_layout (fun j => -5 <= j <= 5) flow_field num_particles
              particle_density g HJ)
    as (sys & g' & Hinit & _ & Hnum & Hsw & Hsh & HF).
  exists sys, g'. split; [exact Hinit |].
  fold n in Hnum. rewrite Hnum in HF.
  eapply Forall2_impl; [| exact HF].
  intros i p (Hi & jx & jy & Hjx & Hjy & Hp).
  rewrite <- Hsw in Hw. rewrite <- Hsh in Hh. rewrite <- Hnum in Hi.
  destruct (spiral_radius_bounds sys i Hw Hh Hi)
    as (Hsq & Hm & Hmw & Hmh & Hr & Hratio).
  unfold placed_with in Hp. rewrite Hnum, Hsw, Hsh in *.
  fold w h in Hp, Hmw, Hmh.
  set (m := IZR (Z.min (VectorFlowField.width flow_field)
                       (VectorFlowField.height flow_field))) in *.
  set (r := spiral_radius sys i) in *.
  set (theta := IZR i * ParticleSystem.golden_angle) in *.
  pose proof (COS_bound theta) as Hc. pose proof (SIN_bound theta) as Hs.
  assert (Hrc : - r <= r * cos theta <= r) by nra.
  assert (Hrs : - r <= r * sin theta <= r) by nra.
  subst p. unfold fresh, Particle.init, reach.
  cbn [Particle.velocity Particle.path Particle.opacity Particle.position
       Vector2D.x Vector2D.y].
  rewrite Hratio.
  repeat split; try lra.
  - apply Rabs_le. lra.
  - apply Rabs_le. lra.
Qed.

(** ** AuraGenerator.generate: the shape of the output *)

Lemma placed_opacity (J : R -> Prop) (self : ParticleSystem.t) (i : Z)
  (p : Particle.t) :
  (0 < ParticleSystem.width self)%Z ->
  (0 < ParticleSystem.height self)%Z ->
  (0 <= i < ParticleSystem.num_particles self)%Z ->
  placed J self i p ->
  fresh p /\
  Particle.opacity p =
    0.3 + 0.7 * (1 - sqrt (IZR i / IZR (ParticleSystem.num_particles self))) /\
  0.3 < Particle.opacity p <= 1.
Proof.
  intros Hw Hh Hi (jx & jy & _ & _ & Hp).
  destruct (spiral_radius_bounds self i Hw Hh Hi) as (Hsq & _ & _ & _ & _ & Hratio).
  unfold placed_with in Hp. subst p. unfold fresh, Particle.init.
  cbn [Particle.velocity Particle.path Particle.opacity].
  rewrite Hratio. repeat split; lra.
Qed.

Lemma filter_keeps_all {A : Type} (f : A -> bool) (xs : list A) :
  Forall (fun a => f a = true) xs -> filter f xs = xs.
Proof.
  induction 1 as [|a xs Ha _ IH]; simpl; [reflexivity |].
  now rewrite Ha, IH.
Qed.

Lemma filter_keeps_none {A : Type} (f : A -> bool) (xs : list A) :
  Forall (fun a => f a = false) xs -> filter f xs = [].
Proof.
  induction 1 as [|a xs Ha _ IH]; simpl; [reflexivity |].
  now rewrite Ha.
Qed.

Lemma Forall2_right_all {A B : Type} (P : A -> B -> Prop) (Q : B -> Prop)
  (xs : list A) (ys : list B) :
  (forall a b, P a b -> Q b) -> Forall2 P xs ys -> Forall Q ys.
Proof. intros HPQ HF. induction HF; constructor; eauto. Qed.

Lemma Forall2_map_right {A B C : Type} (P : A -> C -> Prop) (f : B -> C)
  (xs : list A) (ys : list B) :
  Forall2 (fun a b => P a (f b)) xs ys -> Forall2 P xs (map f ys).
Proof. induction 1; simpl; constructor; auto. Qed.

(** What [get_paths_with_opacity] returns for particles that started fresh
    and were simulated for [n] steps. *)
Lemma paths_of_grown (n : nat) (ps : list Particle.t)
  (sys' : ParticleSystem.t) :
  Forall2 (fun p p' => fresh p /\ grown n p p') ps (ParticleSystem.particles sys') ->
  ((2 < n)%nat ->
     Forall2 (fun p po => length (fst po) = n /\ snd po = Particle.opacity p)
             ps (ParticleSystem.get_paths_with_opacity sys')) /\
  ((n <= 2)%nat -> ParticleSystem.get_paths_with_opacity sys' = []).
Proof.
  intros HF. unfold ParticleSystem.get_paths_with_opacity.
  assert (Hlen : Forall (fun p' => length (Particle.path p') = n)
                        (ParticleSystem.particles sys')).
  { eapply Forall2_right_all; [| exact HF].
    intros p p' ((_ & Hpath) & _ & tail & Htail & Hl & _).
    rewrite Htail, Hpath. exact Hl. }
  split; intros Hn.
  - rewrite filter_keeps_all.
    + apply Forall2_map_right. eapply Forall2_impl; [| exact HF].
      intros p p' ((_ & Hpath) & Hop & tail & Htail & Hl & _).
      cbn [fst snd]. rewrite length_map, Htail, Hpath. split; [exact Hl | exact Hop].
    + eapply Forall_impl; [| exact Hlen].
      intros p' Hp'. cbv beta. rewrite Hp'. apply Nat.ltb_lt. exact Hn.
  - rewrite filter_keeps_none; [reflexivity |].
    eapply Forall_impl; [| exact Hlen].
    intros p' Hp'. cbv beta. rewrite Hp'. apply Nat.ltb_ge. exact Hn.
Qed.

Lemma Forall2_conj {A B : Type} (P Q : A -> B -> Prop) (xs : list A)
  (ys : list B) :
  Forall2 P xs ys -> Forall2 Q xs ys -> Forall2 (fun a b => P a b /\ Q a b) xs ys.
Proof.
  intros HP. induction HP; intros HQ; inversion HQ; subst; constructor; auto.
Qed.

Lemma Forall2_left_only {A B : Type} (P : A -> Prop) (xs : list A)
  (ys : list B) :
  length xs = length ys -> Forall P xs -> Forall2 (fun a _ => P a) xs ys.
Proof.
  revert ys. induction xs as [|a xs IH]; intros [|b ys] Hlen HP;
    try discriminate; constructor; inversion HP; subst; auto.
Qed.

Lemma Forall2_chain {A B C : Type} (P : A -> B -> Prop) (Q : B -> C -> Prop)
  (S : A -> C -> Prop) (xs : list A) (ys : list B) (zs : list C) :
  (forall a b c, P a b -> Q b c -> S a c) ->
  Forall2 P xs ys -> Forall2 Q ys zs -> Forall2 S xs zs.
Proof.
  intros HPQ HP. revert zs. induction HP as [|a b xs ys Hab HP IH]; intros zs HQ.
  - inversion HQ. constructor.
  - inversion HQ as [|b' c ys' zs' Hbc HQ']; subst.
    constructor; [eapply HPQ; eassumption | now apply IH].
Qed.

Lemma generate_unfold `{OpenSimplexLib} `{Numpy} (self : AuraGenerator.t)
  (density chaos_factor : R) (simulation_steps : Z) (g g' : RandomState)
  (sys : ParticleSystem.t) :
  ParticleSystem.init
    (VectorFlowField.init (AuraGenerator.width self) (AuraGenerator.height self)
       (AuraGenerator.seed self) chaos_factor
       (AuraGenerator.noise_scale chaos_factor))
    (AuraGenerator.base_particles density)
    (AuraGenerator.particle_density density) g = (ok sys, g') ->
  exists sys',
    ParticleSystem.simulate sys simulation_steps
      (AuraGenerator.force_scale chaos_factor) = ok sys' /\
    Forall2 (grown (Z.to_nat simulation_steps))
            (ParticleSystem.particles sys) (ParticleSystem.particles sys') /\
    AuraGenerator.generate self density chaos_factor simulation_steps g =
      (ok (ParticleSystem.get_paths_with_opacity sys'), g').
Proof.
  intros Hinit.
  destruct (simulate_paths_grow sys simulation_steps
              (AuraGenerator.force_scale chaos_factor)) as (sys' & Hsim & HG & _).
  exists sys'. split; [exact Hsim |]. split; [exact HG |].
  unfold AuraGenerator.generate.
  unfold np_bind at 1. rewrite Hinit. cbv beta iota delta [ok].
  unfold np_bind, np_lift. fold (@ok ParticleSystem.t) in Hsim. rewrite Hsim.
  reflexivity.
Qed.

Lemma run_shape `{OpenSimplexLib} `{Numpy} (width height seed : Z)
  (density chaos_factor : R) (simulation_steps : Z) (g : RandomState) :
  (0 < width)%Z -> (0 < height)%Z -> 0 <= density <= 1 ->
  let n := Zfloor (IZR (AuraGenerator.base_particles density) *
                   (0.8 + density * 0.4)) in
  exists paths g',
    AuraGenerator.run width height seed density chaos_factor simulation_steps g
      = (ok paths, g') /\
    ((3 <= simulation_steps)%Z ->
       length paths = Z.to_nat n /\
       Forall2 (fun i po =>
                  length (fst po) = Z.to_nat simulation_steps /\
                  snd po = 0.3 + 0.7 * (1 - sqrt (IZR i / IZR n)) /\
                  0.3 < snd po <= 1)
               (range n) paths) /\
    ((simulation_steps <= 2)%Z -> paths = []).
Proof.
  intros Hw Hh Hd n. rewrite run_reseeds.
  set (g0 := random_seed (seed mod 2 ^ 31)%Z).
  set (ff := VectorFlowField.init width height seed chaos_factor
               (AuraGenerator.noise_scale chaos_factor)).
  destruct (init_layout (fun _ => True) ff (AuraGenerator.base_particles density)
              (AuraGenerator.particle_density density) g0 (fun _ => I))
    as (sys & g' & Hinit & _ & Hnum & Hsw & Hsh & HF).
  assert (Hcount : py_int (IZR (AuraGenerator.base_particles density) *
                           AuraGenerator.particle_density density) = n).
  { unfold n, AuraGenerator.particle_density. apply py_int_nonneg.
    assert (Hb : (50 <= AuraGenerator.base_particles density)%Z).
    { unfold AuraGenerator.base_particles. rewrite py_int_nonneg by lra.
      apply Zfloor_lub. lra. }
    apply IZR_le in Hb. nra. }
  rewrite Hcount in Hnum.
  destruct (generate_unfold (AuraGenerator.mk width height seed) density
              chaos_factor simulation_steps g0 g' sys Hinit)
    as (sys' & _ & HG & Hgen).
  exists (ParticleSystem.get_paths_with_opacity sys'), g'.
  split; [exact Hgen |].
  assert (Hsw' : (0 < ParticleSystem.width sys)%Z) by (rewrite Hsw; exact Hw).
  assert (Hsh' : (0 < ParticleSystem.height sys)%Z) by (rewrite Hsh; exact Hh).
  assert (Hplaced :
    Forall2 (fun i p =>
               fresh p /\
               Particle.opacity p = 0.3 + 0.7 * (1 - sqrt (IZR i / IZR n)) /\
               0.3 < Particle.opacity p <= 1)
            (range n) (ParticleSystem.particles sys)).
  { rewrite Hnum in HF. eapply Forall2_impl; [| exact HF].
    intros i p (Hi & Hp). rewrite <- Hnum in Hi |- *.
    now apply (placed_opacity (fun _ => True) sys i p). }
  assert (Hfresh : Forall2 (fun p p' => fresh p /\ grown (Z.to_nat simulation_steps) p p')
                     (ParticleSystem.particles sys) (ParticleSystem.particles sys')).
  { apply Forall2_conj; [| exact HG].
    apply Forall2_left_only; [eapply Forall2_length; exact HG |].
    eapply Forall2_right_all; [| exact Hplaced]. intros i p Hp. apply Hp. }
  destruct (paths_of_grown (Z.to_nat simulation_steps)
              (ParticleSystem.particles sys) sys' Hfresh) as [Hlong Hshort].
  split.
  - intros Hsteps.
    assert (Hout : Forall2 (fun i po =>
                      length (fst po) = Z.to_nat simulation_steps /\
                      snd po = 0.3 + 0.7 * (1 - sqrt (IZR i / IZR n)) /\
                      0.3 < snd po <= 1)
                     (range n) (ParticleSystem.get_paths_with_opacity sys')).
    { eapply Forall2_chain; [| exact Hplaced | apply Hlong; lia].
      intros i p po (_ & Hop & Hrange) (Hlen & Hsnd).
      rewrite Hsnd. repeat split; try assumption; apply Hrange. }
    split; [| exact Hout].
    apply Forall2_length in Hout. rewrite range_length in Hout. now symmetry.
  - intros Hsteps. apply Hshort. lia.
Qed.

(** X5. On a canvas of positive width and height and for a density in
    [0, 1], a run of [generate] with at least 3 simulation steps returns one
    (path, opacity) pair per particle, in creation order: pair [i] of [n]
    has a path of exactly [simulation_steps] points and the opacity
    [0.3 + 0.7 * (1 - sqrt (i / n))], in (0.3, 1].  With 2 steps or fewer
    every path is too short to be kept and the run returns the empty
    list. *)
Theorem generate_output_shape `{OpenSimplexLib} `{Numpy} (width height seed : Z)
  (density chaos_factor : R) (simulation_steps : Z) (g : RandomState) :
  (0 < width)%Z -> (0 < height)%Z -> 0 <= density <= 1 ->
  let n := Zfloor (IZR (AuraGenerator.base_particles density) *
                   (0.8 + density * 0.4)) in
  exists paths g',
    AuraGenerator.run width height seed density chaos_factor simulation_steps g
      = (ok paths, g') /\
    ((3 <= simulation_steps)%Z ->
       length paths = Z.to_nat n /\
       Forall2 (fun i po =>
                  length (fst po) = Z.to_nat simulation_steps /\
                  snd po = 0.3 + 0.7 * (1 - sqrt (IZR i / IZR n)) /\
                  0.3 < snd po <= 1)
               (range n) paths) /\
    ((simulation_steps <= 2)%Z -> paths = []).
Proof. apply run_shape. Qed.

(** ** VectorFlowField.get_force_grid *)

Lemma Forall2_nth_both {A B : Type} (P : A -> B -> Prop) (xs : list A)
  (ys : list B) (da : A) (db : B) :
  Forall2 P xs ys ->
  forall k, (k < length xs)%nat -> P (nth k xs da) (nth k ys db).
Proof.
  induction 1 as [|a b xs ys Hab _ IH]; intros k Hk; simpl in Hk; [lia |].
  destruct k as [|k]; simpl; [exact Hab | apply IH; lia].
Qed.

Lemma range_nth (n : Z) (k : nat) :
  (k < Z.to_nat n)%nat -> nth k (range n) 0%Z = Z.of_nat k.
Proof.
  intros Hk. unfold range.
  change 0%Z with (Z.of_nat 0). rewrite map_nth, seq_nth by exact Hk.
  reflexivity.
Qed.

(** X6. For a flow field built on a canvas of non-negative width and
    height, [get_force_grid] does not raise and returns [height // 10] rows
    of [width // 10] vectors each; the vector in row [r] and column [c] is
    exactly what [get_force] returns at [(10 c, 10 r)].  With a negative
    width or height the array cannot be allocated and the call raises
    [ValueError]. *)
Theorem get_force_grid_samples `{OpenSimplexLib} (width height seed : Z)
  (chaos_factor noise_scale : R) :
  let ff := VectorFlowField.init width height seed chaos_factor noise_scale in
  ((width < 0)%Z \/ (height < 0)%Z ->
     VectorFlowFieldGrid.get_force_grid ff = inl ValueError) /\
  ((0 <= width)%Z -> (0 <= height)%Z ->
     exists grid,
       VectorFlowFieldGrid.get_force_grid ff = inr grid /\
       length grid = Z.to_nat (height / 10) /\
       Forall (fun row => length row = Z.to_nat (width / 10)) grid /\
       forall r c : nat,
         (r < Z.to_nat (height / 10))%nat ->
         (c < Z.to_nat (width / 10))%nat ->
         VectorFlowField.get_force ff (IZR (Z.of_nat c * 10))
                                      (IZR (Z.of_nat r * 10)) =
           ok (nth c (nth r grid []) (Vector2D.mk 0 0))).
Proof.
  intros ff. unfold VectorFlowFieldGrid.get_force_grid.
  cbn [ff VectorFlowField.init VectorFlowField.rows VectorFlowField.cols
       VectorFlowField.resolution].
  fold ff. split.
  - intros Hneg.
    assert (Hb : orb (height / 10 <? 0)%Z (width / 10 <? 0)%Z = true).
    { apply Bool.orb_true_iff. destruct Hneg as [Hw | Hh].
      - right. apply Z.ltb_lt. apply Z.div_lt_upper_bound; lia.
      - left. apply Z.ltb_lt. apply Z.div_lt_upper_bound; lia. }
    rewrite Hb. reflexivity.
  - intros Hw Hh.
    assert (Hb : orb (height / 10 <? 0)%Z (width / 10 <? 0)%Z = false).
    { apply Bool.orb_false_iff. split; apply Z.ltb_ge; apply Z.div_pos; lia. }
    rewrite Hb.
    set (cell := fun row col : Z =>
                   VectorFlowField.get_force ff (IZR (col * 10)) (IZR (row * 10))).
    set (row_ok := fun (row : Z) (vs : list Vector2D.t) =>
                     Forall2 (fun col v => cell row col = ok v)
                             (range (width / 10)) vs).
    destruct (mapM_total
                (fun row => mapM (fun col => cell row col) (range (width / 10)))
                row_ok (range (height / 10))) as (grid & Hgrid & Hrows).
    { intros row.
      apply (mapM_total (fun col => cell row col)
               (fun col v => cell row col = ok v) (range (width / 10))).
      intros col. unfold cell.
      destruct (get_force_unfold ff (IZR (col * 10)) (IZR (row * 10)))
        as (v & _ & Hf).
      eexists. split; exact Hf. }
    unfold cell in Hgrid at 1. rewrite Hgrid.
    exists grid. split; [reflexivity |]. split; [| split].
    + apply Forall2_length in Hrows. rewrite range_length in Hrows. now symmetry.
    + eapply Forall2_right_all; [| exact Hrows].
      intros row vs Hvs. apply Forall2_length in Hvs.
      rewrite range_length in Hvs. now symmetry.
    + intros r c Hr Hc.
      pose proof (Forall2_nth_both row_ok _ _ 0%Z [] Hrows r) as Hrow.
      rewrite range_length, range_nth in Hrow by exact Hr.
      specialize (Hrow Hr). unfold row_ok in Hrow.
      pose proof (Forall2_nth_both _ _ _ 0%Z (Vector2D.mk 0 0) Hrow c) as Hcell.
      rewrite range_length, range_nth in Hcell by exact Hc.
      exact (Hcell Hc).
Qed.

(** * Properties of the statistics normalizer (main.py) *)

(** ** StatsNormalizer.sigmoid *)

Lemma sigmoid_range (x midpoint steepness : R) :
  0 < StatsNormalizer.sigmoid x midpoint steepness < 1.
Proof.
  unfold StatsNormalizer.sigmoid.
  pose proof (exp_pos (- steepness * (x - midpoint))) as He.
  set (e := exp _) in *. split.
  - apply Rdiv_lt_0_compat; lra.
  - apply Rmult_lt_reg_r with (1 + e); [lra |].
    unfold Rdiv. rewrite Rmult_assoc, Rinv_l by lra. lra.
Qed.

Lemma sigmoid_increasing (x y midpoint steepness : R) :
  0 < steepness -> x < y ->
  StatsNormalizer.sigmoid x midpoint steepness <
  StatsNormalizer.sigmoid y midpoint steepness.
Proof.
  intros Hk Hxy. unfold StatsNormalizer.sigmoid.
  assert (Hexp : exp (- steepness * (y - midpoint)) <
                 exp (- steepness * (x - midpoint)))
    by (apply exp_increasing; nra).
  pose proof (exp_pos (- steepness * (y - midpoint))) as Hy.
  set (ex := exp (- steepness * (x - midpoint))) in *.
  set (ey := exp (- steepness * (y - midpoint))) in *.
  unfold Rdiv. rewrite !Rmult_1_l.
  apply Rinv_lt_contravar; [nra | lra].
Qed.

(** ** StatsNormalizer.log_scale and normalize_density *)

Lemma ln_pos (x : R) : 1 < x -> 0 < ln x.
Proof. intros Hx. rewrite <- ln_1. apply ln_increasing; lra. Qed.

Lemma ln_le (x y : R) : 0 < x -> x <= y -> ln x <= ln y.
Proof.
  intros Hx [Hlt | Heq]; [left; now apply ln_increasing | right; now rewrite Heq].
Qed.

Lemma log_scale_positive (value reference max_val : R) :
  0 < value -> 0 < max_val ->
  StatsNormalizer.log_scale value reference max_val =
    Rmin 1 (ln (1 + value) / ln (1 + max_val)) /\
  0 < ln (1 + value) / ln (1 + max_val) /\
  (value < max_val -> ln (1 + value) / ln (1 + max_val) < 1) /\
  (max_val <= value -> 1 <= ln (1 + value) / ln (1 + max_val)).
Proof.
  intros Hv Hm. unfold StatsNormalizer.log_scale.
  destruct (Rle_dec value 0) as [Hle | _]; [lra |].
  assert (Hlv : 0 < ln (1 + value)) by (apply ln_pos; lra).
  assert (Hlm : 0 < ln (1 + max_val)) by (apply ln_pos; lra).
  split; [f_equal; lra |]. split; [| split].
  - apply Rdiv_lt_0_compat; assumption.
  - intros Hlt.
    assert (Hln : ln (1 + value) < ln (1 + max_val)) by (apply ln_increasing; lra).
    apply Rmult_lt_reg_r with (ln (1 + max_val)); [assumption |].
    unfold Rdiv. rewrite Rmult_assoc, Rinv_l by lra. lra.
  - intros Hge.
    assert (Hln : ln (1 + max_val) <= ln (1 + value)) by (apply ln_le; lra).
    apply Rmult_le_reg_r with (ln (1 + max_val)); [assumption |].
    unfold Rdiv. rewrite Rmult_assoc, Rinv_l by lra. lra.
Qed.

Lemma log_scale_monotone (a b reference max_val : R) :
  0 < max_val -> a <= b ->
  StatsNormalizer.log_scale a reference max_val <=
  StatsNormalizer.log_scale b reference max_val.
Proof.
  intros Hm Hab.
  destruct (Rle_dec a 0) as [Ha | Ha]; destruct (Rle_dec b 0) as [Hb | Hb].
  - unfold StatsNormalizer.log_scale.
    destruct (Rle_dec a 0); [| contradiction].
    destruct (Rle_dec b 0); [lra | contradiction].
  - apply Rnot_le_lt in Hb.
    destruct (log_scale_positive b reference max_val Hb Hm) as (Eb & Hpos & _).
    rewrite Eb. unfold StatsNormalizer.log_scale.
    destruct (Rle_dec a 0); [| contradiction].
    apply Rmin_glb; lra.
  - lra.
  - apply Rnot_le_lt in Ha, Hb.
    destruct (log_scale_positive a reference max_val Ha Hm) as (Ea & _).
    destruct (log_scale_positive b reference max_val Hb Hm) as (Eb & _).
    rewrite Ea, Eb.
    assert (Hlm : 0 < ln (1 + max_val)) by (apply ln_pos; lra).
    assert (Hln : ln (1 + a) <= ln (1 + b)) by (apply ln_le; lra).
    apply Rle_min_compat_l.
    unfold Rdiv. apply Rmult_le_compat_r; [| exact Hln].
    left. now apply Rinv_0_lt_compat.
Qed.

(** X8. For every commit count, [normalize_density] lies in [0, 1]: it is 0
    exactly for counts of zero or less, [ln (1 + n) / ln 5001] (strictly
    between 0 and 1) for counts between 1 and 4999, and saturates at 1 from
    5000 commits on; it never decreases when the count grows. *)
Theorem normalize_density_range (total_commits more_commits : Z) :
  0 <= StatsNormalizer.normalize_density total_commits <= 1 /\
  (StatsNormalizer.normalize_density total_commits = 0 <-> (total_commits <= 0)%Z) /\
  ((0 < total_commits < 5000)%Z ->
     StatsNormalizer.normalize_density total_commits =
       ln (1 + IZR total_commits) / ln 5001 /\
     0 < StatsNormalizer.normalize_density total_commits < 1) /\
  ((5000 <= total_commits)%Z ->
     StatsNormalizer.normalize_density total_commits = 1) /\
  ((total_commits <= more_commits)%Z ->
     StatsNormalizer.normalize_density total_commits <=
     StatsNormalizer.normalize_density more_commits).
Proof.
  unfold StatsNormalizer.normalize_density, StatsNormalizer.MAX_COMMITS.
  assert (Hmax : 0 < IZR 5000) by lra.
  assert (Hcases : (total_commits <= 0)%Z \/ (0 < total_commits)%Z) by lia.
  assert (Hzero : (total_commits <= 0)%Z ->
                  StatsNormalizer.log_scale (IZR total_commits)
                    (IZR StatsNormalizer.REF_COMMITS) (IZR 5000) = 0).
  { intros Hle. apply IZR_le in Hle. unfold StatsNormalizer.log_scale.
    destruct (Rle_dec (IZR total_commits) 0); [lra | contradiction]. }
  assert (Hpos : (0 < total_commits)%Z ->
                 StatsNormalizer.log_scale (IZR total_commits)
                   (IZR StatsNormalizer.REF_COMMITS) (IZR 5000) =
                   Rmin 1 (ln (1 + IZR total_commits) / ln (1 + IZR 5000)) /\
                 0 < ln (1 + IZR total_commits) / ln (1 + IZR 5000)).
  { intros Hlt. apply IZR_lt in Hlt.
    destruct (log_scale_positive (IZR total_commits)
                (IZR StatsNormalizer.REF_COMMITS) (IZR 5000) Hlt Hmax)
      as (E & Hp & _). now split. }
  split; [| split; [| split; [| split]]].
  - destruct Hcases as [Hle | Hlt].
    + rewrite (Hzero Hle). lra.
    + destruct (Hpos Hlt) as [E Hp]. rewrite E. split.
      * apply Rmin_glb; lra.
      * apply Rmin_l.
  - split.
    + intros Hz. destruct Hcases as [Hle | Hlt]; [exact Hle |].
      destruct (Hpos Hlt) as [E Hp]. rewrite E in Hz.
      unfold Rmin in Hz. destruct (Rle_dec 1 _); lra.
    + exact Hzero.
  - intros [Hlo Hhi]. apply IZR_lt in Hlo, Hhi.
    destruct (log_scale_positive (IZR total_commits)
                (IZR StatsNormalizer.REF_COMMITS) (IZR 5000) Hlo Hmax)
      as (E & Hp & Hlt1 & _).
    specialize (Hlt1 Hhi). rewrite E.
    replace (1 + IZR 5000) with 5001 in * by lra.
    rewrite Rmin_right by lra. repeat split; lra.
  - intros Hge. apply IZR_le in Hge.
    assert (Hlo : 0 < IZR total_commits) by lra.
    destruct (log_scale_positive (IZR total_commits)
                (IZR StatsNormalizer.REF_COMMITS) (IZR 5000) Hlo Hmax)
      as (E & _ & _ & Hge1).
    rewrite E. apply Rmin_left. apply Hge1. exact Hge.
  - intros Hle. apply IZR_le in Hle. now apply log_scale_monotone.
Qed.

(** X9. For streaks of at most 1000 days (a calendar year has far fewer),
    [normalize_intensity] starts at [1 / (1 + exp 1.2)] for a streak of zero
    days, not at 0, never falls below that value, grows strictly with the
    streak and stays below 1. *)
Theorem normalize_intensity_range (max_streak longer_streak : Z) :
  (0 <= max_streak < longer_streak)%Z ->
  (longer_streak <= 1000)%Z ->
  StatsNormalizer.normalize_intensity 0 = 1 / (1 + exp 1.2) /\
  StatsNormalizer.normalize_intensity 0 <=
    StatsNormalizer.normalize_intensity max_streak /\
  StatsNormalizer.normalize_intensity max_streak <
    StatsNormalizer.normalize_intensity longer_streak /\
  StatsNormalizer.normalize_intensity longer_streak < 1.
Proof.
  intros [Hlo Hlt] _.
  unfold StatsNormalizer.normalize_intensity, StatsNormalizer.MAX_STREAK.
  split; [| split; [| split]].
  - unfold StatsNormalizer.sigmoid. do 2 f_equal. f_equal. lra.
  - destruct (Z.eq_dec max_streak 0) as [-> | Hne]; [lra |].
    left. apply sigmoid_increasing; [lra |].
    assert (H0 : (0 < max_streak)%Z) by lia. apply IZR_lt in H0. lra.
  - apply IZR_lt in Hlt. apply sigmoid_increasing; lra.
  - apply sigmoid_range.
Qed.

(** ** StatsNormalizer.calculate_chaos_factor *)

(** What one proportion adds to the entropy. *)
Lemma entropy_step_term (entropy p : R) :
  0 <= p <= 1 ->
  exists term,
    StatsNormalizer.entropy_step entropy p = entropy + term /\
    0 <= term /\
    term * ln 2 <= p * ln 4 + (1 / 4 - p) /\
    (p = 0 \/ p = 1 -> term = 0) /\
    (p = 1 / 4 -> term = 1 / 2).
Proof.
  intros [Hp0 Hp1].
  assert (Hln2 : 0 < ln 2) by (apply ln_pos; lra).
  assert (Hln4 : ln 4 = 2 * ln 2).
  { replace 4 with (2 * 2) by lra. rewrite ln_mult by lra. ring. }
  unfold StatsNormalizer.entropy_step.
  destruct (Rgt_dec p 0) as [Hpos | Hzero].
  - exists (- (p * StatsNormalizer.log2 p)). split; [ring |].
    unfold StatsNormalizer.log2.
    assert (Hlnp : ln p <= 0).
    { rewrite <- ln_1. apply ln_le; lra. }
    assert (Hgibbs : - ln 4 - ln p <= / (4 * p) - 1).
    { assert (Hy : 0 < / (4 * p)) by (apply Rinv_0_lt_compat; lra).
      pose proof (exp_ineq1_le (ln (/ (4 * p)))) as Hexp.
      rewrite exp_ln in Hexp by exact Hy.
      rewrite ln_Rinv, ln_mult in Hexp by lra. lra. }
    assert (Hterm : - (p * (ln p / ln 2)) * ln 2 = - p * ln p) by (field; lra).
    split; [| split; [| split]].
    + assert (Hq : 0 <= - ln p / ln 2)
        by (apply Rle_mult_inv_pos; lra).
      replace (- (p * (ln p / ln 2))) with (p * (- ln p / ln 2)) by (field; lra).
      apply Rmult_le_pos; lra.
    + rewrite Hterm.
      assert (Hmul : p * (- ln 4 - ln p) <= p * (/ (4 * p) - 1))
        by (apply Rmult_le_compat_l; lra).
      replace (p * (/ (4 * p) - 1)) with (1 / 4 - p) in Hmul by (field; lra).
      lra.
    + intros [E | E]; [lra |]. rewrite E, ln_1. lra.
    + intros E. rewrite E.
      replace (1 / 4) with (/ 4) by lra.
      rewrite ln_Rinv by lra. rewrite Hln4. field. lra.
  - exists 0. split; [ring |].
    assert (E : p = 0) by lra.
    split; [lra |]. split; [rewrite E; lra |]. split; [reflexivity |].
    intros Hq. lra.
Qed.

(** The entropy loop over four proportions that sum to 1. *)
Lemma entropy_of_four (p1 p2 p3 p4 : R) :
  0 <= p1 -> 0 <= p2 -> 0 <= p3 -> 0 <= p4 -> p1 + p2 + p3 + p4 = 1 ->
  let entropy := fold_left StatsNormalizer.entropy_step [p1; p2; p3; p4] 0.0 in
  0 <= entropy <= 2 /\
  (p1 = 1 \/ p2 = 1 \/ p3 = 1 \/ p4 = 1 -> entropy = 0) /\
  (p1 = 1 / 4 /\ p2 = 1 / 4 /\ p3 = 1 / 4 /\ p4 = 1 / 4 -> entropy = 2).
Proof.
  intros H1 H2 H3 H4 Hsum. cbn [fold_left].
  assert (B1 : 0 <= p1 <= 1) by lra. assert (B2 : 0 <= p2 <= 1) by lra.
  assert (B3 : 0 <= p3 <= 1) by lra. assert (B4 : 0 <= p4 <= 1) by lra.
  destruct (entropy_step_term 0.0 p1 B1) as (t1 & E1 & T1 & U1 & Z1 & Q1).
  rewrite E1.
  destruct (entropy_step_term (0.0 + t1) p2 B2) as (t2 & E2 & T2 & U2 & Z2 & Q2).
  rewrite E2.
  destruct (entropy_step_term (0.0 + t1 + t2) p3 B3)
    as (t3 & E3 & T3 & U3 & Z3 & Q3).
  rewrite E3.
  destruct (entropy_step_term (0.0 + t1 + t2 + t3) p4 B4)
    as (t4 & E4 & T4 & U4 & Z4 & Q4).
  rewrite E4. clear E1 E2 E3 E4.
  assert (Hln2 : 0 < ln 2) by (apply ln_pos; lra).
  assert (Hln4 : ln 4 = 2 * ln 2).
  { replace 4 with (2 * 2) by lra. rewrite ln_mult by lra. ring. }
  assert (Hexp : p1 * ln 4 + p2 * ln 4 + p3 * ln 4 + p4 * ln 4 = ln 4).
  { rewrite <- !Rmult_plus_distr_r, Hsum. ring. }
  assert (Hupper : (t1 + t2 + t3 + t4) * ln 2 <= 2 * ln 2).
  { rewrite <- Hln4.
    replace ((t1 + t2 + t3 + t4) * ln 2)
      with (t1 * ln 2 + t2 * ln 2 + t3 * ln 2 + t4 * ln 2) by ring.
    clear - U1 U2 U3 U4 Hexp Hsum. lra. }
  assert (Hle2 : t1 + t2 + t3 + t4 <= 2).
  { apply Rmult_le_reg_r with (ln 2); assumption. }
  split; [| split].
  - clear - T1 T2 T3 T4 Hle2. lra.
  - intros Hone.
    assert (Hp : (p1 = 0 \/ p1 = 1) /\ (p2 = 0 \/ p2 = 1) /\
                 (p3 = 0 \/ p3 = 1) /\ (p4 = 0 \/ p4 = 1)).
    { clear - H1 H2 H3 H4 Hsum Hone.
      destruct Hone as [E | [E | [E | E]]];
        repeat split; first [ right; exact E | left; lra ]. }
    destruct Hp as (P1 & P2 & P3 & P4).
    rewrite (Z1 P1), (Z2 P2), (Z3 P3), (Z4 P4). lra.
  - intros (Hq1 & Hq2 & Hq3 & Hq4).
    rewrite (Q1 Hq1), (Q2 Hq2), (Q3 Hq3), (Q4 Hq4). lra.
Qed.

Module ChaosFactor.

Import Stdlib.Strings.String.

Lemma chaos_factor_cases (time_distribution : PyDict.t Z) :
  let morning := PyDict.get time_distribution "morning" 0%Z in
  let afternoon := PyDict.get time_distribution "afternoon" 0%Z in
  let evening := PyDict.get time_distribution "evening" 0%Z in
  let night := PyDict.get time_distribution "night" 0%Z in
  let total := (morning + afternoon + evening + night)%Z in
  let chaos := StatsNormalizer.calculate_chaos_factor time_distribution in
  StatsNormalizer.calculate_chaos_factor [] = 0.5 /\
  (total = 0%Z -> chaos = 0.5) /\
  ((0 <= morning)%Z -> (0 <= afternoon)%Z -> (0 <= evening)%Z ->
   (0 <= night)%Z -> (0 < total)%Z ->
     0 <= chaos <= 1 /\
     (morning = total \/ afternoon = total \/ evening = total \/ night = total ->
        chaos = 0) /\
     (morning = afternoon /\ afternoon = evening /\ evening = night ->
        chaos = 1)).
Proof.
  intros morning afternoon evening night total chaos.
  split; [| split].
  - unfold StatsNormalizer.calculate_chaos_factor. cbn. reflexivity.
  - intros Hz. unfold chaos, StatsNormalizer.calculate_chaos_factor.
    fold morning afternoon evening night. cbn [fold_right].
    replace (morning + (afternoon + (evening + (night + 0))))%Z with total
      by (unfold total; lia).
    rewrite Hz. reflexivity.
  - intros Hm Ha He Hn Ht.
    unfold chaos, StatsNormalizer.calculate_chaos_factor.
    fold morning afternoon evening night. cbn [fold_right].
    replace (morning + (afternoon + (evening + (night + 0))))%Z with total
      by (unfold total; lia).
    destruct (Z.eqb_spec total 0) as [E | _]; [lia |].
    cbn [map].
    assert (HT : 0 < IZR total) by (apply IZR_lt; exact Ht).
    assert (Hsum : IZR morning + IZR afternoon + IZR evening + IZR night = IZR total).
    { unfold total. rewrite !plus_IZR. reflexivity. }
    apply IZR_le in Hm, Ha, He, Hn.
    assert (Hnonneg : forall c, 0 <= IZR c -> 0 <= IZR c / IZR total).
    { intros c Hc. apply Rle_mult_inv_pos; lra. }
    assert (Hone : forall c, IZR c / IZR total = 1 <-> c = total).
    { intros c. split.
      - intros Hc. apply eq_IZR.
        apply Rmult_eq_reg_r with (/ IZR total).
        + rewrite Rinv_r by lra. exact Hc.
        + apply Rinv_neq_0_compat. lra.
      - intros ->. field. lra. }
    assert (Hpsum : IZR morning / IZR total + IZR afternoon / IZR total +
                    IZR evening / IZR total + IZR night / IZR total = 1)
      by (rewrite <- Hsum; field; lra).
    destruct (entropy_of_four _ _ _ _ (Hnonneg _ Hm) (Hnonneg _ Ha)
                (Hnonneg _ He) (Hnonneg _ Hn) Hpsum) as (Hrange & Hsingle & Hunif).
    cbv zeta in Hrange, Hsingle, Hunif.
    set (entropy := fold_left StatsNormalizer.entropy_step _ 0.0) in *.
    split; [| split].
    + clear - Hrange. lra.
    + intros Hc. rewrite Hsingle; [lra |].
      destruct Hc as [Ec | [Ec | [Ec | Ec]]]; apply Hone in Ec; tauto.
    + intros (Ema & Eae & Een). rewrite Hunif; [lra |].
      assert (Eq : IZR total = 4 * IZR morning).
      { rewrite <- Hsum, <- Een, <- Eae, <- Ema. ring. }
      rewrite <- Een, <- Eae, <- Ema, Eq.
      assert (Hmp : IZR morning <> 0) by (clear - HT Eq; lra).
      repeat split; field; exact Hmp.
Qed.

(** X10. [calculate_chaos_factor] reads the four time-of-day counts, a
    missing key counting as 0.  When they sum to zero (for instance for an
    empty dict) it returns 0.5.  For non-negative counts with a positive
    sum it returns half the entropy of the proportions, which lies in
    [0, 1]: it is 0 when all commits fall into one period and 1 when the
    four periods have equal counts. *)
Theorem chaos_factor_range (time_distribution : PyDict.t Z) :
  let morning := PyDict.get time_distribution "morning" 0%Z in
  let afternoon := PyDict.get time_distribution "afternoon" 0%Z in
  let evening := PyDict.get time_distribution "evening" 0%Z in
  let night := PyDict.get time_distribution "night" 0%Z in
  let total := (morning + afternoon + evening + night)%Z in
  let chaos := StatsNormalizer.calculate_chaos_factor time_distribution in
  StatsNormalizer.calculate_chaos_factor [] = 0.5 /\
  (total = 0%Z -> chaos = 0.5) /\
  ((0 <= morning)%Z -> (0 <= afternoon)%Z -> (0 <= evening)%Z ->
   (0 <= night)%Z -> (0 < total)%Z ->
     0 <= chaos <= 1 /\
     (morning = total \/ afternoon = total \/ evening = total \/ night = total ->
        chaos = 0) /\
     (morning = afternoon /\ afternoon = evening /\ evening = night ->
        chaos = 1)).
Proof. apply chaos_factor_cases. Qed.

(** X11. Whatever the fetched statistics, as long as the four time-of-day
    counts are not negative, [normalize_stats] hands [generate] a density
    and a chaos factor in [0, 1] (and an intensity strictly between 0 and
    1, with the user id as seed); the run that [generate_aura] then makes
    with 150 steps on a canvas of positive size returns between 40 and 360
    paths, each of exactly 150 points. *)
Theorem normalized_stats_feed_generate `{OpenSimplexLib} `{Numpy}
  (stats : GitHubDataLoader.GitHubStats) (width height : Z) (g : RandomState) :
  let times := GitHubDataLoader.commit_time_distribution stats in
  let normalized := StatsNormalizer.normalize_stats stats in
  (0 < width)%Z -> (0 < height)%Z ->
  (0 <= PyDict.get times "morning" 0)%Z ->
  (0 <= PyDict.get times "afternoon" 0)%Z ->
  (0 <= PyDict.get times "evening" 0)%Z ->
  (0 <= PyDict.get times "night" 0)%Z ->
  0 <= StatsNormalizer.density normalized <= 1 /\
  0 <= StatsNormalizer.chaos_factor normalized <= 1 /\
  0 < StatsNormalizer.intensity normalized < 1 /\
  StatsNormalizer.seed normalized = GitHubDataLoader.user_id stats /\
  exists paths g',
    AuraGenerator.run width height (StatsNormalizer.seed normalized)
      (StatsNormalizer.density normalized)
      (StatsNormalizer.chaos_factor normalized) 150 g = (ok paths, g') /\
    (40 <= List.length paths <= 360)%nat /\
    Forall (fun po => List.length (fst po) = 150%nat) paths.
Proof.
  intros times normalized Hw Hh Hm Ha He Hn.
  assert (Hdens : 0 <= StatsNormalizer.density normalized <= 1).
  { unfold normalized, StatsNormalizer.normalize_stats.
    cbn [StatsNormalizer.density].
    set (tc := GitHubDataLoader.total_commits stats).
    unfold StatsNormalizer.normalize_density, StatsNormalizer.MAX_COMMITS.
    destruct (Z_le_gt_dec tc 0) as [Hle | Hgt].
    - apply IZR_le in Hle. unfold StatsNormalizer.log_scale.
      destruct (Rle_dec (IZR tc) 0); [lra | contradiction].
    - assert (Hpos : 0 < IZR tc) by (apply IZR_lt; lia).
      assert (Hmax : 0 < IZR 5000) by lra.
      destruct (log_scale_positive (IZR tc) (IZR StatsNormalizer.REF_COMMITS)
                  (IZR 5000) Hpos Hmax) as (E & Hp & _).
      rewrite E. split; [apply Rmin_glb; lra | apply Rmin_l]. }
  assert (Hchaos : 0 <= StatsNormalizer.chaos_factor normalized <= 1).
  { unfold normalized, StatsNormalizer.normalize_stats.
    cbn [StatsNormalizer.chaos_factor]. fold times.
    destruct (chaos_factor_cases times) as (_ & Hzero & Hpos).
    cbv zeta in Hzero, Hpos.
    set (total := (PyDict.get times "morning" 0 + PyDict.get times "afternoon" 0 +
                   PyDict.get times "evening" 0 + PyDict.get times "night" 0)%Z)
      in *.
    destruct (Z.eq_dec total 0) as [E | Hne].
    - rewrite (Hzero E). lra.
    - assert (Ht : (0 < total)%Z) by (unfold total in *; lia).
      destruct (Hpos Hm Ha He Hn Ht) as (Hr & _). exact Hr. }
  split; [exact Hdens |]. split; [exact Hchaos |].
  split; [apply sigmoid_range |]. split; [reflexivity |].
  destruct (run_shape width height (StatsNormalizer.seed normalized)
              (StatsNormalizer.density normalized)
              (StatsNormalizer.chaos_factor normalized) 150 g Hw Hh Hdens)
    as (paths & g' & Hrun & Hlong & _).
  cbv zeta in Hlong.
  destruct Hlong as [Hlen HF]; [lia |].
  exists paths, g'. split; [exact Hrun |]. split.
  - rewrite Hlen.
    set (d := StatsNormalizer.density normalized) in *.
    assert (Hb : (50 <= AuraGenerator.base_particles d <= 300)%Z).
    { unfold AuraGenerator.base_particles. rewrite py_int_nonneg by lra. split.
      - apply Zfloor_lub. lra.
      - apply Z.lt_succ_r. apply lt_IZR.
        pose proof (Zfloor_bound (50 + d * 250)) as [Hlo _].
        rewrite succ_IZR. lra. }
    destruct Hb as [Hb1 Hb2]. apply IZR_le in Hb1, Hb2.
    set (b := IZR (AuraGenerator.base_particles d)) in *.
    assert (Hlo : (40 <= Zfloor (b * (0.8 + d * 0.4)))%Z)
      by (apply Zfloor_lub; nra).
    assert (Hhi : (Zfloor (b * (0.8 + d * 0.4)) <= 360)%Z).
    { apply Z.lt_succ_r. apply lt_IZR.
      pose proof (Zfloor_bound (b * (0.8 + d * 0.4))) as [Hfl _].
      rewrite succ_IZR. nra. }
    lia.
  - eapply Forall2_right_all; [| exact HF].
    intros i po (Hl & _). exact Hl.
Qed.

End ChaosFactor.

(** * Properties of the data loader (data_loader.py) *)

(** ** GitHubDataLoader._calculate_max_streak *)

(** The state of the loop after the days [days]: the current streak is the
    longest run of contribution days that ends the list, the maximum is the
    longest run anywhere in it. *)
Lemma streak_loop_invariant (days : list bool) :
  let st := fold_left GitHubDataLoader.streak_step days (0%Z, 0%Z) in
  (0 <= snd st <= fst st)%Z /\
  (exists before run,
     days = before ++ run /\ Forall (fun d => d = true) run /\
     Z.of_nat (length run) = snd st) /\
  (forall before run,
     days = before ++ run -> Forall (fun d => d = true) run ->
     (Z.of_nat (length run) <= snd st)%Z) /\
  (forall run, streak_in days run -> (Z.of_nat (length run) <= fst st)%Z) /\
  (exists run, streak_in days run /\ Z.of_nat (length run) = fst st).
Proof.
  induction days as [|d days IH] using rev_ind.
  - cbn. split; [lia |]. split; [| split; [| split]].
    + exists [], []. repeat split. constructor.
    + intros before run Hsplit _.
      symmetry in Hsplit. apply app_eq_nil in Hsplit as [_ ->]. simpl. lia.
    + intros run [(before & after & Hsplit) _].
      symmetry in Hsplit. apply app_eq_nil in Hsplit as [_ Hsplit].
      apply app_eq_nil in Hsplit as [-> _]. simpl. lia.
    + exists []. split; [| reflexivity].
      split; [exists [], []; reflexivity | constructor].
  - rewrite fold_left_app. cbn [fold_left].
    destruct (fold_left GitHubDataLoader.streak_step days (0%Z, 0%Z)) as [m c].
    cbn [fst snd] in IH.
    destruct IH as (Hcm & (sb & sr & Hs & Hsall & Hslen) & Hsmax & Hall & (w & Hw & Hwlen)).
    assert (Hsuffix : forall before run,
               days ++ [d] = before ++ run -> run <> [] ->
               exists r, run = r ++ [d] /\ days = before ++ r).
    { intros before run Hsplit Hne.
      destruct run as [|x run' _] using rev_ind; [contradiction |].
      rewrite app_assoc in Hsplit. apply app_inj_tail in Hsplit as [Hd ->].
      now exists run'. }
    assert (Hinside : forall run,
               streak_in (days ++ [d]) run ->
               streak_in days run \/
               exists before, days ++ [d] = before ++ run).
    { intros run [(before & after & Hsplit) Hrun].
      destruct after as [|x after' _] using rev_ind.
      - right. exists before. now rewrite app_nil_r in Hsplit.
      - left. rewrite !app_assoc in Hsplit.
        apply app_inj_tail in Hsplit as [Hd _].
        split; [| exact Hrun]. exists before, after'.
        now rewrite app_assoc. }
    assert (Hextend : forall run, streak_in days run -> streak_in (days ++ [d]) run).
    { intros run [(before & after & Hsplit) Hrun]. split; [| exact Hrun].
      exists before, (after ++ [d]). rewrite Hsplit, <- !app_assoc. reflexivity. }
    unfold GitHubDataLoader.streak_step. destruct d; cbn [fst snd].
    + (* a day with contributions *)
      assert (Hsuf' : forall before run,
                 days ++ [true] = before ++ run ->
                 Forall (fun d => d = true) run ->
                 (Z.of_nat (length run) <= c + 1)%Z).
      { intros before run Hsplit Hrun.
        destruct run as [|x run']; [simpl; lia |].
        destruct (Hsuffix before (x :: run') Hsplit) as (r & Hr & Hdays);
          [discriminate |].
        rewrite Hr in Hrun |- *. apply Forall_app in Hrun as [Hr' _].
        specialize (Hsmax before r Hdays Hr').
        rewrite length_app. simpl. lia. }
      split; [lia |]. split; [| split; [| split]].
      * exists sb, (sr ++ [true]). rewrite Hs, <- app_assoc.
        split; [reflexivity |]. split.
        -- apply Forall_app. split; [exact Hsall | now constructor].
        -- rewrite length_app. simpl. lia.
      * exact Hsuf'.
      * intros run Hrun. destruct (Hinside run Hrun) as [Hold | (before & Hsplit)].
        -- specialize (Hall run Hold). lia.
        -- specialize (Hsuf' before run Hsplit (proj2 Hrun)). lia.
      * destruct (Z.max_spec m (c + 1)) as [[Hlt ->] | [Hge ->]].
        -- exists (sr ++ [true]). split.
           ++ split.
              ** exists sb, []. rewrite Hs, app_nil_r, <- app_assoc. reflexivity.
              ** apply Forall_app. split; [exact Hsall | now constructor].
           ++ rewrite length_app. simpl. lia.
        -- exists w. split; [now apply Hextend | exact Hwlen].
    + (* a day without contributions *)
      assert (Hsuf' : forall before run,
                 days ++ [false] = before ++ run ->
                 Forall (fun d => d = true) run ->
                 (Z.of_nat (length run) <= 0)%Z).
      { intros before run Hsplit Hrun.
        destruct run as [|x run']; [simpl; lia |].
        destruct (Hsuffix before (x :: run') Hsplit) as (r & Hr & Hdays);
          [discriminate |].
        rewrite Hr in Hrun. apply Forall_app in Hrun as [_ Hlast].
        inversion Hlast as [|? ? Hf _]. discriminate Hf. }
      split; [lia |]. split; [| split; [| split]].
      * exists (days ++ [false]), []. rewrite app_nil_r.
        repeat split. constructor.
      * exact Hsuf'.
      * intros run Hrun. destruct (Hinside run Hrun) as [Hold | (before & Hsplit)].
        -- now apply Hall.
        -- specialize (Hsuf' before run Hsplit (proj2 Hrun)). lia.
      * exists w. split; [now apply Hextend | exact Hwlen].
Qed.

(** X12. [_calculate_max_streak] returns the length of the longest run of
    consecutive days with at least one contribution, the days of all weeks
    taken in order (a run may continue from one week into the next): no
    such run is longer than the result, and some run has exactly that
    length.  The result is 0 when there is no week, and never negative. *)
Theorem max_streak_is_longest_run (weeks : list GitHubDataLoader.Week) :
  let days := GitHubDataLoader.all_days weeks in
  let streak := GitHubDataLoader._calculate_max_streak weeks in
  (forall run, streak_in days run -> (Z.of_nat (length run) <= streak)%Z) /\
  (exists run, streak_in days run /\ Z.of_nat (length run) = streak) /\
  (0 <= streak <= Z.of_nat (length days))%Z /\
  GitHubDataLoader._calculate_max_streak [] = 0%Z.
Proof.
  intros days streak.
  destruct (streak_loop_invariant days) as (Hcm & _ & _ & Hall & (w & Hw & Hwlen)).
  cbv zeta in Hcm, Hall, Hwlen.
  change (fst (fold_left GitHubDataLoader.streak_step days (0%Z, 0%Z)))
    with streak in Hcm, Hall, Hwlen.
  split; [exact Hall |]. split; [now exists w |]. split; [| reflexivity].
  split; [lia |].
  rewrite <- Hwlen. destruct Hw as [(before & after & Hsplit) _].
  rewrite Hsplit, !length_app. lia.
Qed.

(** ** Python dictionaries *)

Lemma dict_contains_iff {V : Type} (d : PyDict.t V) (k : String.string) :
  PyDict.contains d k = true <-> In k (map fst d).
Proof.
  induction d as [|[k' v] d IH]; simpl.
  - split; [discriminate | contradiction].
  - destruct (String.eqb_spec k' k) as [E | Hne].
    + split; [intros _; now left | reflexivity].
    + rewrite IH. split; [now right | intros [E | Hin]; [contradiction | exact Hin]].
Qed.

Lemma dict_set_new {V : Type} (d : PyDict.t V) (k : String.string) (v : V) :
  ~ In k (map fst d) -> PyDict.set d k v = d ++ [(k, v)].
Proof.
  induction d as [|[k' v'] d IH]; simpl; intros Hnot; [reflexivity |].
  destruct (String.eqb_spec k' k) as [E | Hne].
  - exfalso. apply Hnot. now left.
  - rewrite IH; [reflexivity |]. intros Hin. apply Hnot. now right.
Qed.

Lemma dict_update_absent {V : Type} (d : PyDict.t V) (k : String.string)
  (f : V -> V) :
  ~ In k (map fst d) -> map (updated_entry k f) d = d.
Proof.
  induction d as [|[k' v'] d IH]; simpl; intros Hnot; [reflexivity |].
  unfold updated_entry at 1. cbn [fst snd].
  destruct (String.eqb_spec k' k) as [E | Hne].
  - exfalso. apply Hnot. now left.
  - rewrite IH; [reflexivity |]. intros Hin. apply Hnot. now right.
Qed.

Lemma dict_update_entries {V : Type} (d : PyDict.t V) (k : String.string)
  (f : V -> V) :
  NoDup (map fst d) -> PyDict.update d k f = map (updated_entry k f) d.
Proof.
  induction d as [|[k' v'] d IH]; simpl; intros Hnd; [reflexivity |].
  inversion Hnd as [|? ? Hnot Hnd']; subst.
  unfold updated_entry at 1. cbn [fst snd].
  destruct (String.eqb_spec k' k) as [E | Hne].
  - subst k'. now rewrite dict_update_absent.
  - now rewrite IH.
Qed.

Lemma updated_entry_key {V : Type} (k : String.string) (f : V -> V)
  (d : PyDict.t V) :
  map fst (map (updated_entry k f) d) = map fst d.
Proof.
  rewrite map_map. apply map_ext. intros [k' v]. unfold updated_entry.
  cbn [fst snd]. now destruct (String.eqb k' k).
Qed.

(** ** Stable sorting in descending order *)

Lemma insert_desc_perm {A : Type} (key : A -> Z) (a : A) (xs : list A) :
  Permutation (GitHubDataLoader.insert_desc key a xs) (a :: xs).
Proof.
  induction xs as [|b xs IH]; simpl; [reflexivity |].
  destruct (key a <? key b)%Z; [| reflexivity].
  rewrite IH. apply perm_swap.
Qed.

Lemma sorted_reverse_perm {A : Type} (key : A -> Z) (xs : list A) :
  Permutation (GitHubDataLoader.sorted_reverse key xs) xs.
Proof.
  induction xs as [|a xs IH]; simpl; [reflexivity |].
  rewrite insert_desc_perm. now constructor.
Qed.

Lemma insert_desc_sorted {A : Type} (key : A -> Z) (a : A) (xs : list A) :
  Sorted (fun x y => (key y <= key x)%Z) xs ->
  Sorted (fun x y => (key y <= key x)%Z) (GitHubDataLoader.insert_desc key a xs).
Proof.
  induction 1 as [|b xs Hs IH Hhd]; simpl.
  - repeat constructor.
  - destruct (Z.ltb_spec (key a) (key b)) as [Hlt | Hge].
    + constructor; [exact IH |].
      destruct xs as [|c xs]; simpl.
      * constructor. lia.
      * destruct (Z.ltb_spec (key a) (key c)); constructor.
        -- now inversion Hhd.
        -- lia.
    + constructor; [now constructor |]. constructor. exact Hge.
Qed.

Lemma sorted_reverse_sorted {A : Type} (key : A -> Z) (xs : list A) :
  StronglySorted (fun x y => (key y <= key x)%Z)
                 (GitHubDataLoader.sorted_reverse key xs).
Proof.
  apply Sorted_StronglySorted.
  - intros x y z Hxy Hyz. lia.
  - induction xs as [|a xs IH]; simpl; [constructor |].
    now apply insert_desc_sorted.
Qed.

(** ** GitHubDataLoader._aggregate_languages *)

Lemma total_size_app (k : String.string)
  (edges : list GitHubDataLoader.LanguageEdge) (e : GitHubDataLoader.LanguageEdge) :
  LanguageTotals.total_size k (edges ++ [e]) =
  (LanguageTotals.total_size k edges +
   (if String.eqb (LanguageTotals.edge_name e) k
    then GitHubDataLoader.size e else 0))%Z.
Proof.
  unfold LanguageTotals.total_size.
  induction edges as [|a edges IH]; simpl.
  - destruct (String.eqb _ k); lia.
  - rewrite IH. destruct (String.eqb (LanguageTotals.edge_name a) k); lia.
Qed.

Lemma first_color_app (k : String.string)
  (edges : list GitHubDataLoader.LanguageEdge) (e : GitHubDataLoader.LanguageEdge) :
  LanguageTotals.first_color k (edges ++ [e]) =
  match LanguageTotals.first_color k edges with
  | Some c => Some c
  | None => if String.eqb (LanguageTotals.edge_name e) k
            then Some (LanguageTotals.edge_color e) else None
  end.
Proof.
  unfold LanguageTotals.first_color.
  induction edges as [|a edges IH]; simpl.
  - destruct (String.eqb _ k); reflexivity.
  - destruct (String.eqb (LanguageTotals.edge_name a) k); [reflexivity | exact IH].
Qed.

Lemma first_color_absent (k : String.string)
  (edges : list GitHubDataLoader.LanguageEdge) :
  ~ In k (map LanguageTotals.edge_name edges) ->
  LanguageTotals.first_color k edges = None /\
  LanguageTotals.total_size k edges = 0%Z.
Proof.
  unfold LanguageTotals.first_color, LanguageTotals.total_size.
  induction edges as [|a edges IH]; simpl; intros Hnot; [now split |].
  destruct (String.eqb_spec (LanguageTotals.edge_name a) k) as [E | Hne].
  - exfalso. apply Hnot. now left.
  - apply IH. intros Hin. apply Hnot. now right.
Qed.

Lemma entry_ok_other (edges : list GitHubDataLoader.LanguageEdge)
  (e : GitHubDataLoader.LanguageEdge)
  (kv : String.string * GitHubDataLoader.LanguageData) :
  fst kv <> LanguageTotals.edge_name e ->
  entry_ok edges kv -> entry_ok (edges ++ [e]) kv.
Proof.
  intros Hne (Hname & Hin & Husage & Hcolor).
  unfold entry_ok. rewrite total_size_app, first_color_app, <- Hcolor.
  destruct (String.eqb_spec (LanguageTotals.edge_name e) (fst kv)) as [E | _].
  - exfalso. apply Hne. now symmetry.
  - repeat split; try assumption.
    + rewrite map_app. apply in_or_app. now left.
    + lia.
Qed.

Lemma add_edge_keeps_invariant (edges : list GitHubDataLoader.LanguageEdge)
  (d : PyDict.t GitHubDataLoader.LanguageData) (e : GitHubDataLoader.LanguageEdge) :
  totals_ok edges d -> totals_ok (edges ++ [e]) (GitHubDataLoader.add_edge d e).
Proof.
  intros (Hnd & Hentries & Hcover).
  unfold GitHubDataLoader.add_edge.
  fold (LanguageTotals.edge_name e). fold (LanguageTotals.edge_color e).
  set (k := LanguageTotals.edge_name e).
  set (bump := fun lang =>
                 GitHubDataLoader.mk_language (GitHubDataLoader.name lang)
                   (GitHubDataLoader.color lang)
                   (GitHubDataLoader.usage_count lang + GitHubDataLoader.size e)).
  assert (Hcover' : forall keys,
             (forall a, In a edges -> In (LanguageTotals.edge_name a) keys) ->
             In k keys ->
             forall a, In a (edges ++ [e]) -> In (LanguageTotals.edge_name a) keys).
  { intros keys Hold Hk a Ha. apply in_app_or in Ha as [Ha | [<- | []]].
    - now apply Hold.
    - exact Hk. }
  destruct (PyDict.contains d k) eqn:Hc; cbn [negb].
  - (* the language is already there *)
    apply dict_contains_iff in Hc.
    rewrite dict_update_entries by exact Hnd.
    split; [now rewrite updated_entry_key |]. split.
    + apply Forall_map. eapply Forall_impl; [| exact Hentries].
      intros kv Hkv. unfold updated_entry.
      destruct (String.eqb_spec (fst kv) k) as [E | Hne].
      * destruct Hkv as (Hname & Hin & Husage & Hcolor).
        unfold entry_ok. cbn [fst snd bump GitHubDataLoader.name
                              GitHubDataLoader.color GitHubDataLoader.usage_count].
        rewrite total_size_app, first_color_app, <- Hcolor, <- Husage.
        fold k. rewrite E, String.eqb_refl.
        repeat split; try assumption.
        -- now rewrite <- E.
        -- rewrite map_app. apply in_or_app. left. now rewrite <- E.
      * now apply entry_ok_other.
    + rewrite updated_entry_key. now apply Hcover'.
  - (* a new language *)
    assert (Hnot : ~ In k (map fst d)).
    { intros Hin. apply dict_contains_iff in Hin. congruence. }
    assert (Hfresh : ~ In k (map LanguageTotals.edge_name edges)).
    { intros Hin. apply in_map_iff in Hin as (a & Ha & Hin).
      apply Hnot. rewrite <- Ha. now apply Hcover. }
    destruct (first_color_absent k edges Hfresh) as [Hnocolor Hnosize].
    rewrite dict_set_new by exact Hnot.
    assert (Hnd' : NoDup (map fst (d ++ [(k, GitHubDataLoader.mk_language k
                                             (LanguageTotals.edge_color e) 0)]))).
    { rewrite map_app. cbn [map fst].
      apply NoDup_app; [exact Hnd | repeat constructor; intros [] |].
      intros a Ha [<- | []]. now apply Hnot. }
    rewrite dict_update_entries by exact Hnd'.
    split; [now rewrite updated_entry_key |]. split.
    + rewrite map_app. apply Forall_app. split.
      * rewrite dict_update_absent by exact Hnot.
        apply Forall_forall. intros kv Hkv.
        apply entry_ok_other.
        -- intros E. apply Hnot. fold k in E. rewrite <- E.
           now apply in_map.
        -- revert kv Hkv. now apply Forall_forall.
      * constructor; [| constructor].
        unfold updated_entry. cbn [fst snd]. rewrite String.eqb_refl.
        unfold entry_ok. cbn [fst snd bump GitHubDataLoader.name
                              GitHubDataLoader.color GitHubDataLoader.usage_count].
        rewrite total_size_app, first_color_app, Hnocolor, Hnosize.
        fold k. rewrite String.eqb_refl.
        repeat split.
        rewrite map_app. apply in_or_app. right. now left.
    + rewrite updated_entry_key, map_app. apply Hcover'.
      * intros a Ha. apply in_or_app. left. now apply Hcover.
      * apply in_or_app. right. now left.
Qed.

Lemma add_edges_keep_invariant (more edges : list GitHubDataLoader.LanguageEdge)
  (d : PyDict.t GitHubDataLoader.LanguageData) :
  totals_ok edges d ->
  totals_ok (edges ++ more) (fold_left GitHubDataLoader.add_edge more d).
Proof.
  revert edges d. induction more as [|e more IH]; intros edges d Hok; simpl.
  - now rewrite app_nil_r.
  - replace (edges ++ e :: more) with ((edges ++ [e]) ++ more)
      by (rewrite <- app_assoc; reflexivity).
    apply IH. now apply add_edge_keeps_invariant.
Qed.

Lemma fold_repositories (repositories : list GitHubDataLoader.Repository)
  (d : PyDict.t GitHubDataLoader.LanguageData) :
  fold_left (fun totals repo =>
               fold_left GitHubDataLoader.add_edge
                         (GitHubDataLoader.languages_edges repo) totals)
            repositories d =
  fold_left GitHubDataLoader.add_edge (LanguageTotals.all_edges repositories) d.
Proof.
  revert d. induction repositories as [|repo repositories IH]; intros d; simpl.
  - reflexivity.
  - rewrite fold_left_app. apply IH.
Qed.

Lemma aggregate_languages_spec (repositories : list GitHubDataLoader.Repository) :
  let edges := LanguageTotals.all_edges repositories in
  let out := GitHubDataLoader._aggregate_languages repositories in
  StronglySorted LanguageTotals.usage_ge out /\
  NoDup (map GitHubDataLoader.name out) /\
  (forall lang, In lang out ->
     In (GitHubDataLoader.name lang) (map LanguageTotals.edge_name edges) /\
     GitHubDataLoader.usage_count lang =
       LanguageTotals.total_size (GitHubDataLoader.name lang) edges /\
     Some (GitHubDataLoader.color lang) =
       LanguageTotals.first_color (GitHubDataLoader.name lang) edges) /\
  (forall e, In e edges ->
     In (LanguageTotals.edge_name e) (map GitHubDataLoader.name out)).
Proof.
  intros edges out.
  unfold out, GitHubDataLoader._aggregate_languages.
  rewrite fold_repositories. fold edges.
  assert (Hok : totals_ok edges (fold_left GitHubDataLoader.add_edge edges [])).
  { apply (add_edges_keep_invariant edges [] []).
    split; [constructor |]. split; [constructor | intros e []]. }
  set (d := fold_left GitHubDataLoader.add_edge edges []) in *.
  destruct Hok as (Hnd & Hentries & Hcover).
  pose proof (sorted_reverse_perm GitHubDataLoader.usage_count (PyDict.values d))
    as Hperm.
  assert (Hnames : map GitHubDataLoader.name (PyDict.values d) = map fst d).
  { unfold PyDict.values. rewrite map_map. apply map_ext_in.
    intros kv Hkv. symmetry.
    apply (proj1 (proj1 (Forall_forall _ _) Hentries kv Hkv)). }
  split; [apply sorted_reverse_sorted |]. split; [| split].
  - eapply Permutation_NoDup.
    + apply Permutation_map. symmetry. exact Hperm.
    + now rewrite Hnames.
  - intros lang Hin.
    apply (Permutation_in _ Hperm) in Hin.
    unfold PyDict.values in Hin. apply in_map_iff in Hin as (kv & <- & Hkv).
    destruct (proj1 (Forall_forall _ _) Hentries kv Hkv)
      as (Hname & Hin & Husage & Hcolor).
    rewrite <- Hname. now repeat split.
  - intros e He.
    apply (Permutation_in (l := map GitHubDataLoader.name (PyDict.values d))).
    + apply Permutation_map. symmetry. exact Hperm.
    + rewrite Hnames. now apply Hcover.
Qed.

(** X13. [_aggregate_languages] returns one entry per language that occurs
    in the repositories, each name once: the entry's [usage_count] is the
    sum of the sizes of all edges of that language, its colour is the colour
    of the first edge of that language (the grey [#858585] when GitHub gives
    none), and the entries are in descending order of [usage_count]. *)
Theorem aggregate_languages_totals (repositories : list GitHubDataLoader.Repository) :
  let edges := LanguageTotals.all_edges repositories in
  let out := GitHubDataLoader._aggregate_languages repositories in
  StronglySorted LanguageTotals.usage_ge out /\
  NoDup (map GitHubDataLoader.name out) /\
  (forall lang, In lang out ->
     In (GitHubDataLoader.name lang) (map LanguageTotals.edge_name edges) /\
     GitHubDataLoader.usage_count lang =
       LanguageTotals.total_size (GitHubDataLoader.name lang) edges /\
     Some (GitHubDataLoader.color lang) =
       LanguageTotals.first_color (GitHubDataLoader.name lang) edges) /\
  (forall e, In e edges ->
     In (LanguageTotals.edge_name e) (map GitHubDataLoader.name out)).
Proof. apply aggregate_languages_spec. Qed.

(** * Properties of the colour mathematics (renderer.py) *)

(** ** ColorRGB.blend, lighten, darken *)

Lemma convex_between (a b w : R) :
  0 <= w <= 1 -> 0 <= a <= 1 -> 0 <= b <= 1 ->
  0 <= a * (1 - w) + b * w <= 1.
Proof. intros Hw Ha Hb. nra. Qed.

Lemma blend_in_gamut (a b : ColorRGB.t) (weight : R) :
  0 <= weight <= 1 -> in_gamut a -> in_gamut b ->
  in_gamut (ColorRGB.blend a b weight).
Proof.
  intros Hw (Hr & Hg & Hb) (Hr' & Hg' & Hb').
  unfold in_gamut, ColorRGB.blend. cbn [ColorRGB.r ColorRGB.g ColorRGB.b].
  repeat split; apply convex_between; assumption.
Qed.

(** X14. Blending is linear interpolation: weight 0 gives the first colour
    and weight 1 the second, and for a weight in [0, 1] a blend of two
    colours with channels in [0, 1] has its channels in [0, 1] again.  So
    [lighten] and [darken] keep a colour in gamut; [lighten] lowers no
    channel and [darken] raises none, [darken] scaling each channel by
    [1 - amount]. *)
Theorem blend_interpolates (a b : ColorRGB.t) (weight : R) :
  0 <= weight <= 1 -> in_gamut a -> in_gamut b ->
  ColorRGB.blend a b 0 = a /\
  ColorRGB.blend a b 1 = b /\
  in_gamut (ColorRGB.blend a b weight) /\
  in_gamut (ColorRGB.lighten a weight) /\
  in_gamut (ColorRGB.darken a weight) /\
  ColorRGB.r a <= ColorRGB.r (ColorRGB.lighten a weight) /\
  ColorRGB.g a <= ColorRGB.g (ColorRGB.lighten a weight) /\
  ColorRGB.b a <= ColorRGB.b (ColorRGB.lighten a weight) /\
  ColorRGB.darken a weight =
    ColorRGB.mk (ColorRGB.r a * (1 - weight)) (ColorRGB.g a * (1 - weight))
                (ColorRGB.b a * (1 - weight)) /\
  ColorRGB.r (ColorRGB.darken a weight) <= ColorRGB.r a /\
  ColorRGB.g (ColorRGB.darken a weight) <= ColorRGB.g a /\
  ColorRGB.b (ColorRGB.darken a weight) <= ColorRGB.b a.
Proof.
  intros Hw Ha Hb.
  assert (Hwhite : in_gamut (ColorRGB.mk 1.0 1.0 1.0))
    by (unfold in_gamut; cbn; lra).
  assert (Hblack : in_gamut (ColorRGB.mk 0.0 0.0 0.0))
    by (unfold in_gamut; cbn; lra).
  destruct Ha as (Hr & Hg & Hbl).
  split; [| split; [| split; [| split; [| split]]]].
  - destruct a as [ra ga ba]. unfold ColorRGB.blend. cbn. f_equal; ring.
  - destruct b as [rb gb bb]. unfold ColorRGB.blend. cbn. f_equal; ring.
  - apply blend_in_gamut; [assumption | now repeat split | assumption].
  - apply blend_in_gamut; [assumption | now repeat split | assumption].
  - apply blend_in_gamut; [assumption | now repeat split | assumption].
  - unfold ColorRGB.lighten, ColorRGB.darken, ColorRGB.blend.
    cbn [ColorRGB.r ColorRGB.g ColorRGB.b].
    repeat split; try nra.
    f_equal; lra.
Qed.

(** ** ColorRGB.to_hex and from_hex *)

Lemma channel_byte_range (c : R) : (0 <= ColorRGB.channel_byte c <= 255)%Z.
Proof.
  unfold ColorRGB.channel_byte, ColorRGB.clip.
  set (v := Rmin (Rmax (c * 255) 0) 255).
  assert (Hv : 0 <= v <= 255).
  { unfold v. split.
    - apply Rmin_glb; [apply Rmax_r | lra].
    - apply Rmin_r. }
  rewrite py_int_nonneg by lra. split.
  - apply Zfloor_lub. lra.
  - apply Z.lt_succ_r. apply lt_IZR.
    pose proof (Zfloor_bound v) as [Hlo _]. rewrite succ_IZR. lra.
Qed.

Lemma channel_byte_of_byte (v : Z) :
  (0 <= v <= 255)%Z -> ColorRGB.channel_byte (IZR v / 255.0) = v.
Proof.
  intros [Hlo Hhi]. apply IZR_le in Hlo, Hhi.
  unfold ColorRGB.channel_byte, ColorRGB.clip.
  replace (IZR v / 255.0 * 255) with (IZR v) by lra.
  rewrite Rmax_left by lra. rewrite Rmin_left by lra.
  rewrite py_int_nonneg by lra. apply ZfloorZ.
Qed.

Lemma format_02x_byte (v : Z) :
  (0 <= v <= 255)%Z ->
  ColorRGB.format_02x v =
    String.String (ColorRGB.hex_digit (v / 16))
      (String.String (ColorRGB.hex_digit (v mod 16)) String.EmptyString).
Proof.
  intros Hv. unfold ColorRGB.format_02x.
  rewrite Z.abs_eq by lia.
  destruct (Z.ltb_spec v 0) as [Hneg | _]; [lia |].
  cbn [ColorRGB.to_hex_digits].
  destruct (Z.eqb_spec (v / 16) 0) as [Hsmall | Hbig].
  - rewrite Hsmall. reflexivity.
  - assert (H16 : (16 <= v)%Z).
    { destruct (Z_lt_le_dec v 16) as [Hlt | Hge]; [| exact Hge].
      exfalso. apply Hbig. apply Z.div_small. lia. }
    assert (Hlog : (4 <= Z.log2 v)%Z).
    { change 4%Z with (Z.log2 16). now apply Z.log2_le_mono. }
    destruct (Z.to_nat (Z.log2 v)) as [|fuel] eqn:Hfuel; [lia |].
    cbn [ColorRGB.to_hex_digits].
    assert (Hq : (v / 16 / 16 = 0)%Z).
    { rewrite Z.div_div by lia. apply Z.div_small. lia. }
    rewrite Hq. cbn [Z.eqb].
    assert (Hm : ((v / 16) mod 16 = v / 16)%Z).
    { apply Z.mod_small. split; [apply Z.div_pos; lia |].
      apply Z.div_lt_upper_bound; lia. }
    rewrite Hm. reflexivity.
Qed.

Lemma hex_digit_cases (P : Z -> Prop) :
  P 0%Z -> P 1%Z -> P 2%Z -> P 3%Z -> P 4%Z -> P 5%Z -> P 6%Z -> P 7%Z ->
  P 8%Z -> P 9%Z -> P 10%Z -> P 11%Z -> P 12%Z -> P 13%Z -> P 14%Z -> P 15%Z ->
  forall v, (0 <= v < 16)%Z -> P v.
Proof.
  intros H0 H1 H2 H3 H4 H5 H6 H7 H8 H9 H10 H11 H12 H13 H14 H15 v Hv.
  assert (Hc : (v = 0 \/ v = 1 \/ v = 2 \/ v = 3 \/ v = 4 \/ v = 5 \/ v = 6 \/
                v = 7 \/ v = 8 \/ v = 9 \/ v = 10 \/ v = 11 \/ v = 12 \/
                v = 13 \/ v = 14 \/ v = 15)%Z) by lia.
  repeat (destruct Hc as [-> | Hc]; [assumption |]). now subst.
Qed.

Module HexColors.

Import Stdlib.Strings.String Stdlib.Strings.Ascii.

Lemma hex_digit_value (v : Z) :
  (0 <= v < 16)%Z ->
  HexText.digit_value (ColorRGB.hex_digit v) = Some v /\
  Ascii.eqb (ColorRGB.hex_digit v) "#"%char = false.
Proof.
  revert v. apply hex_digit_cases; split; reflexivity.
Qed.

Lemma digit_value_not_hash (c : Ascii.ascii) (v : Z) :
  HexText.digit_value c = Some v ->
  Ascii.eqb c "#"%char = false /\ (0 <= v < 16)%Z.
Proof.
  intros Hc. split.
  - destruct (Ascii.eqb_spec c "#"%char) as [-> | _]; [| reflexivity].
    discriminate Hc.
  - unfold HexText.digit_value in Hc. revert Hc.
    set (n := Z.of_nat (Ascii.nat_of_ascii c)).
    destruct ((48 <=? n)%Z && (n <=? 57)%Z)%bool eqn:E1;
      [intros [= <-]; apply andb_prop in E1 as [? ?]; lia |].
    destruct ((97 <=? n)%Z && (n <=? 102)%Z)%bool eqn:E2;
      [intros [= <-]; apply andb_prop in E2 as [? ?]; lia |].
    destruct ((65 <=? n)%Z && (n <=? 70)%Z)%bool eqn:E3;
      [intros [= <-]; apply andb_prop in E3 as [? ?]; lia | discriminate].
Qed.

(** [from_hex] on a [#] followed by six hexadecimal digits. *)
Lemma from_hex_six_digits `{PyText} (c1 c2 c3 c4 c5 c6 : Ascii.ascii)
  (v1 v2 v3 v4 v5 v6 : Z) :
  reads_hex_pairs ->
  HexText.digit_value c1 = Some v1 -> HexText.digit_value c2 = Some v2 ->
  HexText.digit_value c3 = Some v3 -> HexText.digit_value c4 = Some v4 ->
  HexText.digit_value c5 = Some v5 -> HexText.digit_value c6 = Some v6 ->
  ColorRGB.from_hex
    (String.String "#"%char
       (String.String c1 (String.String c2 (String.String c3
          (String.String c4 (String.String c5 (String.String c6
             String.EmptyString))))))) =
  inr (ColorRGB.mk (IZR (16 * v1 + v2) / 255.0) (IZR (16 * v3 + v4) / 255.0)
                   (IZR (16 * v5 + v6) / 255.0)).
Proof.
  intros Hread H1 H2 H3 H4 H5 H6.
  destruct (digit_value_not_hash c1 v1 H1) as [Hnot _].
  unfold ColorRGB.from_hex. cbn [ColorRGB.lstrip].
  change (Ascii.eqb "#"%char "#"%char) with true. cbv iota.
  rewrite Hnot.
  cbn [String.length Nat.eqb negb String.substring].
  unfold ColorRGB.parse_channel.
  rewrite (Hread c1 c2 v1 v2 H1 H2), (Hread c3 c4 v3 v4 H3 H4),
          (Hread c5 c6 v5 v6 H5 H6).
  reflexivity.
Qed.

Lemma to_hex_digits_of (c : ColorRGB.t) :
  let r := ColorRGB.channel_byte (ColorRGB.r c) in
  let g := ColorRGB.channel_byte (ColorRGB.g c) in
  let b := ColorRGB.channel_byte (ColorRGB.b c) in
  ColorRGB.to_hex c =
  String.String "#"%char
    (String.String (ColorRGB.hex_digit (r / 16))
    (String.String (ColorRGB.hex_digit (r mod 16))
    (String.String (ColorRGB.hex_digit (g / 16))
    (String.String (ColorRGB.hex_digit (g mod 16))
    (String.String (ColorRGB.hex_digit (b / 16))
    (String.String (ColorRGB.hex_digit (b mod 16)) String.EmptyString)))))).
Proof.
  intros r g b. unfold ColorRGB.to_hex. fold r g b.
  rewrite !format_02x_byte by apply channel_byte_range.
  reflexivity.
Qed.

Lemma byte_digits (v : Z) :
  (0 <= v <= 255)%Z ->
  (0 <= v / 16 < 16)%Z /\ (0 <= v mod 16 < 16)%Z /\
  (16 * (v / 16) + v mod 16 = v)%Z.
Proof.
  intros Hv. split; [| split].
  - split; [apply Z.div_pos; lia | apply Z.div_lt_upper_bound; lia].
  - apply Z.mod_pos_bound. lia.
  - symmetry. apply Z.div_mod. lia.
Qed.

Lemma hex_round_trip_lemma `{PyText} (c : ColorRGB.t) :
  reads_hex_pairs ->
  let q := ColorRGB.mk (IZR (ColorRGB.channel_byte (ColorRGB.r c)) / 255.0)
                       (IZR (ColorRGB.channel_byte (ColorRGB.g c)) / 255.0)
                       (IZR (ColorRGB.channel_byte (ColorRGB.b c)) / 255.0) in
  ColorRGB.from_hex (ColorRGB.to_hex c) = inr q /\
  ColorRGB.to_hex q = ColorRGB.to_hex c /\
  in_gamut q /\
  String.length (ColorRGB.to_hex c) = 7%nat.
Proof.
  intros Hread q.
  pose proof (channel_byte_range (ColorRGB.r c)) as Hr.
  pose proof (channel_byte_range (ColorRGB.g c)) as Hg.
  pose proof (channel_byte_range (ColorRGB.b c)) as Hb.
  destruct (byte_digits _ Hr) as (Hr1 & Hr2 & Hr3).
  destruct (byte_digits _ Hg) as (Hg1 & Hg2 & Hg3).
  destruct (byte_digits _ Hb) as (Hb1 & Hb2 & Hb3).
  split; [| split; [| split]].
  - rewrite to_hex_digits_of. cbv zeta.
    rewrite (from_hex_six_digits _ _ _ _ _ _ _ _ _ _ _ _ Hread
               (proj1 (hex_digit_value _ Hr1)) (proj1 (hex_digit_value _ Hr2))
               (proj1 (hex_digit_value _ Hg1)) (proj1 (hex_digit_value _ Hg2))
               (proj1 (hex_digit_value _ Hb1)) (proj1 (hex_digit_value _ Hb2))).
    rewrite Hr3, Hg3, Hb3. reflexivity.
  - unfold ColorRGB.to_hex, q. cbn [ColorRGB.r ColorRGB.g ColorRGB.b].
    rewrite !channel_byte_of_byte by assumption. reflexivity.
  - unfold in_gamut, q. cbn [ColorRGB.r ColorRGB.g ColorRGB.b].
    destruct Hr as [Hr0 Hr255], Hg as [Hg0 Hg255], Hb as [Hb0 Hb255].
    apply IZR_le in Hr0, Hr255, Hg0, Hg255, Hb0, Hb255.
    repeat split; lra.
  - rewrite to_hex_digits_of. reflexivity.
Qed.

(** X15. [to_hex] always writes [#] and six lower-case hexadecimal digits,
    each channel clipped to [0, 1] and cut down to a byte.  Where
    [int(s, 16)] reads pairs of hexadecimal digits, [from_hex] reads that
    text back without error as the colour of those bytes, which is in gamut
    and which [to_hex] writes as the same text again. *)
Theorem hex_round_trip `{PyText} (c : ColorRGB.t) :
  reads_hex_pairs ->
  let q := ColorRGB.mk (IZR (ColorRGB.channel_byte (ColorRGB.r c)) / 255.0)
                       (IZR (ColorRGB.channel_byte (ColorRGB.g c)) / 255.0)
                       (IZR (ColorRGB.channel_byte (ColorRGB.b c)) / 255.0) in
  ColorRGB.from_hex (ColorRGB.to_hex c) = inr q /\
  ColorRGB.to_hex q = ColorRGB.to_hex c /\
  in_gamut q /\
  String.length (ColorRGB.to_hex c) = 7%nat.
Proof. apply hex_round_trip_lemma. Qed.

(** X16. Where [int(s, 16)] reads pairs of hexadecimal digits, [from_hex]
    reads [#] followed by six hexadecimal digits, of either case, as the
    colour whose channels are the three bytes divided by 255, a colour in
    gamut, and [to_hex] writes that colour as the same digits in lower
    case.  Any number of leading [#] is dropped first, and text that is not
    six characters long after that is read as the grey (0.5, 0.5, 0.5),
    without an error. *)
Theorem from_hex_reads_six_digits `{PyText} (c1 c2 c3 c4 c5 c6 : Ascii.ascii)
  (v1 v2 v3 v4 v5 v6 : Z) (other : String.string) :
  reads_hex_pairs ->
  HexText.digit_value c1 = Some v1 -> HexText.digit_value c2 = Some v2 ->
  HexText.digit_value c3 = Some v3 -> HexText.digit_value c4 = Some v4 ->
  HexText.digit_value c5 = Some v5 -> HexText.digit_value c6 = Some v6 ->
  let text :=
    String.String c1 (String.String c2 (String.String c3
      (String.String c4 (String.String c5 (String.String c6
         String.EmptyString))))) in
  let color :=
    ColorRGB.mk (IZR (16 * v1 + v2) / 255.0) (IZR (16 * v3 + v4) / 255.0)
                (IZR (16 * v5 + v6) / 255.0) in
  ColorRGB.from_hex (String.String "#"%char text) = inr color /\
  ColorRGB.from_hex text = inr color /\
  in_gamut color /\
  ColorRGB.to_hex color =
    String.String "#"%char
      (String.String (ColorRGB.hex_digit v1) (String.String (ColorRGB.hex_digit v2)
      (String.String (ColorRGB.hex_digit v3) (String.String (ColorRGB.hex_digit v4)
      (String.String (ColorRGB.hex_digit v5) (String.String (ColorRGB.hex_digit v6)
         String.EmptyString)))))) /\
  ColorRGB.from_hex (String.String "#"%char other) = ColorRGB.from_hex other /\
  (String.length (ColorRGB.lstrip "#"%char other) <> 6%nat ->
   ColorRGB.from_hex other = inr (ColorRGB.mk 0.5 0.5 0.5)).
Proof.
  intros Hread H1 H2 H3 H4 H5 H6 text color.
  destruct (digit_value_not_hash c1 v1 H1) as [Hnot1 B1].
  destruct (digit_value_not_hash c2 v2 H2) as [_ B2].
  destruct (digit_value_not_hash c3 v3 H3) as [_ B3].
  destruct (digit_value_not_hash c4 v4 H4) as [_ B4].
  destruct (digit_value_not_hash c5 v5 H5) as [_ B5].
  destruct (digit_value_not_hash c6 v6 H6) as [_ B6].
  assert (Hstrip : forall s, ColorRGB.from_hex (String.String "#"%char s) =
                             ColorRGB.from_hex s).
  { intros s. unfold ColorRGB.from_hex. cbn [ColorRGB.lstrip].
    change (Ascii.eqb "#"%char "#"%char) with true. reflexivity. }
  assert (Hfrom : ColorRGB.from_hex (String.String "#"%char text) = inr color)
    by (apply from_hex_six_digits; assumption).
  assert (Hbyte : forall a b, (0 <= a < 16)%Z -> (0 <= b < 16)%Z ->
                    ColorRGB.format_02x
                      (ColorRGB.channel_byte (IZR (16 * a + b) / 255.0)) =
                    String.String (ColorRGB.hex_digit a)
                      (String.String (ColorRGB.hex_digit b) String.EmptyString)).
  { intros a b Ha Hb. rewrite channel_byte_of_byte by lia.
    rewrite format_02x_byte by lia.
    replace ((16 * a + b) / 16)%Z with a
      by (symmetry; rewrite Z.mul_comm, Z.div_add_l by lia;
          rewrite Z.div_small by lia; lia).
    replace ((16 * a + b) mod 16)%Z with b
      by (symmetry; rewrite Z.add_comm, Z.mul_comm, Z.mod_add by lia;
          apply Z.mod_small; lia).
    reflexivity. }
  split; [exact Hfrom |]. split; [now rewrite <- Hstrip |].
  split; [| split; [| split]].
  - unfold in_gamut, color. cbn [ColorRGB.r ColorRGB.g ColorRGB.b].
    assert (Hq : forall a b, (0 <= a < 16)%Z -> (0 <= b < 16)%Z ->
                   0 <= IZR (16 * a + b) / 255.0 <= 1).
    { intros a b Ha Hb.
      assert (Hlo : (0 <= 16 * a + b)%Z) by lia.
      assert (Hhi : (16 * a + b <= 255)%Z) by lia.
      apply IZR_le in Hlo, Hhi. split; lra. }
    repeat split; apply Hq; assumption.
  - unfold ColorRGB.to_hex, color. cbn [ColorRGB.r ColorRGB.g ColorRGB.b].
    rewrite !Hbyte by assumption. reflexivity.
  - apply Hstrip.
  - intros Hlen. unfold ColorRGB.from_hex.
    destruct (Nat.eqb_spec (String.length (ColorRGB.lstrip "#"%char other)) 6)
      as [E | _]; [contradiction | reflexivity].
Qed.

End HexColors.

(** ** ColorPaletteGenerator *)

Lemma Forall_firstn_keeps {A : Type} (P : A -> Prop) (k : nat) (xs : list A) :
  Forall P xs -> Forall P (firstn k xs).
Proof.
  intros HP. revert k. induction HP as [|a xs Ha _ IH]; intros [|k]; simpl;
    constructor; auto.
Qed.

(** The loop of [calculate_base_color]: the sums stay between 0 and the
    share of the usage counted so far. *)
Lemma add_languages_bounded `{PyText} (total_usage : Z)
  (langs : list ColorPaletteGenerator.Language) :
  (0 < total_usage)%Z ->
  Forall readable_color langs ->
  Forall (fun lang => (0 <= ColorPaletteGenerator.get_usage_count lang)%Z) langs ->
  forall (r_sum g_sum b_sum share : R),
    0 <= r_sum <= share -> 0 <= g_sum <= share -> 0 <= b_sum <= share ->
    exists r' g' b',
      ColorPaletteGenerator.add_languages total_usage (r_sum, g_sum, b_sum) langs
        = inr (r', g', b') /\
      let share' :=
        share +
        IZR (fold_right Z.add 0%Z (map ColorPaletteGenerator.get_usage_count langs)) /
        IZR total_usage in
      0 <= r' <= share' /\ 0 <= g' <= share' /\ 0 <= b' <= share'.
Proof.
  intros HT Hread Hnonneg. apply IZR_lt in HT.
  induction langs as [|lang langs IH]; intros r_sum g_sum b_sum share Hr Hg Hb.
  - exists r_sum, g_sum, b_sum. split; [reflexivity |]. cbn.
    replace (share + 0 / IZR total_usage) with share by (field; lra).
    now repeat split.
  - inversion Hread as [|? ? (c & Hc & Hcr & Hcg & Hcb) Hread']; subst.
    inversion Hnonneg as [|? ? Hu Hnonneg']; subst.
    apply IZR_le in Hu.
    cbn [ColorPaletteGenerator.add_languages].
    unfold ColorPaletteGenerator.add_language. rewrite Hc.
    set (weight := IZR (ColorPaletteGenerator.get_usage_count lang) /
                   IZR total_usage).
    assert (Hw : 0 <= weight) by (apply Rle_mult_inv_pos; lra).
    destruct (IH Hread' Hnonneg'
                (r_sum + ColorRGB.r c * weight) (g_sum + ColorRGB.g c * weight)
                (b_sum + ColorRGB.b c * weight) (share + weight))
      as (r' & g' & b' & Hloop & Hbounds); try nra.
    exists r', g', b'. split; [exact Hloop |].
    cbn [map fold_right]. cbv zeta in Hbounds |- *.
    rewrite plus_IZR.
    replace (share +
             (IZR (ColorPaletteGenerator.get_usage_count lang) +
              IZR (fold_right Z.add 0%Z
                     (map ColorPaletteGenerator.get_usage_count langs))) /
             IZR total_usage)
      with (share + weight +
            IZR (fold_right Z.add 0%Z
                   (map ColorPaletteGenerator.get_usage_count langs)) /
            IZR total_usage)
      by (unfold weight; field; lra).
    exact Hbounds.
Qed.

Lemma usage_sum_nonneg (langs : list ColorPaletteGenerator.Language) :
  Forall (fun lang => (0 <= ColorPaletteGenerator.get_usage_count lang)%Z) langs ->
  (0 <= fold_right Z.add 0%Z (map ColorPaletteGenerator.get_usage_count langs))%Z.
Proof. induction 1; simpl; lia. Qed.

Lemma base_color_in_gamut `{PyText} (languages : list ColorPaletteGenerator.Language) :
  languages <> [] ->
  Forall readable_color (firstn 3 languages) ->
  Forall (fun lang => (0 <= ColorPaletteGenerator.get_usage_count lang)%Z)
         (firstn 3 languages) ->
  exists base,
    ColorPaletteGenerator.calculate_base_color languages = inr base /\
    in_gamut base /\
    (fold_right Z.add 0%Z
       (map ColorPaletteGenerator.get_usage_count (firstn 3 languages)) = 0%Z ->
     base = ColorRGB.mk 0 0 0).
Proof.
  intros Hne Hread Hnonneg.
  destruct languages as [|l0 rest]; [contradiction |].
  unfold ColorPaletteGenerator.calculate_base_color.
  set (top := firstn 3 (l0 :: rest)) in *.
  set (total := fold_right Z.add 0%Z (map ColorPaletteGenerator.get_usage_count top)).
  pose proof (usage_sum_nonneg top Hnonneg) as Htotal. fold total in Htotal.
  set (T := if (total =? 0)%Z then 1%Z else total).
  assert (HT : (0 < T)%Z).
  { unfold T. destruct (Z.eqb_spec total 0); lia. }
  destruct (add_languages_bounded T top HT Hread Hnonneg 0.0 0.0 0.0 0)
    as (r' & g' & b' & Hloop & Hr & Hg & Hb); try lra.
  rewrite Hloop. fold total in Hr, Hg, Hb.
  exists (ColorRGB.mk r' g' b'). split; [reflexivity |].
  assert (Hshare : 0 + IZR total / IZR T <= 1 /\
                   (total = 0%Z -> 0 + IZR total / IZR T = 0)).
  { unfold T. destruct (Z.eqb_spec total 0) as [E | Hnz].
    - rewrite E. split; [| intros _]; lra.
    - assert (Hpos : 0 < IZR total) by (apply IZR_lt; lia).
      split; [| intros E; contradiction].
      right. field. lra. }
  destruct Hshare as [Hle Hzero].
  split.
  - unfold in_gamut. cbn [ColorRGB.r ColorRGB.g ColorRGB.b]. repeat split; lra.
  - intros E. specialize (Hzero E). f_equal; lra.
Qed.

Module PaletteFacts.

Import Stdlib.Strings.String Stdlib.Strings.Ascii.

Lemma default_color_read `{PyText} :
  reads_hex_pairs ->
  ColorRGB.from_hex "#58a6ff" =
    inr (ColorRGB.mk (IZR 88 / 255.0) (IZR 166 / 255.0) (IZR 255 / 255.0)) /\
  ColorRGB.from_hex "#858585" =
    inr (ColorRGB.mk (IZR 133 / 255.0) (IZR 133 / 255.0) (IZR 133 / 255.0)).
Proof.
  intros Hread. split.
  - apply (HexColors.from_hex_six_digits "5" "8" "a" "6" "f" "f" 5 8 10 6 15 15 Hread);
      reflexivity.
  - apply (HexColors.from_hex_six_digits "8" "5" "8" "5" "8" "5" 8 5 8 5 8 5 Hread);
      reflexivity.
Qed.

Lemma base_color_cases `{PyText} (languages : list ColorPaletteGenerator.Language) :
  reads_hex_pairs ->
  Forall readable_color (firstn 3 languages) ->
  Forall (fun lang => (0 <= ColorPaletteGenerator.get_usage_count lang)%Z)
         (firstn 3 languages) ->
  exists base,
    ColorPaletteGenerator.calculate_base_color languages = inr base /\
    in_gamut base /\
    (languages = [] ->
     base = ColorRGB.mk (IZR 88 / 255.0) (IZR 166 / 255.0) (IZR 255 / 255.0)) /\
    (languages <> [] ->
     fold_right Z.add 0%Z
       (map ColorPaletteGenerator.get_usage_count (firstn 3 languages)) = 0%Z ->
     base = ColorRGB.mk 0 0 0) /\
    ColorPaletteGenerator.calculate_base_color (firstn 3 languages) = inr base.
Proof.
  intros Hread Hcolors Husage.
  destruct languages as [|l0 rest].
  - destruct (default_color_read Hread) as [Hdefault _].
    eexists. split; [exact Hdefault |]. split; [| split; [| split]].
    + unfold in_gamut. cbn [ColorRGB.r ColorRGB.g ColorRGB.b]. repeat split; lra.
    + reflexivity.
    + intros Hne. contradiction.
    + exact Hdefault.
  - destruct (base_color_in_gamut (l0 :: rest)) as (base & Hbase & Hgamut & Hzero);
      [discriminate | assumption | assumption |].
    exists base. split; [exact Hbase |]. split; [exact Hgamut |].
    split; [discriminate |]. split; [intros _; exact Hzero |].
    rewrite <- Hbase.
    unfold ColorPaletteGenerator.calculate_base_color.
    rewrite firstn_firstn. cbn [Nat.min].
    cbn [firstn]. reflexivity.
Qed.

(** X17. When the colours of the first three languages are readable and in
    gamut and their usage counts are not negative, [calculate_base_color]
    returns a colour in gamut and looks at no language after the third.
    Without languages it is the default blue [#58a6ff]; with languages whose
    usage counts are all zero it is black. *)
Theorem base_color_weighted_average `{PyText}
  (languages : list ColorPaletteGenerator.Language) :
  reads_hex_pairs ->
  Forall readable_color (firstn 3 languages) ->
  Forall (fun lang => (0 <= ColorPaletteGenerator.get_usage_count lang)%Z)
         (firstn 3 languages) ->
  exists base,
    ColorPaletteGenerator.calculate_base_color languages = inr base /\
    in_gamut base /\
    (languages = [] ->
     base = ColorRGB.mk (IZR 88 / 255.0) (IZR 166 / 255.0) (IZR 255 / 255.0)) /\
    (languages <> [] ->
     fold_right Z.add 0%Z
       (map ColorPaletteGenerator.get_usage_count (firstn 3 languages)) = 0%Z ->
     base = ColorRGB.mk 0 0 0) /\
    ColorPaletteGenerator.calculate_base_color (firstn 3 languages) = inr base.
Proof. apply base_color_cases. Qed.

(** X18. Under the same conditions [generate_palette] returns colours that
    are all in gamut, the base colour first.  For [num_colors >= 0] it
    returns [min(num_colors, 5)] colours, so the five that [render_aura]
    asks for are five; a negative [num_colors] drops that many of the three
    basic colours from the end. *)
Theorem palette_size_and_gamut `{PyText}
  (languages : list ColorPaletteGenerator.Language) (num_colors : Z) :
  reads_hex_pairs ->
  Forall readable_color (firstn 3 languages) ->
  Forall (fun lang => (0 <= ColorPaletteGenerator.get_usage_count lang)%Z)
         (firstn 3 languages) ->
  exists base palette,
    ColorPaletteGenerator.calculate_base_color languages = inr base /\
    ColorPaletteGenerator.generate_palette languages num_colors = inr palette /\
    Forall in_gamut palette /\
    ((0 <= num_colors)%Z ->
       List.length palette = Z.to_nat (Z.min num_colors 5)) /\
    ((num_colors < 0)%Z ->
       List.length palette = Z.to_nat (3 + num_colors)) /\
    ((1 <= num_colors)%Z \/ (-2 <= num_colors < 0)%Z ->
       hd_error palette = Some base).
Proof.
  intros Hread Hcolors Husage.
  destruct (base_color_cases languages Hread Hcolors Husage)
    as (base & Hbase & Hgamut & _).
  exists base. unfold ColorPaletteGenerator.generate_palette. rewrite Hbase.
  set (shifted := ColorRGB.mk _ _ _).
  assert (Hw3 : 0 <= 0.3 <= 1) by lra. assert (Hw2 : 0 <= 0.2 <= 1) by lra.
  assert (Hwhite : in_gamut (ColorRGB.mk 1.0 1.0 1.0))
    by (unfold in_gamut; cbn; lra).
  assert (Hblack : in_gamut (ColorRGB.mk 0.0 0.0 0.0))
    by (unfold in_gamut; cbn; lra).
  assert (Hlight : in_gamut (ColorRGB.lighten base 0.3))
    by (apply blend_in_gamut; assumption).
  assert (Hdark : in_gamut (ColorRGB.darken base 0.2))
    by (apply blend_in_gamut; assumption).
  assert (Hshift : in_gamut shifted).
  { destruct Hgamut as (Hr & Hg & Hb). unfold in_gamut, shifted.
    cbn [ColorRGB.r ColorRGB.g ColorRGB.b]. repeat split; lra. }
  assert (Hshiftl : in_gamut (ColorRGB.lighten shifted 0.2))
    by (apply blend_in_gamut; assumption).
  eexists. split; [reflexivity |]. split; [reflexivity |].
  unfold ColorPaletteGenerator.slice_to.
  destruct (Z.ltb_spec 3 num_colors) as [H3 | H3];
    destruct (Z.ltb_spec 4 num_colors) as [H4 | H4];
    destruct (Z.ltb_spec num_colors 0) as [H0 | H0]; try lia;
    cbn [app List.length].
  - (* five colours *)
    split; [apply Forall_firstn_keeps; repeat (apply Forall_cons; [assumption |]);
            apply Forall_nil |].
    split; [| split; [intros; lia |]].
    + intros _. rewrite length_firstn. cbn [List.length]. lia.
    + intros _. destruct (Z.to_nat num_colors) as [|k] eqn:E; [lia | reflexivity].
  - (* four colours *)
    split; [apply Forall_firstn_keeps; repeat (apply Forall_cons; [assumption |]);
            apply Forall_nil |].
    split; [| split; [intros; lia |]].
    + intros _. rewrite length_firstn. cbn [List.length]. lia.
    + intros _. destruct (Z.to_nat num_colors) as [|k] eqn:E; [lia | reflexivity].
  - (* a negative number *)
    split; [apply Forall_firstn_keeps; repeat (apply Forall_cons; [assumption |]);
            apply Forall_nil |].
    split; [intros; lia |]. split.
    + intros _. rewrite length_firstn. cbn [List.length]. lia.
    + intros [Hc | Hc]; [lia |].
      destruct (Z.to_nat (Z.of_nat 3 + num_colors)) as [|k] eqn:E;
        [lia | reflexivity].
  - (* at most three colours *)
    split; [apply Forall_firstn_keeps; repeat (apply Forall_cons; [assumption |]);
            apply Forall_nil |].
    split; [| split; [intros; lia |]].
    + intros _. rewrite length_firstn. cbn [List.length]. lia.
    + intros [Hc | Hc]; [| lia].
      destruct (Z.to_nat num_colors) as [|k] eqn:E; [lia | reflexivity].
Qed.

End PaletteFacts.

(** * The further properties at concrete inputs *)

Lemma lcg_uniform_in_range : @uniform_in_range Sample.lcg.
Proof.
  intros low high g Hle. cbn [random_uniform Sample.lcg fst].
  assert (Hmod : (0 <= g mod 1024 < 1024)%Z) by (apply Z.mod_pos_bound; lia).
  destruct Hmod as [Hlo Hhi]. apply IZR_le in Hlo. apply IZR_lt in Hhi.
  set (u := IZR (g mod 1024)) in *.
  assert (Hu : 0 <= u / 1024 <= 1) by (split; lra).
  split; nra.
Qed.

(** The 175 particles of density 0.5 on the 800 x 800 canvas. *)
Lemma initial_particles_layout_witness :
  exists sys g',
    @ParticleSystem.init Sample.lcg Sample.canvas 175 1 0%Z = (ok sys, g') /\
    Forall (fun p => 0.3 < Particle.opacity p <= 1 /\
                     -10 <= Vector2D.x (Particle.position p) <= 800 + 10)
           (ParticleSystem.particles sys).
Proof.
  assert (Hw : (0 < VectorFlowField.width Sample.canvas)%Z) by (simpl; lia).
  assert (Hh : (0 < VectorFlowField.height Sample.canvas)%Z) by (simpl; lia).
  destruct (@initial_particles_layout Sample.lcg Sample.canvas 175 1 0%Z
              lcg_uniform_in_range Hw Hh) as (sys & g' & Hinit & HF).
  exists sys, g'. split; [exact Hinit |].
  eapply Forall2_right_all; [| exact HF].
  intros i p (_ & _ & Hop & _ & _ & Hx & _). split; [exact Hop | exact Hx].
Defined.

(** Density 0.5, 150 steps: 175 paths. *)
Lemma generate_output_shape_witness :
  exists paths g',
    @AuraGenerator.run Sample.trig_noise Sample.lcg 800 800 42 0.5 0.2 150 0%Z
      = (ok paths, g') /\
    length paths = 175%nat.
Proof.
  assert (Hw : (0 < 800)%Z) by lia.
  assert (Hd : 0 <= 0.5 <= 1) by lra.
  destruct (@generate_output_shape Sample.trig_noise Sample.lcg 800 800 42 0.5 0.2
              150 0%Z Hw Hw Hd) as (paths & g' & Hrun & Hlong & _).
  exists paths, g'. split; [exact Hrun |].
  assert (Hsteps : (3 <= 150)%Z) by lia.
  destruct (Hlong Hsteps) as [Hlen _]. rewrite Hlen.
  assert (Hb : AuraGenerator.base_particles 0.5 = 175%Z).
  { unfold AuraGenerator.base_particles. rewrite py_int_nonneg by lra.
    apply Zfloor_eq. lra. }
  rewrite Hb.
  replace (Zfloor (IZR 175 * (0.8 + 0.5 * 0.4))) with 175%Z
    by (symmetry; apply Zfloor_eq; lra).
  reflexivity.
Defined.

(** The 80 x 80 grid of the 800 x 800 canvas, and no grid for a negative
    width. *)
Lemma get_force_grid_samples_witness :
  (exists grid,
     @VectorFlowFieldGrid.get_force_grid Sample.trig_noise Sample.canvas = inr grid /\
     length grid = 80%nat) /\
  @VectorFlowFieldGrid.get_force_grid Sample.trig_noise
    (VectorFlowField.init (-800) 800 42 0.2 0.008) = inl ValueError.
Proof.
  split.
  - assert (Hw : (0 <= 800)%Z) by lia.
    destruct (proj2 (@get_force_grid_samples Sample.trig_noise 800 800 42 0.2
                       (AuraGenerator.noise_scale 0.2)) Hw Hw)
      as (grid & Hgrid & Hlen & _).
    exists grid. split; [exact Hgrid | exact Hlen].
  - assert (Hneg : (-800 < 0)%Z \/ (800 < 0)%Z) by (left; lia).
    exact (proj1 (@get_force_grid_samples Sample.trig_noise (-800) 800 42 0.2 0.008)
             Hneg).
Defined.

Lemma normalize_density_range_witness :
  (5000 <= 7000)%Z /\ StatsNormalizer.normalize_density 7000 = 1.
Proof.
  assert (H : (5000 <= 7000)%Z) by lia.
  split; [exact H |].
  exact (proj1 (proj2 (proj2 (proj2 (normalize_density_range 7000 7000)))) H).
Defined.

Lemma normalize_intensity_range_witness :
  (0 <= 14 < 30)%Z /\ (30 <= 1000)%Z /\
  StatsNormalizer.normalize_intensity 14 < StatsNormalizer.normalize_intensity 30.
Proof.
  assert (H : (0 <= 14 < 30)%Z) by lia.
  assert (H' : (30 <= 1000)%Z) by lia.
  split; [exact H |]. split; [exact H' |].
  exact (proj1 (proj2 (proj2 (normalize_intensity_range 14 30 H H')))).
Defined.

(** Twenty-five commits in each period: chaos 1. *)
Lemma chaos_factor_range_witness :
  StatsNormalizer.calculate_chaos_factor Fixtures.times = 1.
Proof.
  destruct (ChaosFactor.chaos_factor_range Fixtures.times) as (_ & _ & Hpos).
  assert (H0 : (0 <= 25)%Z) by lia. assert (Ht : (0 < 25 + 25 + 25 + 25)%Z) by lia.
  destruct (Hpos H0 H0 H0 H0 Ht) as (_ & _ & Hunif).
  apply Hunif. repeat split.
Defined.

Lemma normalized_stats_feed_generate_witness :
  0 <= StatsNormalizer.density (StatsNormalizer.normalize_stats Fixtures.stats) <= 1 /\
  exists paths g',
    @AuraGenerator.run Sample.trig_noise Sample.lcg 800 800
      (StatsNormalizer.seed (StatsNormalizer.normalize_stats Fixtures.stats))
      (StatsNormalizer.density (StatsNormalizer.normalize_stats Fixtures.stats))
      (StatsNormalizer.chaos_factor (StatsNormalizer.normalize_stats Fixtures.stats))
      150 0%Z = (ok paths, g') /\
    (40 <= length paths <= 360)%nat.
Proof.
  assert (Hw : (0 < 800)%Z) by lia. assert (H0 : (0 <= 25)%Z) by lia.
  destruct (@ChaosFactor.normalized_stats_feed_generate Sample.trig_noise
              Sample.lcg Fixtures.stats 800 800 0%Z Hw Hw H0 H0 H0 H0)
    as (Hd & _ & _ & _ & paths & g' & Hrun & Hlen & _).
  split; [exact Hd |]. exists paths, g'. split; [exact Hrun | exact Hlen].
Defined.

(** The run of three days that crosses from the first week into the
    second. *)
Lemma max_streak_is_longest_run_witness :
  streak_in (GitHubDataLoader.all_days Fixtures.weeks) [true; true; true] /\
  (3 <= GitHubDataLoader._calculate_max_streak Fixtures.weeks)%Z.
Proof.
  assert (Hrun : streak_in (GitHubDataLoader.all_days Fixtures.weeks)
                           [true; true; true]).
  { split.
    - exists [true; false], [false]. reflexivity.
    - repeat constructor. }
  split; [exact Hrun |].
  exact (proj1 (max_streak_is_longest_run Fixtures.weeks) _ Hrun).
Defined.

(** Python occurs in both repositories: 100 + 50. *)
Lemma aggregate_languages_totals_witness :
  In Fixtures.python_again (LanguageTotals.all_edges Fixtures.repositories) /\
  In (LanguageTotals.edge_name Fixtures.python_again)
     (map GitHubDataLoader.name
          (GitHubDataLoader._aggregate_languages Fixtures.repositories)).
Proof.
  assert (Hin : In Fixtures.python_again
                   (LanguageTotals.all_edges Fixtures.repositories)).
  { simpl. right. right. right. left. reflexivity. }
  split; [exact Hin |].
  exact (proj2 (proj2 (proj2 (aggregate_languages_totals Fixtures.repositories)))
           _ Hin).
Defined.

Lemma orange_in_gamut : in_gamut Fixtures.orange.
Proof. unfold in_gamut, Fixtures.orange. cbn. lra. Qed.

Lemma blend_interpolates_witness :
  0 <= 0.3 <= 1 /\ in_gamut (ColorRGB.lighten Fixtures.orange 0.3).
Proof.
  assert (Hw : 0 <= 0.3 <= 1) by lra.
  split; [exact Hw |].
  exact (proj1 (proj2 (proj2 (proj2
           (blend_interpolates Fixtures.orange Fixtures.orange 0.3 Hw
              orange_in_gamut orange_in_gamut))))).
Defined.

Lemma two_digits_read_hex_pairs : @reads_hex_pairs HexText.two_digits.
Proof.
  intros c1 c2 v1 v2 H1 H2. cbn [int_base16 HexText.two_digits].
  now rewrite H1, H2.
Qed.

Lemma hex_round_trip_witness :
  @ColorRGB.from_hex HexText.two_digits (ColorRGB.to_hex Fixtures.orange) =
  inr (ColorRGB.mk
         (IZR (ColorRGB.channel_byte (ColorRGB.r Fixtures.orange)) / 255.0)
         (IZR (ColorRGB.channel_byte (ColorRGB.g Fixtures.orange)) / 255.0)
         (IZR (ColorRGB.channel_byte (ColorRGB.b Fixtures.orange)) / 255.0)).
Proof.
  exact (proj1 (@HexColors.hex_round_trip HexText.two_digits Fixtures.orange
                  two_digits_read_hex_pairs)).
Defined.

Module ColorWitnesses.

Import Stdlib.Strings.String Stdlib.Strings.Ascii.

Lemma six_digits_in_gamut (v1 v2 v3 v4 v5 v6 : Z) :
  (0 <= v1 < 16)%Z -> (0 <= v2 < 16)%Z -> (0 <= v3 < 16)%Z ->
  (0 <= v4 < 16)%Z -> (0 <= v5 < 16)%Z -> (0 <= v6 < 16)%Z ->
  in_gamut (ColorRGB.mk (IZR (16 * v1 + v2) / 255.0) (IZR (16 * v3 + v4) / 255.0)
                        (IZR (16 * v5 + v6) / 255.0)).
Proof.
  intros H1 H2 H3 H4 H5 H6.
  assert (Hq : forall a b, (0 <= a < 16)%Z -> (0 <= b < 16)%Z ->
                 0 <= IZR (16 * a + b) / 255.0 <= 1).
  { intros a b Ha Hb.
    assert (Hlo : (0 <= 16 * a + b)%Z) by lia.
    assert (Hhi : (16 * a + b <= 255)%Z) by lia.
    apply IZR_le in Hlo, Hhi. split; lra. }
  unfold in_gamut. cbn [ColorRGB.r ColorRGB.g ColorRGB.b].
  repeat split; apply Hq; assumption.
Qed.

Lemma sample_languages_readable :
  Forall (@readable_color HexText.two_digits) (firstn 3 Fixtures.languages).
Proof.
  cbn [firstn Fixtures.languages].
  repeat (apply Forall_cons; [| ]); [| | | apply Forall_nil].
  - eexists. split.
    + apply (HexColors.from_hex_six_digits "d" "e" "a" "5" "8" "4"
               13 14 10 5 8 4 two_digits_read_hex_pairs); reflexivity.
    + apply six_digits_in_gamut; lia.
  - eexists. split.
    + apply (HexColors.from_hex_six_digits "3" "5" "7" "2" "A" "5"
               3 5 7 2 10 5 two_digits_read_hex_pairs); reflexivity.
    + apply six_digits_in_gamut; lia.
  - eexists. split.
    + apply (HexColors.from_hex_six_digits "8" "5" "8" "5" "8" "5"
               8 5 8 5 8 5 two_digits_read_hex_pairs); reflexivity.
    + apply six_digits_in_gamut; lia.
Qed.

Lemma sample_languages_usage :
  Forall (fun lang => (0 <= ColorPaletteGenerator.get_usage_count lang)%Z)
         (firstn 3 Fixtures.languages).
Proof.
  cbn [firstn Fixtures.languages].
  repeat (apply Forall_cons; [cbn; lia |]). apply Forall_nil.
Qed.

(** An orange written in mixed case. *)
Lemma from_hex_reads_six_digits_witness :
  @ColorRGB.from_hex HexText.two_digits "#Ff8000" =
    inr (ColorRGB.mk (IZR (16 * 15 + 15) / 255.0) (IZR (16 * 8 + 0) / 255.0)
                     (IZR (16 * 0 + 0) / 255.0)) /\
  @ColorRGB.from_hex HexText.two_digits "#fff" = inr (ColorRGB.mk 0.5 0.5 0.5).
Proof.
  destruct (@HexColors.from_hex_reads_six_digits HexText.two_digits
              "F" "f" "8" "0" "0" "0" 15 15 8 0 0 0 "#fff"
              two_digits_read_hex_pairs eq_refl eq_refl eq_refl eq_refl eq_refl
              eq_refl) as (Hfrom & _ & _ & _ & _ & Hgrey).
  split; [exact Hfrom |].
  apply Hgrey. cbn. discriminate.
Defined.

Lemma base_color_weighted_average_witness :
  exists base,
    @ColorPaletteGenerator.calculate_base_color HexText.two_digits
      Fixtures.languages = inr base /\
    in_gamut base.
Proof.
  destruct (@PaletteFacts.base_color_weighted_average HexText.two_digits
              Fixtures.languages two_digits_read_hex_pairs
              sample_languages_readable sample_languages_usage)
    as (base & Hbase & Hgamut & _).
  exists base. split; [exact Hbase | exact Hgamut].
Defined.

(** The palette that [render_aura] asks for. *)
Lemma palette_size_and_gamut_witness :
  exists palette,
    @ColorPaletteGenerator.generate_palette HexText.two_digits
      Fixtures.languages 5 = inr palette /\
    List.length palette = 5%nat.
Proof.
  destruct (@PaletteFacts.palette_size_and_gamut HexText.two_digits
              Fixtures.languages 5 two_digits_read_hex_pairs
              sample_languages_readable sample_languages_usage)
    as (base & palette & _ & Hpalette & _ & Hlen & _).
  exists palette. split; [exact Hpalette |].
  assert (H5 : (0 <= 5)%Z) by lia. exact (Hlen H5).
Defined.

End ColorWitnesses.
